(** * Task tool: a shallow embedding of the task orchestration engine

    The development follows the TypeScript sources of the task-tool
    extension: [task-params.ts] (parameter normalizer), [task-config.ts]
    (configuration resolver) and the main module of the extension (runner,
    scheduler and mode orchestrators).

    Conventions.
    - A JavaScript string is a [string]; each [ascii] stands for one code
      unit below 256.
    - The numbers of a usage record and of an event line are binary64
      [float]s, added with [PrimFloat.add]; lengths, indices and exit codes
      are integers ([nat], [Z]).
    - [undefined] in an optional field is [None].
    - An array written by index is a [list] with stdpp's lookup and insert.
      The program writes a step, a task or a claimed index, each below the
      length of its array, where insert and the assignment agree. *)

From Stdlib Require Import ZArith String Ascii List Bool Lia.
From Stdlib Require Import Numbers.DecimalString.
From Stdlib Require Import Floats.PrimFloat.
From stdpp Require Import base list.

Import ListNotations.
Set Warnings "-register-all".
Local Open Scope string_scope.
Local Open Scope Z_scope.

(** ** Usage statistics *)

Module Usage.

(** [UsageStats]: seven JavaScript numbers. *)
Record UsageStats := mkUsage {
  input : float;
  output : float;
  cacheRead : float;
  cacheWrite : float;
  cost : float;
  contextTokens : float;
  turns : float
}.

Definition zero : UsageStats :=
  mkUsage 0 0 0 0 0 0 0.

End Usage.

(** ** JavaScript strings *)

Module Js.

(** The double quote, for messages that quote a field name. *)
Definition dq : string := String "034"%char "".

(** The line feed, the separator of the event stream. *)
Definition LF : ascii := "010"%char.

(** ECMAScript white space and line terminators among the code units below
    256: TAB, LF, VT, FF, CR, SPACE and NO-BREAK SPACE. *)
Definition isWhiteSpace (c : ascii) : bool :=
  let n := N_of_ascii c in
  (n =? 9)%N || (n =? 10)%N || (n =? 11)%N || (n =? 12)%N || (n =? 13)%N
  || (n =? 32)%N || (n =? 160)%N.

Fixpoint trimStart (s : string) : string :=
  match s with
  | EmptyString => EmptyString
  | String c s' => if isWhiteSpace c then trimStart s' else s
  end.

Fixpoint trimEnd (s : string) : string :=
  match s with
  | EmptyString => EmptyString
  | String c s' =>
      match trimEnd s' with
      | EmptyString => if isWhiteSpace c then EmptyString else String c EmptyString
      | r => String c r
      end
  end.

(** [String.prototype.trim] *)
Definition trim (s : string) : string := trimEnd (trimStart s).

(** Truthiness of a string: every string but the empty one. *)
Definition truthy (s : string) : bool :=
  match s with EmptyString => false | String _ _ => true end.

(** Truthiness of an optional string: [undefined] and the empty string are falsy. *)
Definition truthyOpt (o : option string) : bool :=
  match o with Some s => truthy s | None => false end.

(** [s.indexOf(needle)], -1 when [needle] does not occur. *)
Definition indexOf (s needle : string) : Z :=
  match String.index 0 needle s with
  | Some i => Z.of_nat i
  | None => -1
  end.

(** [s.slice(from, to)] for [0 <= from <= to]. *)
Definition slice (s : string) (from to : nat) : string :=
  String.substring from (to - from) s.

(** [s.slice(from)] for [0 <= from]. *)
Definition sliceFrom (s : string) (from : nat) : string :=
  String.substring from (String.length s - from) s.

(** [s.split("\n")]: the segments between line feeds; never empty. *)
Fixpoint splitLines (s : string) : list string :=
  match s with
  | EmptyString => [EmptyString]
  | String c s' =>
      if Ascii.eqb c LF then EmptyString :: splitLines s'
      else match splitLines s' with
           | l :: ls => String c l :: ls
           | [] => [String c EmptyString]
           end
  end.

(** An integer in a template literal. *)
Definition numberToString (z : Z) : string :=
  NilZero.string_of_int (Z.to_int z).

(** [parts.join(sep)] *)
Fixpoint join (sep : string) (parts : list string) : string :=
  match parts with
  | [] => EmptyString
  | [p] => p
  | p :: rest => p ++ sep ++ join sep rest
  end.

(** A value a request or an event line can hold: the JSON values and
    [undefined]. An object is the list of its own properties. *)
Inductive Value :=
| Undefined
| Null
| Bool (b : bool)
| Num (n : float)
| Str (s : string)
| Arr (elems : list Value)
| Obj (fields : list (string * Value)).

Fixpoint lookupField (k : string) (fields : list (string * Value)) : Value :=
  match fields with
  | [] => Undefined
  | (k', v) :: rest => if String.eqb k k' then v else lookupField k rest
  end.

(** [v.k] for a property name [k] that no array has: a missing property, and
    any property of an array, reads as [undefined]. *)
Definition get (v : Value) (k : string) : Value :=
  match v with
  | Obj fields => lookupField k fields
  | _ => Undefined
  end.

(** [isRecord]: [value !== null && typeof value === "object"]; arrays pass. *)
Definition isRecord (v : Value) : bool :=
  match v with
  | Obj _ | Arr _ => true
  | _ => false
  end.

End Js.

(** A result that is either a value or an error message ([ok: true] or
    [ok: false]). *)
Inductive Result (A : Type) :=
| Ok (a : A)
| Err (error : string).
Arguments Ok {A} a.
Arguments Err {A} error.

Definition isOk {A} (r : Result A) : bool :=
  match r with Ok _ => true | Err _ => false end.

(** ** Parameter normalizer ([task-params.ts]) *)

Module TaskParams.
Import Js.

Definition MAX_PARALLEL_TASKS : Z := 8.
Definition VALID_THINKING_LEVELS : list string :=
  ["off"; "minimal"; "low"; "medium"; "high"; "xhigh"].
Definition VALID_THINKING_OPTIONS : list string :=
  "inherit" :: VALID_THINKING_LEVELS.

(** [TaskThinking] is a union of string literals: a string that
    [isTaskThinking] accepts. *)
Definition TaskThinking := string.

Record TaskWorkItem := mkItem {
  prompt : string;
  skill : option string;
  model : option string;
  thinking : option TaskThinking;
  fork : bool
}.

Record ProviderModel := mkProviderModel {
  provider : string;
  modelId : string;
  label : string
}.

Inductive Mode := single | parallel | chain.

(** The fields [model], [thinking] and [items] of [NormalizedParams]; the
    first two are the defaults shared by the items. *)
Record NormalizedParams := mkParams {
  mode : Mode;
  sharedModel : option string;
  sharedThinking : TaskThinking;
  items : list TaskWorkItem
}.

Definition isTaskThinking (value : string) : bool :=
  existsb (String.eqb value) VALID_THINKING_OPTIONS.

Definition parseProviderModel (value : string) : Result ProviderModel :=
  let trimmed := trim value in
  let slashIndex := indexOf trimmed "/" in
  if (slashIndex <=? 0) || (slashIndex =? Z.of_nat (String.length trimmed) - 1) then
    Err ("Invalid model format: " ++ dq ++ value ++ dq ++ ". Expected provider/modelId.")
  else
    let provider := slice trimmed 0 (Z.to_nat slashIndex) in
    let modelId := sliceFrom trimmed (Z.to_nat (slashIndex + 1)) in
    Ok (mkProviderModel provider modelId (provider ++ "/" ++ modelId)).

(** The session model of the caller: [{ provider, id }]. *)
Record CtxModel := mkCtxModel {
  ctxProvider : string;
  ctxId : string
}.

Definition resolveModel (modelOverride : option string) (ctxModel : option CtxModel)
  : Result (option ProviderModel) :=
  if truthyOpt modelOverride then
    match parseProviderModel (default EmptyString modelOverride) with
    | Err e => Err e
    | Ok m => Ok (Some m)
    end
  else
    match ctxModel with
    | None => Ok None
    | Some c =>
        Ok (Some (mkProviderModel (ctxProvider c) (ctxId c)
                    (ctxProvider c ++ "/" ++ ctxId c)))
    end.

Definition normalizeModelInput (value : Value) (label : string)
  : Result (option string) :=
  match value with
  | Undefined => Ok None
  | Str s =>
      let trimmed := trim s in
      Ok (if truthy trimmed then Some trimmed else None)
  | _ => Err ("Invalid parameters: " ++ label ++ " must be a string.")
  end.

Definition normalizeThinkingInput (value : Value) (label : string)
  : Result (option TaskThinking) :=
  match value with
  | Undefined => Ok None
  | Str s =>
      let trimmed := trim s in
      if negb (truthy trimmed) then Ok None
      else if negb (isTaskThinking trimmed) then
        Err ("Invalid parameters: " ++ label ++ " must be one of "
             ++ join ", " VALID_THINKING_OPTIONS ++ ".")
      else Ok (Some trimmed)
  | _ => Err ("Invalid parameters: " ++ label ++ " must be a string.")
  end.

Definition normalizeForkInput (value : Value) (label : string) : Result bool :=
  match value with
  | Undefined => Ok true
  | Bool b => Ok b
  | _ => Err ("Invalid parameters: " ++ label ++ " must be a boolean.")
  end.

(** The label of a field of the task at [index]: the field name in double
    quotes, as in ["tasks[0].model"]. *)
Definition taskLabel (index : nat) (field : string) : string :=
  dq ++ "tasks[" ++ numberToString (Z.of_nat index) ++ "]." ++ field ++ dq.

(** The body of the loop of [parseTaskItems] for one entry. *)
Definition parseTaskItem (index : nat) (taskEntry : Value) : Result TaskWorkItem :=
  if negb (isRecord taskEntry) then Err "Invalid task item: expected an object."
  else
    let prompt := match get taskEntry "prompt" with Str s => trim s | _ => EmptyString end in
    let skill := match get taskEntry "skill" with Str s => Some (trim s) | _ => None end in
    if negb (truthy prompt) && negb (truthyOpt skill) then
      Err ("Invalid task item: provide a non-empty " ++ dq ++ "prompt" ++ dq
           ++ " or " ++ dq ++ "skill" ++ dq ++ ".")
    else
      match normalizeModelInput (get taskEntry "model") (taskLabel index "model") with
      | Err e => Err e
      | Ok modelResult =>
          match normalizeThinkingInput (get taskEntry "thinking") (taskLabel index "thinking") with
          | Err e => Err e
          | Ok thinkingResult =>
              match normalizeForkInput (get taskEntry "fork") (taskLabel index "fork") with
              | Err e => Err e
              | Ok forkResult =>
                  Ok (mkItem prompt skill modelResult thinkingResult forkResult)
              end
          end
      end.

(** The loop of [parseTaskItems] from entry [index] on, [items] being the
    items pushed so far. *)
Fixpoint parseTaskItemsFrom (index : nat) (rawTasks : list Value)
    (items : list TaskWorkItem) : Result (list TaskWorkItem) :=
  match rawTasks with
  | [] => Ok items
  | taskEntry :: rest =>
      match parseTaskItem index taskEntry with
      | Err e => Err e
      | Ok item => parseTaskItemsFrom (S index) rest (items ++ [item])%list
      end
  end.

Definition parseTaskItems (rawTasks : list Value) : Result (list TaskWorkItem) :=
  parseTaskItemsFrom 0 rawTasks [].

Record Options := mkOptions { maxParallelTasks : Z }.

Definition defaultOptions : Options := mkOptions MAX_PARALLEL_TASKS.

Definition quoted (s : string) : string := dq ++ s ++ dq.

(** [normalizeTaskParams]. In single mode [rawTasks] has one entry when it is
    parsed, so [firstn 1] is the one-element array [[parsed.items[0]]]. *)
Definition normalizeTaskParams (params : Value) (options : Options)
  : Result NormalizedParams :=
  if negb (isRecord params) then Err "Invalid parameters: expected an object."
  else
    match get params "type" with
    | Str mode =>
        match normalizeModelInput (get params "model") (quoted "model") with
        | Err e => Err e
        | Ok model =>
            match normalizeThinkingInput (get params "thinking") (quoted "thinking") with
            | Err e => Err e
            | Ok thinkingResult =>
                let thinking := default "inherit" thinkingResult in
                let rawTasks := match get params "tasks" with Arr l => l | _ => [] end in
                let len := Z.of_nat (length rawTasks) in
                if String.eqb mode "single" then
                  if negb (len =? 1) then
                    Err ("Invalid parameters: type=" ++ quoted "single"
                         ++ " requires exactly one task in " ++ quoted "tasks" ++ ".")
                  else
                    match parseTaskItems rawTasks with
                    | Err e => Err e
                    | Ok parsed => Ok (mkParams single model thinking (firstn 1 parsed))
                    end
                else if String.eqb mode "parallel" then
                  if len =? 0 then
                    Err ("Invalid parameters: type=" ++ quoted "parallel"
                         ++ " requires a non-empty " ++ quoted "tasks" ++ " array.")
                  else if len >? maxParallelTasks options then
                    Err ("Too many parallel tasks (" ++ numberToString len ++ "). Max is "
                         ++ numberToString (maxParallelTasks options) ++ ".")
                  else
                    match parseTaskItems rawTasks with
                    | Err e => Err e
                    | Ok parsed => Ok (mkParams parallel model thinking parsed)
                    end
                else if String.eqb mode "chain" then
                  if len =? 0 then
                    Err ("Invalid parameters: type=" ++ quoted "chain"
                         ++ " requires a non-empty " ++ quoted "tasks" ++ " array.")
                  else if len >? maxParallelTasks options then
                    Err ("Too many chain tasks (" ++ numberToString len ++ "). Max is "
                         ++ numberToString (maxParallelTasks options) ++ ".")
                  else
                    match parseTaskItems rawTasks with
                    | Err e => Err e
                    | Ok parsed => Ok (mkParams chain model thinking parsed)
                    end
                else
                  Err ("Invalid parameters: " ++ quoted "type" ++ " must be "
                       ++ quoted "single" ++ ", " ++ quoted "chain" ++ ", or "
                       ++ quoted "parallel" ++ ".")
            end
        end
    | _ => Err ("Invalid parameters: " ++ quoted "type" ++ " must be a string.")
    end.

End TaskParams.

(** ** Configuration resolver ([task-config.ts]) *)

Module TaskConfig.
Import Js TaskParams.

Definition ThinkingLevel := string.

Definition BUILT_IN_TOOLS : list string :=
  ["read"; "bash"; "edit"; "write"; "grep"; "find"; "ls"].

Definition isBuiltInToolName (toolName : string) : bool :=
  existsb (String.eqb toolName) BUILT_IN_TOOLS.

Definition getBuiltInToolsFromActiveTools (activeTools : list string) : list string :=
  List.filter isBuiltInToolName activeTools.

Definition resolveThinkingLevel (thinking : TaskThinking) (inherited : ThinkingLevel)
  : ThinkingLevel :=
  if String.eqb thinking "inherit" then inherited else thinking.

Definition buildSubprocessArgs (model : option ProviderModel)
    (thinkingLevel : ThinkingLevel) (builtInTools : list string) : list string :=
  let args := ["--mode"; "json"; "-p"; "--no-session"; "--no-extensions"] in
  let args :=
    match model with
    | Some m => (args ++ ["--provider"; provider m] ++ ["--model"; modelId m])%list
    | None => args
    end in
  let args := (args ++ ["--thinking"; thinkingLevel])%list in
  if (length builtInTools =? 0)%nat then (args ++ ["--no-tools"])%list
  else (args ++ ["--tools"; join "," builtInTools])%list.

Record ConfigOptions := mkConfigOptions {
  item : TaskWorkItem;
  defaultModel : option string;
  defaultThinking : TaskThinking;
  inheritedThinking : ThinkingLevel;
  ctxModel : option CtxModel;
  builtInTools : list string
}.

Record ResolvedTaskConfig := mkResolved {
  thinkingLevel : ThinkingLevel;
  subprocessArgs : list string;
  modelLabel : option string
}.

(** [a ?? b] on optional strings. *)
Definition nullish {A} (a b : option A) : option A :=
  match a with Some _ => a | None => b end.

Definition resolveTaskConfig (options : ConfigOptions) : Result ResolvedTaskConfig :=
  let modelOverride := nullish (model (item options)) (defaultModel options) in
  match resolveModel modelOverride (ctxModel options) with
  | Err e => Err e
  | Ok resolved =>
      let thinking :=
        resolveThinkingLevel
          (default (defaultThinking options) (thinking (item options)))
          (inheritedThinking options) in
      let subprocessArgs := buildSubprocessArgs resolved thinking (builtInTools options) in
      Ok (mkResolved thinking subprocessArgs (option_map label resolved))
  end.

End TaskConfig.

(** ** Runner, scheduler and orchestrators (the main module)

    A message of the event stream is kept as the parsed JSON value. The type
    guard [isMessage] checks the role only; past it the code reads a message
    at the type that the agent library declares for it (a content array, a
    usage object with optional numbers, optional strings for the model, the
    stop reason and the error message), and so do the accessors below. The
    usage object is the exception: the event stream may leave it out, and
    the code then throws where it reads it, as [applyAssistantUsage] does
    below. *)

Module Extension.
Import Js TaskParams TaskConfig Usage.

Record SingleResult := mkResult {
  r_prompt : string;
  r_skill : option string;
  exitCode : Z;
  messages : list Value;
  stderr : string;
  usage : UsageStats;
  r_model : option string;
  r_thinking : option ThinkingLevel;
  r_fork : option bool;
  stopReason : option string;
  errorMessage : option string;
  r_index : option nat
}.

Inductive TaskStatus := Running | Done | Failed | Pending.

(** An optional string field of a message. *)
Definition stringField (v : Value) (k : string) : option string :=
  match get v k with Str s => Some s | _ => None end.

(** An optional number read with [?? 0]. *)
Definition numberOrZero (v : Value) : float :=
  match v with Num n => n | _ => 0%float end.

Definition roleIs (message : Value) (role : string) : bool :=
  match get message "role" with Str r => String.eqb r role | _ => false end.

(** The inner loop of [getFinalOutput]: the text of the first text part. *)
Fixpoint firstText (parts : list Value) : option string :=
  match parts with
  | [] => None
  | part :: rest =>
      match get part "type" with
      | Str t =>
          if String.eqb t "text"
          then Some (default EmptyString (stringField part "text"))
          else firstText rest
      | _ => firstText rest
      end
  end.

Definition contentParts (message : Value) : list Value :=
  match get message "content" with Arr parts => parts | _ => [] end.

(** The outer loop of [getFinalOutput] over the messages, last one first. *)
Fixpoint finalOutputFrom (reversed : list Value) : string :=
  match reversed with
  | [] => EmptyString
  | message :: earlier =>
      if roleIs message "assistant" then
        match firstText (contentParts message) with
        | Some text => text
        | None => finalOutputFrom earlier
        end
      else finalOutputFrom earlier
  end.

Definition getFinalOutput (messages : list Value) : string :=
  finalOutputFrom (rev messages).

Definition isTaskRunning (result : SingleResult) : bool := exitCode result =? -1.
Definition isTaskPending (result : SingleResult) : bool := exitCode result =? -2.

Definition optionIs (o : option string) (s : string) : bool :=
  match o with Some x => String.eqb x s | None => false end.

Definition isTaskError (result : SingleResult) : bool :=
  (exitCode result >? 0)
  || optionIs (stopReason result) "error"
  || optionIs (stopReason result) "aborted".

Definition getTaskStatus (result : SingleResult) : TaskStatus :=
  if isTaskPending result then Pending
  else if isTaskRunning result then Running
  else if isTaskError result then Failed else Done.

(** [a || b] on strings: [a] when it is truthy. *)
Definition orElse (a b : string) : string := if truthy a then a else b.

Definition getTaskErrorText (result : SingleResult) : string :=
  orElse (default EmptyString (errorMessage result))
    (orElse (stderr result)
       (orElse (getFinalOutput (messages result)) "(no output)")).

(** *** Chain prompts *)

Definition previousToken : string := "{previous}".

(** The replacement text of one match of a pattern without capture groups
    (GetSubstitution of ECMAScript): [$$] is a dollar sign, [$&] the matched
    text, [$`] the text before the match, [$'] the text after it; any other
    character, and a dollar sign before any other character, stands for
    itself. *)
Fixpoint getSubstitution (matched before after template : string) : string :=
  match template with
  | EmptyString => EmptyString
  | String c rest =>
      if Ascii.eqb c "$" then
        match rest with
        | EmptyString => String c EmptyString
        | String d rest' =>
            if Ascii.eqb d "$" then String "$" (getSubstitution matched before after rest')
            else if Ascii.eqb d "&" then matched ++ getSubstitution matched before after rest'
            else if Ascii.eqb d "`" then before ++ getSubstitution matched before after rest'
            else if Ascii.eqb d "'" then after ++ getSubstitution matched before after rest'
            else String c (getSubstitution matched before after rest)
        end
      else String c (getSubstitution matched before after rest)
  end.

(** [s.replace(/\{previous\}/g, replacement)], scanning [s] from the left:
    [before] is the text already passed and [skip] the number of characters
    of the current match still to pass. The token does not overlap itself,
    so the matches are its occurrences. *)
Fixpoint replacePrevious (before s : string) (skip : nat) (replacement : string) : string :=
  match s with
  | EmptyString => EmptyString
  | String c s' =>
      match skip with
      | S k => replacePrevious (before ++ String c EmptyString) s' k replacement
      | O =>
          if String.prefix previousToken s then
            getSubstitution previousToken before
              (sliceFrom s (String.length previousToken)) replacement
            ++ replacePrevious (before ++ String c EmptyString) s'
                 (String.length previousToken - 1) replacement
          else
            String c (replacePrevious (before ++ String c EmptyString) s' O replacement)
      end
  end.

Definition buildChainPrompt (prompt previousOutput : string) : string :=
  replacePrevious EmptyString prompt O previousOutput.

(** The ellipsis stands in for the output of a step that has not run. It is
    one character of the source and is written here as its UTF-8 bytes. *)
Definition ellipsis : string :=
  String "226"%char (String "128"%char (String "166"%char EmptyString)).

Definition buildPendingPrompt (prompt : string) : string :=
  buildChainPrompt prompt ellipsis.

(** *** Usage aggregation *)

(** One iteration of the loop of [aggregateUsage]: its six [+=] statements. *)
Definition addUsage (total u : UsageStats) : UsageStats :=
  {| input := PrimFloat.add (input total) (input u);
     output := PrimFloat.add (output total) (output u);
     cacheRead := PrimFloat.add (cacheRead total) (cacheRead u);
     cacheWrite := PrimFloat.add (cacheWrite total) (cacheWrite u);
     cost := PrimFloat.add (cost total) (cost u);
     contextTokens := contextTokens total;
     turns := PrimFloat.add (turns total) (turns u) |}.

Definition aggregateUsage (results : list SingleResult) : UsageStats :=
  fold_left (fun total result => addUsage total (usage result)) results Usage.zero.

Definition countCompletedTasks (results : list SingleResult) : nat :=
  length (List.filter (fun r => negb (isTaskRunning r) && negb (isTaskPending r)) results).

(** *** Skill prompts *)

Record Skill := mkSkill {
  skillName : string;
  skillSource : string;
  filePath : string;
  baseDir : string
}.

Definition describeSkill (s : Skill) : string :=
  skillName s ++ " (" ++ skillSource s ++ ")".

(** [formatAvailableSkills]: the listed names and the number left out. *)
Definition formatAvailableSkills (skills : list Skill) (maxItems : nat) : string * nat :=
  match skills with
  | [] => ("none", O)
  | _ =>
      let listed := firstn maxItems skills in
      (join ", " (map describeSkill listed), (length skills - length listed)%nat)
  end.

Definition remainingSuffix (remaining : nat) : string :=
  if (0 <? remaining)%nat
  then ", ... +" ++ numberToString (Z.of_nat remaining) ++ " more"
  else EmptyString.

Definition availableSkillsText (skills : list Skill) (maxItems : nat) : string :=
  let available := formatAvailableSkills skills maxItems in
  "Available skills: " ++ fst available ++ remainingSuffix (snd available).

(** [skillByName.get(name)]: the map is filled in the order of [skills], so
    the last skill of a name is the one kept. *)
Fixpoint skillByName (skills : list Skill) (name : string) : option Skill :=
  match skills with
  | [] => None
  | s :: rest =>
      match skillByName rest name with
      | Some later => Some later
      | None => if String.eqb (skillName s) name then Some s else None
      end
  end.

(** [baseCache]: the message bases built so far in this call, by skill name. *)
Definition BaseCache := list (string * string).

Fixpoint cacheGet (cache : BaseCache) (name : string) : option string :=
  match cache with
  | [] => None
  | (k, v) :: rest => if String.eqb k name then Some v else cacheGet rest name
  end.

Definition cacheSet (cache : BaseCache) (name base : string) : BaseCache :=
  (name, base) :: cache.

Section SkillPrompt.

(** [buildSkillMessageBase] reads the skill file: the message base it
    builds, or the message of the error it throws. The file system is not
    part of the model, so the outcome for each skill is a parameter. *)
Variable buildSkillMessageBase : Skill -> Result string.

Definition buildSubprocessPrompt (item : TaskWorkItem) (skills : list Skill)
    (cache : BaseCache) (skillListLimit : nat) : Result string * BaseCache :=
  if negb (truthyOpt (skill item)) then (Ok (prompt item), cache)
  else
    let name := default EmptyString (skill item) in
    match skillByName skills name with
    | None =>
        (Err ("Unknown skill: " ++ name ++ String LF EmptyString
              ++ availableSkillsText skills skillListLimit), cache)
    | Some skill =>
        let wrap base :=
          base ++ String LF (String LF EmptyString) ++ "---"
          ++ String LF (String LF EmptyString) ++ "User: " ++ prompt item in
        if truthyOpt (cacheGet cache (skillName skill)) then
          (Ok (wrap (default EmptyString (cacheGet cache (skillName skill)))), cache)
        else
          match buildSkillMessageBase skill with
          | Ok base => (Ok (wrap base), cacheSet cache (skillName skill) base)
          | Err message =>
              (Err ("Failed to load skill " ++ quoted (skillName skill) ++ ": " ++ message),
               cache)
          end
    end.

End SkillPrompt.

(** *** Results and event handling *)

Definition createPlaceholderResult (item : TaskWorkItem) (index : option nat)
    (thinking : option ThinkingLevel) (model : option string) (exitCode : Z)
  : SingleResult :=
  {| r_prompt := prompt item;
     r_skill := skill item;
     r_index := index;
     exitCode := exitCode;
     messages := [];
     stderr := EmptyString;
     usage := Usage.zero;
     r_model := model;
     r_thinking := thinking;
     r_fork := Some (fork item);
     stopReason := None;
     errorMessage := None |}.

(** The default of the last parameter of [createPlaceholderResult]. *)
Definition RUNNING : Z := -1.
Definition PENDING : Z := -2.

(** How a call ends: it returns, or it throws an exception. Either way
    [a] is the state that it leaves behind. *)
Inductive Completion (A : Type) :=
| Returns (a : A)
| Throws (a : A).
Arguments Returns {A} a.
Arguments Throws {A} a.

Section Events.

(** [JSON.parse]: the value of a line, or [None] where it throws. *)
Variable JSON_parse : string -> option Value.

Definition parseJsonLine (line : string) : option Value :=
  if negb (truthy (trim line)) then None
  else
    match JSON_parse line with
    | Some parsed => if isRecord parsed then Some parsed else None
    | None => None
    end.

Definition isMessage (value : Value) : bool :=
  if negb (isRecord value) then false
  else roleIs value "assistant" || roleIs value "user" || roleIs value "toolResult".

Definition setUsage (result : SingleResult) (u : UsageStats) : SingleResult :=
  {| r_prompt := r_prompt result; r_skill := r_skill result; exitCode := exitCode result;
     messages := messages result; stderr := stderr result; usage := u;
     r_model := r_model result; r_thinking := r_thinking result; r_fork := r_fork result;
     stopReason := stopReason result; errorMessage := errorMessage result;
     r_index := r_index result |}.

(** [result.usage.turns += 1], the first statement of [applyAssistantUsage]. *)
Definition countTurn (result : SingleResult) : SingleResult :=
  let u := usage result in
  setUsage result
    {| turns := PrimFloat.add (turns u) 1;
       input := input u; output := output u; cacheRead := cacheRead u;
       cacheWrite := cacheWrite u; cost := cost u; contextTokens := contextTokens u |}.

(** The message has no usage object to read from: [message.usage] is
    [undefined] or [null], and reading a property of either throws a
    TypeError. Any other value has properties to read. *)
Definition usageMissing (message : Value) : bool :=
  match get message "usage" with
  | Undefined | Null => true
  | _ => false
  end.

(** [applyAssistantUsage] counts the turn and then reads [usage.input]:
    without a usage object it throws there, with the turn counted and
    nothing else done. *)
Definition applyAssistantUsage (result : SingleResult) (message : Value)
  : Completion SingleResult :=
  let result := countTurn result in
  if usageMissing message then Throws result
  else
    let u := usage result in
    let usage := get message "usage" in
    Returns
      (setUsage result
         {| turns := turns u;
            input := PrimFloat.add (input u) (numberOrZero (get usage "input"));
            output := PrimFloat.add (output u) (numberOrZero (get usage "output"));
            cacheRead := PrimFloat.add (cacheRead u) (numberOrZero (get usage "cacheRead"));
            cacheWrite := PrimFloat.add (cacheWrite u) (numberOrZero (get usage "cacheWrite"));
            cost := PrimFloat.add (cost u) (numberOrZero (get (get usage "cost") "total"));
            contextTokens := numberOrZero (get usage "totalTokens") |}).

Definition pushMessage (result : SingleResult) (message : Value) : SingleResult :=
  {| r_prompt := r_prompt result; r_skill := r_skill result; exitCode := exitCode result;
     messages := (messages result ++ [message])%list; stderr := stderr result;
     usage := usage result;
     r_model := r_model result; r_thinking := r_thinking result; r_fork := r_fork result;
     stopReason := stopReason result; errorMessage := errorMessage result;
     r_index := r_index result |}.

Definition setModel (result : SingleResult) (model : option string) : SingleResult :=
  {| r_prompt := r_prompt result; r_skill := r_skill result; exitCode := exitCode result;
     messages := messages result; stderr := stderr result; usage := usage result;
     r_model := model; r_thinking := r_thinking result; r_fork := r_fork result;
     stopReason := stopReason result; errorMessage := errorMessage result;
     r_index := r_index result |}.

Definition setStopReason (result : SingleResult) (reason : option string) : SingleResult :=
  {| r_prompt := r_prompt result; r_skill := r_skill result; exitCode := exitCode result;
     messages := messages result; stderr := stderr result; usage := usage result;
     r_model := r_model result; r_thinking := r_thinking result; r_fork := r_fork result;
     stopReason := reason; errorMessage := errorMessage result;
     r_index := r_index result |}.

Definition setErrorMessage (result : SingleResult) (message : option string) : SingleResult :=
  {| r_prompt := r_prompt result; r_skill := r_skill result; exitCode := exitCode result;
     messages := messages result; stderr := stderr result; usage := usage result;
     r_model := r_model result; r_thinking := r_thinking result; r_fork := r_fork result;
     stopReason := stopReason result; errorMessage := message;
     r_index := r_index result |}.

Definition setExitCode (result : SingleResult) (code : Z) : SingleResult :=
  {| r_prompt := r_prompt result; r_skill := r_skill result; exitCode := code;
     messages := messages result; stderr := stderr result; usage := usage result;
     r_model := r_model result; r_thinking := r_thinking result; r_fork := r_fork result;
     stopReason := stopReason result; errorMessage := errorMessage result;
     r_index := r_index result |}.

Definition appendStderr (result : SingleResult) (data : string) : SingleResult :=
  {| r_prompt := r_prompt result; r_skill := r_skill result; exitCode := exitCode result;
     messages := messages result; stderr := stderr result ++ data; usage := usage result;
     r_model := r_model result; r_thinking := r_thinking result; r_fork := r_fork result;
     stopReason := stopReason result; errorMessage := errorMessage result;
     r_index := r_index result |}.

(** The statements of [handleEventMessage] after the call of
    [applyAssistantUsage]. *)
Definition recordFields (result : SingleResult) (message : Value) : SingleResult :=
  let result :=
    if negb (truthyOpt (r_model result)) && truthyOpt (stringField message "model")
    then setModel result (stringField message "model") else result in
  let result :=
    if truthyOpt (stringField message "stopReason")
    then setStopReason result (stringField message "stopReason") else result in
  if truthyOpt (stringField message "errorMessage")
  then setErrorMessage result (stringField message "errorMessage") else result.

(** [handleEventMessage] logs the message first. When [applyAssistantUsage]
    throws, the exception passes through: the message is logged and the turn
    counted, and the model, the stop reason and the error message of the
    message are not recorded. *)
Definition handleEventMessage (result : SingleResult) (message : Value)
  : Completion SingleResult :=
  let result := pushMessage result message in
  if negb (roleIs message "assistant") then Returns result
  else
    match applyAssistantUsage result message with
    | Throws result => Throws result
    | Returns result => Returns (recordFields result message)
    end.

(** The test of [processLine]: the message of an event line that is
    accepted, [None] for a line that is skipped. *)
Definition acceptedMessage (line : string) : option Value :=
  match parseJsonLine line with
  | None => None
  | Some event =>
      let typeText := match get event "type" with Str t => t | _ => EmptyString end in
      let messageValue := get event "message" in
      if (String.eqb typeText "message_end" || String.eqb typeText "tool_result_end")
         && isMessage messageValue
      then Some messageValue else None
  end.

(** What the promise body of [runSingleTask] holds while the process runs:
    the result being filled, the text buffered from stdout, the flag of
    [attachAbortSignal], the results passed to [onResultUpdate], the value
    that the promise was resolved with, if it was, and the number of
    exceptions that have left a listener. No listener catches an exception:
    it ends the call of the listener and goes to the runtime of the host.
    The host is taken to go on after it, with the listeners attached; of a
    host that stops there nothing more is to be said. *)
Record Runner := mkRunner {
  currentResult : SingleResult;
  buffer : string;
  aborted : bool;
  emitted : list SingleResult;
  resolved : option Z;
  uncaught : nat
}.

Definition withResult (st : Runner) (result : SingleResult) : Runner :=
  mkRunner result (buffer st) (aborted st) (emitted st) (resolved st) (uncaught st).

(** [processLine]: [emitUpdate] is called when [handleEventMessage] has
    returned, and not when it has thrown. *)
Definition processLine (st : Runner) (line : string) : Completion Runner :=
  match acceptedMessage line with
  | None => Returns st
  | Some message =>
      match handleEventMessage (currentResult st) message with
      | Returns result =>
          Returns (mkRunner result (buffer st) (aborted st) (emitted st ++ [result])%list
                     (resolved st) (uncaught st))
      | Throws result => Throws (withResult st result)
      end
  end.

(** [for (const line of lines) processLine(line)]: the loop ends at the
    first line on which [processLine] throws. *)
Fixpoint processLines (st : Runner) (lines : list string) : Completion Runner :=
  match lines with
  | [] => Returns st
  | line :: rest =>
      match processLine st line with
      | Returns st' => processLines st' rest
      | Throws st' => Throws st'
      end
  end.

(** A listener has ended; an exception that it threw has left it. *)
Definition listenerEnds (c : Completion Runner) : Runner :=
  match c with
  | Returns st => st
  | Throws st =>
      mkRunner (currentResult st) (buffer st) (aborted st) (emitted st) (resolved st)
        (S (uncaught st))
  end.

(** What a process does before it ends. [AbortFired] is the abort signal of
    the call being raised; a signal that is already raised when the process
    is spawned is an [AbortFired] at the head of the events. The data of a
    chunk is its text as decoded. *)
Inductive ProcEvent :=
| StdoutData (data : string)
| StderrData (data : string)
| AbortFired.

(** How a process ends. A process that was spawned ends with the close
    event and its code ([None] for [null]). A process that could not be
    spawned ends with the error event, and the close event follows it in a
    later turn of the event loop, with the code that the runtime reports
    for the failure; [closedBeforeReturn] says that this close event is
    delivered before the task returns, which can happen only while the task
    waits for the removal of its fork session. *)
Inductive ProcEnd :=
| Close (code : option Z)
| SpawnError (code : option Z) (closedBeforeReturn : bool).

(** The behaviour of one process. Every process of the model ends. *)
Record Process := mkProcess {
  events : list ProcEvent;
  ending : ProcEnd
}.

(** The listeners of stdout, stderr and the abort signal; without a signal
    no abort listener is attached. The stdout listener sets the buffer to
    the unfinished line before it handles the complete lines. *)
Definition onEvent (hasSignal : bool) (st : Runner) (e : ProcEvent) : Runner :=
  match e with
  | StdoutData data =>
      let lines := splitLines (buffer st ++ data) in
      let st :=
        mkRunner (currentResult st) (List.last lines EmptyString) (aborted st) (emitted st)
          (resolved st) (uncaught st) in
      listenerEnds (processLines st (removelast lines))
  | StderrData data =>
      withResult st (appendStderr (currentResult st) data)
  | AbortFired =>
      if hasSignal
      then mkRunner (currentResult st) (buffer st) true (emitted st) (resolved st)
             (uncaught st)
      else st
  end.

(** [resolve(value)]: only the first call settles the promise. *)
Definition resolve (st : Runner) (value : Z) : Runner :=
  match resolved st with
  | Some _ => st
  | None =>
      mkRunner (currentResult st) (buffer st) (aborted st) (emitted st) (Some value)
        (uncaught st)
  end.

(** The close listener. When the line left in the buffer makes
    [processLine] throw, the listener ends there: the exit code is not
    recorded, the abort is not marked and the promise is not resolved. *)
Definition onClose (st : Runner) (code : option Z) : Runner :=
  match (if truthy (trim (buffer st)) then processLine st (buffer st) else Returns st) with
  | Throws st => listenerEnds (Throws st)
  | Returns st =>
      let result := setExitCode (currentResult st) (default 0 code) in
      let result := if aborted st then setStopReason result (Some "aborted") else result in
      resolve (withResult st result) (default 0 code)
  end.

(** The error listener. *)
Definition onError (st : Runner) : Runner :=
  resolve (withResult st (setExitCode (currentResult st) 1)) 1.

(** The statement after the [await]: it runs once the promise is resolved,
    and assigns the value of the promise to the exit code. *)
Definition resume (st : Runner) : Runner :=
  match resolved st with
  | Some exitCode => withResult st (setExitCode (currentResult st) exitCode)
  | None => st
  end.

(** The listeners after the events of the process. *)
Definition listen (hasSignal : bool) (initial : SingleResult) (p : Process) : Runner :=
  fold_left (onEvent hasSignal) (events p) (mkRunner initial EmptyString false [] None 0).

(** The state in which the task returns; for a task that never returns (its
    promise is never resolved), the state that its listeners leave behind.
    [waits] says that the task has a fork session to remove before it
    returns. *)
Definition runProcess (hasSignal waits : bool) (initial : SingleResult) (p : Process)
  : Runner :=
  let st := listen hasSignal initial p in
  match ending p with
  | Close code => resume (onClose st code)
  | SpawnError code closedBeforeReturn =>
      let st := resume (onError st) in
      if closedBeforeReturn && waits then onClose st code else st
  end.

(** The state once every event of the process has been delivered: the
    result is one object, and whoever holds it sees this state from then on. *)
Definition afterProcess (hasSignal : bool) (initial : SingleResult) (p : Process)
  : Runner :=
  let st := listen hasSignal initial p in
  match ending p with
  | Close code => resume (onClose st code)
  | SpawnError code _ => onClose (resume (onError st)) code
  end.

End Events.

(** *** The concurrency-limited scheduler

    [mapWithConcurrencyLimit] starts [limit] workers. A worker claims the
    next index, calls [fn] on it and awaits the promise; when the promise is
    fulfilled it stores the value and claims again, until the indices are
    used up. JavaScript runs one callback at a time, so a state changes only
    when a promise that a worker awaits is fulfilled: a schedule is the list
    of the workers whose promise is fulfilled next. [fn item index] is the
    value that the promise of [fn(item, index)] is fulfilled with; a promise
    that is rejected is outside the model. *)

Section Scheduler.

Context {TIn TOut : Type}.
Variable items : list TIn.
Variable concurrency : Z.
Variable fn : TIn -> nat -> TOut.

Inductive Worker :=
| Fresh                        (* not called yet *)
| Awaiting (currentIndex : nat) (* awaits fn(items[currentIndex], currentIndex) *)
| Returned.                    (* found no index left *)

Record Sched := mkSched {
  nextIndex : nat;
  results : list (option TOut);
  workers : list Worker;
  started : list nat;          (* the indices fn was called on, in order *)
  settled : list nat           (* the indices whose value was stored, in order *)
}.

Definition limit : nat :=
  Z.to_nat (Z.max 1 (Z.min concurrency (Z.of_nat (length items)))).

(** One call of [runWorker] by worker [w], up to its first [await]. *)
Definition runWorker (w : nat) (st : Sched) : Sched :=
  let currentIndex := nextIndex st in
  match items !! currentIndex with
  | None =>
      mkSched (S currentIndex) (results st) (<[w := Returned]> (workers st))
        (started st) (settled st)
  | Some _ =>
      mkSched (S currentIndex) (results st) (<[w := Awaiting currentIndex]> (workers st))
        (started st ++ [currentIndex]) (settled st)
  end.

(** The promise that worker [w] awaits is fulfilled: the value is stored at
    the claimed index and the worker calls [runWorker] again. A worker that
    awaits nothing is left as it is. *)
Definition settle (st : Sched) (w : nat) : Sched :=
  match workers st !! w with
  | Some (Awaiting i) =>
      match items !! i with
      | Some item =>
          runWorker w
            (mkSched (nextIndex st) (<[i := Some (fn item i)]> (results st)) (workers st)
               (started st) (settled st ++ [i]))
      | None => st
      end
  | _ => st
  end.

(** The state after [Promise.all] has called every worker once. *)
Definition startWorkers : Sched :=
  fold_left (fun st w => runWorker w st) (seq 0 limit)
    (mkSched 0 (replicate (length items) None) (replicate limit Fresh) [] []).

Definition runSchedule (schedule : list nat) : Sched :=
  fold_left settle schedule startWorkers.

Definition isAwaiting (w : Worker) : bool :=
  match w with Awaiting _ => true | _ => false end.

Definition isReturned (w : Worker) : bool :=
  match w with Returned => true | _ => false end.

(** The number of tasks in flight: the workers that await a promise. *)
Definition inFlight (st : Sched) : nat :=
  length (List.filter isAwaiting (workers st)).

(** Every worker has returned: [Promise.all] is fulfilled. *)
Definition allReturned (st : Sched) : bool :=
  forallb isReturned (workers st).

(** The value of [mapWithConcurrencyLimit] under a schedule: the results
    array ([None] marks a slot that was never written), or [None] when the
    schedule leaves a worker awaiting. *)
Definition mapWithConcurrencyLimit (schedule : list nat) : option (list (option TOut)) :=
  if (length items =? 0)%nat then Some []
  else
    let st := runSchedule schedule in
    if allReturned st then Some (results st) else None.

End Scheduler.

(** *** Running one task *)

Record ForkSession := mkForkSession {
  dir : string;
  seedPath : string
}.

Definition applyForkSessionArgs (baseArgs : list string) (session : option ForkSession)
  : list string :=
  match session with
  | None => baseArgs
  | Some s =>
      (List.filter (fun arg => negb (String.eqb arg "--no-session")) baseArgs
       ++ ["--session"; seedPath s; "--session-dir"; dir s])%list
  end.

(** What lies outside the program: the JSON parser of the runtime, the file
    system behind the skill files and the fork sessions, and the processes.
    A fork session and a process are told apart by the index of their task. *)
Record World := mkWorld {
  JSON_parse : string -> option Value;
  buildSkillMessageBase : Skill -> Result string;
  createForkSession : option nat -> string -> Result ForkSession;
  spawn : option nat -> list string -> Process
}.

Record RunOptions := mkRunOptions {
  o_item : TaskWorkItem;
  o_subprocessPrompt : string;
  o_index : option nat;
  o_subprocessArgs : list string;
  o_modelLabel : option string;
  o_thinking : ThinkingLevel;
  o_fork : bool;
  o_sessionFile : option string;
  o_signal : bool
}.

(** What one call of [runSingleTask] leaves behind: the result object in
    the state in which the task returns it, the results it passed to
    [onResultUpdate] until then, and the argument vector of the process it
    spawned, if it spawned one. [taskReturns] says that the task returns: it does
    not when its promise is never resolved, and [result] is then the state
    that the listeners leave behind. [afterwards] is the result object once
    every event of the process has been delivered, and [escaped] the number
    of exceptions that left a listener. *)
Record RunOutcome := mkRunOutcome {
  result : SingleResult;
  partials : list SingleResult;
  spawnedArgs : option (list string);
  taskReturns : bool;
  afterwards : SingleResult;
  escaped : nat
}.

Definition failedBeforeSpawn (initial : SingleResult) (message : string) : RunOutcome :=
  let result := setErrorMessage (setExitCode initial 1) (Some message) in
  mkRunOutcome result [] None true result 0.

Definition isResolved (st : Runner) : bool :=
  match resolved st with Some _ => true | None => false end.

Definition runSingleTask (w : World) (options : RunOptions) : RunOutcome :=
  let currentResult :=
    {| r_prompt := prompt (o_item options);
       r_skill := skill (o_item options);
       r_index := o_index options;
       exitCode := -1;
       messages := [];
       stderr := EmptyString;
       usage := Usage.zero;
       r_model := o_modelLabel options;
       r_thinking := Some (o_thinking options);
       r_fork := Some (o_fork options);
       stopReason := None;
       errorMessage := None |} in
  let run (forkSession : option ForkSession) :=
    let args :=
      (applyForkSessionArgs (o_subprocessArgs options) forkSession
       ++ [o_subprocessPrompt options])%list in
    let waits := match forkSession with Some _ => true | None => false end in
    let proc := spawn w (o_index options) args in
    let st := runProcess (JSON_parse w) (o_signal options) waits currentResult proc in
    let final := afterProcess (JSON_parse w) (o_signal options) currentResult proc in
    mkRunOutcome (Extension.currentResult st) (emitted st) (Some args) (isResolved st)
      (Extension.currentResult final) (uncaught final) in
  if o_fork options then
    if negb (truthyOpt (o_sessionFile options)) then
      failedBeforeSpawn currentResult "Forked tasks require a persisted session file."
    else
      match createForkSession w (o_index options)
              (default EmptyString (o_sessionFile options)) with
      | Err message => failedBeforeSpawn currentResult message
      | Ok session => run (Some session)
      end
  else run None.

(** *** Preparing the executions of single and parallel mode *)

Record PreparedExecution := mkPrepared {
  p_item : TaskWorkItem;
  p_subprocessPrompt : string;
  p_config : ResolvedTaskConfig
}.

(** What the call reads from its context and its options. *)
Record Env := mkEnv {
  skills : list Skill;
  envInheritedThinking : ThinkingLevel;
  activeTools : list string;
  envCtxModel : option CtxModel;
  sessionFileOfSession : option string;
  hasOnUpdate : bool;
  hasSignal : bool;
  envMaxParallelTasks : Z;
  maxConcurrency : Z;
  skillListLimit : nat
}.

Definition configOptionsFor (env : Env) (n : NormalizedParams) (item : TaskWorkItem)
  : ConfigOptions :=
  mkConfigOptions item (sharedModel n) (sharedThinking n) (envInheritedThinking env)
    (envCtxModel env) (getBuiltInToolsFromActiveTools (activeTools env)).

(** The loop of [prepareTaskExecutions]; [executions] are those pushed so far. *)
Fixpoint prepareFrom (w : World) (env : Env) (n : NormalizedParams)
    (remaining : list TaskWorkItem) (cache : BaseCache)
    (executions : list PreparedExecution) : Result (list PreparedExecution) :=
  match remaining with
  | [] => Ok executions
  | item :: rest =>
      match buildSubprocessPrompt (buildSkillMessageBase w) item (skills env) cache
              (skillListLimit env) with
      | (Err e, _) => Err e
      | (Ok prepared, cache') =>
          match resolveTaskConfig (configOptionsFor env n item) with
          | Err e => Err e
          | Ok config =>
              prepareFrom w env n rest cache'
                (executions ++ [mkPrepared item prepared config])%list
          end
      end
  end.

Definition prepareTaskExecutions (w : World) (env : Env) (n : NormalizedParams)
  : Result (list PreparedExecution) :=
  prepareFrom w env n (items n) [] [].

Definition runOptionsFor (env : Env) (sessionFile : option string)
    (e : PreparedExecution) (index : option nat) : RunOptions :=
  mkRunOptions (p_item e) (p_subprocessPrompt e) index (subprocessArgs (p_config e))
    (modelLabel (p_config e)) (thinkingLevel (p_config e)) (fork (p_item e))
    sessionFile (hasSignal env).

(** *** The tool call *)

Record TaskToolDetails := mkDetails {
  d_mode : Mode;
  modelOverride : option string;
  d_results : list SingleResult
}.

(** A value returned by [execute] or passed to [onUpdate]. *)
Record ToolResult := mkToolResult {
  text : string;
  details : TaskToolDetails;
  isError : bool
}.

(** What a call of [execute] does: the value it returns ([None] when it does
    not return one), the index of each call of [runSingleTask] it made, the
    argument vectors of the processes it spawned, and the values it passed
    to [onUpdate], each in order. *)
Record Execution := mkExecution {
  returned : option ToolResult;
  ran : list (option nat);
  spawned : list (list string);
  updates : list ToolResult
}.

Definition spawnedBy (o : RunOutcome) : list (list string) :=
  match spawnedArgs o with Some args => [args] | None => [] end.

Definition withPrompt (item : TaskWorkItem) (prompt : string) : TaskWorkItem :=
  mkItem prompt (skill item) (model item) (thinking item) (fork item).

Definition emit (env : Env) (update : ToolResult) : list ToolResult :=
  if hasOnUpdate env then [update] else [].

Section Chain.

Variable w : World.
Variable env : Env.
Variable n : NormalizedParams.
Variable sessionFile : option string.

Definition makeDetails (results : list SingleResult) : TaskToolDetails :=
  mkDetails (mode n) (sharedModel n) results.

(** The updates of [chainUpdate], one for each partial result of the step at
    [index]; [results] is the array with the partial result stored. *)
Definition chainUpdates (results : list SingleResult) (index : nat)
    (partials : list SingleResult) : list ToolResult :=
  flat_map (fun partial =>
    emit env (mkToolResult (orElse (getFinalOutput (messages partial)) "(running...)")
                (makeDetails (<[index := partial]> results)) false)) partials.

(** The loop of chain mode from the step at [index] on. The loop awaits
    each step: when a step never returns, the call does not return either,
    and the updates sent until then are all there is. *)
Fixpoint chainFrom (remaining : list TaskWorkItem) (index : nat)
    (results : list SingleResult) (previousOutput : string) (cache : BaseCache)
    (ran : list (option nat)) (spawned : list (list string))
    (updates : list ToolResult) : Execution :=
  match remaining with
  | [] =>
      match List.last (map Some results) None with
      | Some last =>
          mkExecution
            (Some (mkToolResult (orElse (getFinalOutput (messages last)) "(no output)")
                     (makeDetails results) false))
            ran spawned updates
      | None => mkExecution None ran spawned updates
      end
  | item :: rest =>
      let prompt := buildChainPrompt (prompt item) previousOutput in
      let stepItem := withPrompt item prompt in
      match resolveTaskConfig (configOptionsFor env n item) with
      | Err e =>
          mkExecution (Some (mkToolResult e (makeDetails results) false)) ran spawned updates
      | Ok config =>
          match buildSubprocessPrompt (buildSkillMessageBase w) stepItem (skills env) cache
                  (skillListLimit env) with
          | (Err e, _) =>
              mkExecution (Some (mkToolResult e (makeDetails results) false)) ran spawned updates
          | (Ok preparedPrompt, cache') =>
              let results :=
                <[index := createPlaceholderResult stepItem (Some (S index))
                             (Some (thinkingLevel config)) (modelLabel config) RUNNING]>
                  results in
              let updates :=
                (updates ++ emit env (mkToolResult "(running...)" (makeDetails results) false))%list in
              let outcome :=
                runSingleTask w
                  (mkRunOptions stepItem preparedPrompt (Some (S index))
                     (subprocessArgs config) (modelLabel config) (thinkingLevel config)
                     (fork stepItem) sessionFile (hasSignal env)) in
              let updates :=
                (updates ++ (if hasOnUpdate env
                             then chainUpdates results index (partials outcome) else []))%list in
              if negb (taskReturns outcome) then
                mkExecution None (ran ++ [Some (S index)])%list
                  (spawned ++ spawnedBy outcome)%list updates
              else
                let results := <[index := result outcome]> results in
                let updates :=
                  (updates ++ emit env
                     (mkToolResult (orElse (getFinalOutput (messages (result outcome))) "(no output)")
                        (makeDetails results) false))%list in
                let ran := (ran ++ [Some (S index)])%list in
                let spawned := (spawned ++ spawnedBy outcome)%list in
                if isTaskError (result outcome) then
                  mkExecution
                    (Some (mkToolResult
                             ("Chain stopped at step " ++ numberToString (Z.of_nat (S index))
                              ++ ": " ++ getTaskErrorText (result outcome))
                             (makeDetails results) true))
                    ran spawned updates
                else
                  chainFrom rest (S index) results (getFinalOutput (messages (result outcome)))
                    cache' ran spawned updates
          end
      end
  end.

(** The placeholders of chain mode: every step pending, its prompt with the
    token shown as an ellipsis. *)
Definition chainPlaceholders : list SingleResult :=
  imap (fun index item =>
          createPlaceholderResult (withPrompt item (buildPendingPrompt (prompt item)))
            (Some (S index)) None None PENDING) (items n).

Definition executeChain : Execution :=
  chainFrom (items n) 0 chainPlaceholders EmptyString [] [] [] [].

End Chain.

Section Modes.

Variable w : World.
Variable env : Env.
Variable n : NormalizedParams.
Variable sessionFile : option string.

(** Single mode. A task that never returns leaves the call waiting. *)
Definition executeSingle : Execution :=
  match prepareTaskExecutions w env n with
  | Err e => mkExecution (Some (mkToolResult e (makeDetails n []) false)) [] [] []
  | Ok executions =>
      match executions with
      | [] => mkExecution None [] [] []
      | execution :: _ =>
          let emitSingleUpdate (result : SingleResult) :=
            emit env (mkToolResult (orElse (getFinalOutput (messages result)) "(running...)")
                        (makeDetails n [result]) false) in
          let initial :=
            createPlaceholderResult (p_item execution) None
              (Some (thinkingLevel (p_config execution))) (modelLabel (p_config execution))
              RUNNING in
          let outcome := runSingleTask w (runOptionsFor env sessionFile execution None) in
          let updates :=
            (emitSingleUpdate initial ++ flat_map emitSingleUpdate (partials outcome))%list in
          let result := result outcome in
          if negb (taskReturns outcome) then
            mkExecution None [None] (spawnedBy outcome) updates
          else if isTaskError result then
            mkExecution
              (Some (mkToolResult ("Task failed: " ++ getTaskErrorText result)
                       (makeDetails n [result]) false))
              [None] (spawnedBy outcome) updates
          else
            mkExecution
              (Some (mkToolResult (orElse (getFinalOutput (messages result)) "(no output)")
                       (makeDetails n [result]) false))
              [None] (spawnedBy outcome) updates
      end
  end.

(** Parallel mode. *)

Definition getTaskSkillLabel (result : SingleResult) : option string :=
  match r_skill result with
  | Some s => if truthy (trim s) then Some (trim s) else None
  | None => None
  end.

Definition getTaskSummaryLabel (result : SingleResult) : string :=
  match getTaskSkillLabel result with
  | Some skillLabel => skillLabel
  | None =>
      match r_index result with
      | Some (S i) => "task " ++ numberToString (Z.of_nat (S i))
      | _ => "task"
      end
  end.

(** The counts that [emitParallelUpdate] reports. *)
Definition shownRunning (allResults : list SingleResult) : nat :=
  length (List.filter (fun r => exitCode r =? -1) allResults).

Definition shownDone (allResults : list SingleResult) : nat :=
  length (List.filter (fun r => negb (exitCode r =? -1)) allResults).

Definition parallelUpdate (allResults : list SingleResult) : ToolResult :=
  mkToolResult
    ("Parallel: " ++ numberToString (Z.of_nat (shownDone allResults)) ++ "/"
     ++ numberToString (Z.of_nat (length allResults)) ++ " done, "
     ++ numberToString (Z.of_nat (shownRunning allResults)) ++ " running...")
    (makeDetails n allResults) false.

Definition emitParallelUpdate (allResults : list SingleResult) : list ToolResult :=
  emit env (parallelUpdate allResults).

Definition parallelPlaceholders (executions : list PreparedExecution) : list SingleResult :=
  imap (fun index execution =>
          createPlaceholderResult (p_item execution) (Some (S index))
            (Some (thinkingLevel (p_config execution))) (modelLabel (p_config execution))
            RUNNING) executions.

(** The task function handed to the scheduler. The schedule of a run names
    the workers in the order in which their tasks return, so a task that
    never returns is named by no schedule of a run. *)
Definition parallelTask (execution : PreparedExecution) (index : nat) : RunOutcome :=
  runSingleTask w (runOptionsFor env sessionFile execution (Some (S index))).

(** The effect of the task at [index] on [allResults] and on the updates.
    The events of one task are delivered together, when the task settles;
    the order across tasks is that of the schedule. *)
Definition settleParallel (executions : list PreparedExecution)
    (acc : list SingleResult * list ToolResult) (index : nat)
  : list SingleResult * list ToolResult :=
  match executions !! index with
  | None => acc
  | Some execution =>
      let outcome := parallelTask execution index in
      let allResults := fst acc in
      let fromPartials :=
        flat_map (fun partial => emitParallelUpdate (<[index := partial]> allResults))
          (partials outcome) in
      let allResults := <[index := result outcome]> allResults in
      (allResults, (snd acc ++ fromPartials ++ emitParallelUpdate allResults)%list)
  end.

Definition preview (output : string) : string :=
  slice output 0 100 ++ (if (100 <? String.length output)%nat then "..." else EmptyString).

Definition summary (result : SingleResult) : string :=
  "[" ++ getTaskSummaryLabel result ++ "] "
  ++ (if isTaskError result then "failed" else "completed") ++ ": "
  ++ orElse (preview (getFinalOutput (messages result))) "(no output)".

Definition twoLF : string := String LF (String LF EmptyString).

Definition executeParallel (schedule : list nat) : Execution :=
  match prepareTaskExecutions w env n with
  | Err e => mkExecution (Some (mkToolResult e (makeDetails n []) false)) [] [] []
  | Ok executions =>
      let allResults := parallelPlaceholders executions in
      let first := emitParallelUpdate allResults in
      let st := runSchedule executions (maxConcurrency env) parallelTask schedule in
      let spawned :=
        flat_map (fun index =>
                    match executions !! index with
                    | Some execution => spawnedBy (parallelTask execution index)
                    | None => []
                    end) (started st) in
      let ran := map (fun index => Some (S index)) (started st) in
      let updates :=
        snd (fold_left (settleParallel executions) (settled st) (allResults, first)) in
      match mapWithConcurrencyLimit executions (maxConcurrency env) parallelTask schedule with
      | None => mkExecution None ran spawned updates
      | Some slots =>
          match mapM (option_map result) slots with
          | None => mkExecution None ran spawned updates
          | Some results =>
              let successCount :=
                length (List.filter (fun r => negb (isTaskError r)) results) in
              mkExecution
                (Some (mkToolResult
                         ("Parallel: " ++ numberToString (Z.of_nat successCount) ++ "/"
                          ++ numberToString (Z.of_nat (length results)) ++ " succeeded"
                          ++ twoLF ++ join twoLF (map summary results))
                         (makeDetails n results) false))
                ran spawned updates
          end
      end
  end.

End Modes.

(** [execute]. The schedule orders the tasks of parallel mode; the other
    modes do not read it. *)
Definition execute (w : World) (env : Env) (params : Value) (schedule : list nat)
  : Execution :=
  match normalizeTaskParams params (mkOptions (envMaxParallelTasks env)) with
  | Err e =>
      mkExecution
        (Some (mkToolResult
                 (e ++ String LF EmptyString
                  ++ availableSkillsText (skills env) (skillListLimit env))
                 (mkDetails single None []) false))
        [] [] []
  | Ok n =>
      let requiresFork := existsb fork (items n) in
      let sessionFile := if requiresFork then sessionFileOfSession env else None in
      if requiresFork && negb (truthyOpt sessionFile) then
        mkExecution
          (Some (mkToolResult
                   "Forked tasks require a persisted session file. Set fork: false or start pi with sessions enabled."
                   (makeDetails n []) false))
          [] [] []
      else
        match mode n with
        | single => executeSingle w env n sessionFile
        | chain => executeChain w env n sessionFile
        | parallel => executeParallel w env n sessionFile schedule
        end
  end.

(** *** The status and the text shown for results *)

(** [OverallStatus] is [TaskStatus] without [Pending]. *)
Definition getParallelStatus (results : list SingleResult) : TaskStatus :=
  let hasRunning := existsb isTaskRunning results in
  if hasRunning then Running
  else if existsb isTaskError results then Failed else Done.

Definition getChainStatus (results : list SingleResult) : TaskStatus :=
  let hasError := existsb isTaskError results in
  if hasError then Failed
  else
    let hasInProgress :=
      existsb (fun result => isTaskRunning result || isTaskPending result) results in
    if hasInProgress then Running else Done.

Definition getTaskOutputText (result : SingleResult) : string :=
  if isTaskError result then getTaskErrorText result
  else getFinalOutput (messages result).

Definition formatFinalOutputText (result : SingleResult) : string :=
  let output := trim (getTaskOutputText result) in
  if truthy output then output else "(no output)".

(** *** Skill files *)

Definition CR : ascii := "013"%char.

(** [content.replace(/\r\n/g, "\n")] *)
Fixpoint replaceCRLF (s : string) : string :=
  match s with
  | EmptyString => EmptyString
  | String c rest =>
      if Ascii.eqb c CR then
        match rest with
        | EmptyString => String c EmptyString
        | String d rest' =>
            if Ascii.eqb d LF then String LF (replaceCRLF rest')
            else String c (replaceCRLF rest)
        end
      else String c (replaceCRLF rest)
  end.

(** [s.replace(/\r/g, "\n")] *)
Fixpoint replaceCR (s : string) : string :=
  match s with
  | EmptyString => EmptyString
  | String c rest => String (if Ascii.eqb c CR then LF else c) (replaceCR rest)
  end.

(** The [normalized] text of [stripYamlFrontmatter]. *)
Definition normalizeNewlines (content : string) : string :=
  replaceCR (replaceCRLF content).

Definition openingFence : string := "---" ++ String LF EmptyString.
Definition closingFence : string := String LF ("---" ++ String LF EmptyString).

(** The text after the first occurrence of the closing fence: what follows
    the shortest match of [[\s\S]*?\n---\n]. *)
Fixpoint afterClosingFence (s : string) : option string :=
  match s with
  | EmptyString => None
  | String _ rest =>
      if String.prefix closingFence s
      then Some (sliceFrom s (String.length closingFence))
      else afterClosingFence rest
  end.

(** [normalized.replace(/^---\n[\s\S]*?\n---\n/, "")]: the pattern matches
    at the start of the text only, and its match is replaced by nothing. *)
Definition removeFrontmatter (normalized : string) : string :=
  if String.prefix openingFence normalized then
    match afterClosingFence (sliceFrom normalized (String.length openingFence)) with
    | Some rest => rest
    | None => normalized
    end
  else normalized.

Definition stripYamlFrontmatter (content : string) : string :=
  trim (removeFrontmatter (normalizeNewlines content)).

(** [buildSkillMessageBase] over the file system: [readFileSync path] is the
    content of the file, or the message of the error it throws. *)
Definition buildSkillMessageBaseFrom (readFileSync : string -> Result string)
    (skill : Skill) : Result string :=
  match readFileSync (filePath skill) with
  | Err message => Err message
  | Ok content =>
      let body := stripYamlFrontmatter content in
      let header :=
        "Skill location: " ++ filePath skill ++ String LF EmptyString
        ++ "References are relative to " ++ baseDir skill ++ "." in
      Ok (header ++ String LF (String LF EmptyString) ++ body)
  end.

(** *** Indented text *)

(** [" ".repeat(indent)] *)
Fixpoint spaces (indent : nat) : string :=
  match indent with
  | O => EmptyString
  | S k => String " " (spaces k)
  end.

Definition indentLine (text : string) (indent : nat) : string :=
  spaces indent ++ text.

Definition indentText (text : string) (indent : nat) : string :=
  join (String LF EmptyString) (map (fun line => indentLine line indent) (splitLines text)).

Definition formatSection (label body : string) (indent : nat) : string :=
  indentLine (label ++ ":") indent ++ String LF EmptyString ++ indentText body (indent + 2).

End Extension.

(** ** Vocabulary of the statements *)

Module Spec.
Import Js TaskParams TaskConfig Usage Extension.

(** A string of white space only; the empty string is one. *)
Fixpoint allWhiteSpace (s : string) : bool :=
  match s with
  | EmptyString => true
  | String c s' => isWhiteSpace c && allWhiteSpace s'
  end.

(** A character occurs in a string. *)
Fixpoint occurs (c : ascii) (s : string) : bool :=
  match s with
  | EmptyString => false
  | String d s' => Ascii.eqb c d || occurs c s'
  end.

(** Two values that read the same, as records, at every property but [k]. *)
Definition sameExcept (k : string) (a b : Value) : Prop :=
  isRecord a = isRecord b /\ forall k', k' <> k -> get a k' = get b k'.

(** The number of entries of the [tasks] field of a request; a field that
    is not an array counts as no entries. *)
Definition tasksLength (params : Value) : Z :=
  match get params "tasks" with
  | Arr l => Z.of_nat (length l)
  | _ => 0
  end.

(** The messages of [normalizeTaskParams] about the number of tasks. *)
Definition singleCountError : string :=
  "Invalid parameters: type=" ++ quoted "single"
  ++ " requires exactly one task in " ++ quoted "tasks" ++ ".".

Definition emptyCountError (mode : string) : string :=
  "Invalid parameters: type=" ++ quoted mode
  ++ " requires a non-empty " ++ quoted "tasks" ++ " array.".

Definition tooManyError (mode : string) (len max : Z) : string :=
  "Too many " ++ mode ++ " tasks (" ++ numberToString len ++ "). Max is "
  ++ numberToString max ++ ".".

(** The message about the number of tasks that a request of the given type,
    length and maximum is owed, if its length is out of bounds. *)
Definition countError (mode : string) (len max : Z) : option string :=
  if String.eqb mode "single" then
    if len =? 1 then None else Some singleCountError
  else if String.eqb mode "parallel" || String.eqb mode "chain" then
    if len =? 0 then Some (emptyCountError mode)
    else if len >? max then Some (tooManyError mode len max)
    else None
  else None.

(** A model string of the shape provider/modelId, both sides non-empty: the
    provider is the text before the first slash. White space around the
    string does not count. *)
Definition wellFormedModel (s : string) (provider modelId : string) : Prop :=
  trim s = provider ++ "/" ++ modelId
  /\ provider <> EmptyString /\ modelId <> EmptyString
  /\ occurs "/" provider = false.

Definition formatError (s : string) : string :=
  "Invalid model format: " ++ dq ++ s ++ dq ++ ". Expected provider/modelId.".

(** The configuration of a task whose effective model is [m]: the thinking
    level of the item or the shared one, the arguments built from both, and
    the label of the model. *)
Definition configWith (o : ConfigOptions) (m : option ProviderModel) : ResolvedTaskConfig :=
  let level :=
    resolveThinkingLevel (default (defaultThinking o) (thinking (item o)))
      (inheritedThinking o) in
  mkResolved level (buildSubprocessArgs m level (builtInTools o)) (option_map label m).

(** How a task is configured from a model string [s] that was provided for
    it: from its two sides if it has the shape provider/modelId, and by the
    format error if it has not. *)
Definition configuredFrom (o : ConfigOptions) (s : string) : Prop :=
  (forall p m, wellFormedModel s p m ->
     resolveTaskConfig o = Ok (configWith o (Some (mkProviderModel p m (p ++ "/" ++ m)))))
  /\ ((forall p m, ~ wellFormedModel s p m) ->
      resolveTaskConfig o = Err (formatError s)).

(** The model that a task inherits from the session of the caller. *)
Definition inheritedModel (c : option CtxModel) : option ProviderModel :=
  option_map (fun c => mkProviderModel (ctxProvider c) (ctxId c)
                         (ctxProvider c ++ "/" ++ ctxId c)) c.

(** The message of the fork prerequisite check of [execute]. *)
Definition forkPrerequisiteMessage : string :=
  "Forked tasks require a persisted session file. Set fork: false or start pi with sessions enabled.".

(** The item asks for a skill that the call does not know. *)
Definition unknownSkill (env : Env) (item : TaskWorkItem) : Prop :=
  truthyOpt (skill item) = true
  /\ skillByName (skills env) (default EmptyString (skill item)) = None.



(** The field-wise sum of a usage field over a list of results, from the
    left and starting at zero. *)
Definition sumOf (field : UsageStats -> float) (results : list SingleResult) : float :=
  fold_left (fun acc r => PrimFloat.add acc (field (usage r))) results 0%float.

(** The text that the stdout listener has received. *)
Fixpoint stdoutText (events : list ProcEvent) : string :=
  match events with
  | [] => EmptyString
  | StdoutData data :: rest => data ++ stdoutText rest
  | _ :: rest => stdoutText rest
  end.

(** The accepted messages of a list of lines, in order. *)
Definition acceptedMessages (parse : string -> option Value) (lines : list string)
  : list Value :=
  omap (acceptedMessage parse) lines.

(** Replacing every occurrence of the token by a text taken literally. *)
Fixpoint replaceLiteral (s : string) (skip : nat) (replacement : string) : string :=
  match s with
  | EmptyString => EmptyString
  | String c s' =>
      match skip with
      | S k => replaceLiteral s' k replacement
      | O =>
          if String.prefix previousToken s
          then replacement ++ replaceLiteral s' (String.length previousToken - 1) replacement
          else String c (replaceLiteral s' O replacement)
      end
  end.

(** *** The scheduler *)

(** The results array that the scheduler owes: the value of [fn] on every
    item, at the index of the item. *)
Definition expectedResults {TIn TOut : Type} (items : list TIn)
    (fn : TIn -> nat -> TOut) : list (option TOut) :=
  imap (fun i x => Some (fn x i)) items.

(** Every step of the schedule names a worker that awaits a promise. *)
Fixpoint enabled {TIn TOut : Type} (items : list TIn) (fn : TIn -> nat -> TOut)
    (st : Sched) (schedule : list nat) : bool :=
  match schedule with
  | [] => true
  | w :: rest =>
      match workers st !! w with
      | Some (Awaiting _) => enabled items fn (settle items fn st w) rest
      | _ => false
      end
  end.

(** The state in which the promise of worker [w] for index [i] has been
    fulfilled with [v] and stored, before the worker claims again. *)
Definition fulfilled {TOut : Type} (st : @Sched TOut) (w i : nat) (v : TOut) : Sched :=
  mkSched (nextIndex st) (<[i := Some v]> (results st)) (<[w := Fresh]> (workers st))
    (started st) (settled st ++ [i]).

(** Every worker has been called. *)
Definition noFresh {TOut : Type} (st : @Sched TOut) : Prop :=
  forall w, workers st !! w <> Some Fresh.

(** What holds of every state of the scheduler. *)
Record schedInv {TIn TOut : Type} (items : list TIn) (concurrency : Z)
    (fn : TIn -> nat -> TOut) (st : @Sched TOut) : Prop := mkSchedInv {
  inv_results : length (results st) = length items;
  inv_workers : length (workers st) = limit items concurrency;
  inv_started : started st = seq 0 (Nat.min (nextIndex st) (length items));
  inv_awaiting : forall w i, workers st !! w = Some (Awaiting i) ->
    (i < nextIndex st)%nat /\ (i < length items)%nat /\ results st !! i = Some None;
  inv_distinct : forall w w' i, workers st !! w = Some (Awaiting i) ->
    workers st !! w' = Some (Awaiting i) -> w = w';
  inv_slots : forall i v, results st !! i = Some (Some v) ->
    exists x, items !! i = Some x /\ v = fn x i;
  inv_claimed : forall i, (i < Nat.min (nextIndex st) (length items))%nat ->
    results st !! i = Some None -> exists w, workers st !! w = Some (Awaiting i);
  inv_unclaimed : forall i, (nextIndex st <= i)%nat -> (i < length items)%nat ->
    results st !! i = Some None;
  inv_returned : forall w, workers st !! w = Some Returned ->
    (length items < nextIndex st)%nat;
  inv_count : (length (settled st) + inFlight st)%nat
              = Nat.min (nextIndex st) (length items)
}.

(** *** Vocabulary of the further properties *)

(** A string that is empty or starts with a character that is not white
    space. *)
Definition startsClean (s : string) : Prop :=
  match s with
  | EmptyString => True
  | String c _ => isWhiteSpace c = false
  end.


(** A thinking level that a subprocess understands: a valid option other
    than [inherit]. *)
Definition isThinkingLevel (value : string) : bool :=
  existsb (String.eqb value) VALID_THINKING_LEVELS.

(** The text that the stderr listener has received. *)
Fixpoint stderrText (events : list ProcEvent) : string :=
  match events with
  | [] => EmptyString
  | StderrData data :: rest => data ++ stderrText rest
  | _ :: rest => stderrText rest
  end.

Definition isAbortFired (e : ProcEvent) : bool :=
  match e with AbortFired => true | _ => false end.

(** The abort signal of the call was raised while the process ran, and the
    task listened to it. *)
Definition abortFired (hasSignal : bool) (events : list ProcEvent) : bool :=
  hasSignal && existsb isAbortFired events.

(** The message makes [handleEventMessage] throw: it is from the assistant
    and has no usage object. *)
Definition throwsOn (m : Value) : bool :=
  roleIs m "assistant" && usageMissing m.

(** The state that a call leaves, whether it returns or throws. *)
Definition stateOf {A : Type} (c : Completion A) : A :=
  match c with
  | Returns a => a
  | Throws a => a
  end.

(** The state that [handleEventMessage] leaves. *)
Definition handled (r : SingleResult) (m : Value) : SingleResult :=
  stateOf (handleEventMessage r m).

(** A result after the messages [msgs] have been handled, in order. *)
Definition replay (initial : SingleResult) (msgs : list Value) : SingleResult :=
  fold_left handled msgs initial.

(** No message of the log makes [handleEventMessage] throw. *)
Definition noneThrows (msgs : list Value) : bool :=
  forallb (fun m => negb (throwsOn m)) msgs.

(** The line carries a message on which [handleEventMessage] throws. *)
Definition lineThrows (parse : string -> option Value) (line : string) : bool :=
  match acceptedMessage parse line with
  | Some m => throwsOn m
  | None => false
  end.

(** The text that the process printed after its last line feed. *)
Definition lastLine (events : list ProcEvent) : string :=
  List.last (splitLines (stdoutText events)) EmptyString.

(** Every assistant message in the output of a process carries a usage
    object. *)
Definition reportsUsage (parse : string -> option Value) (p : Process) : bool :=
  noneThrows (acceptedMessages parse (splitLines (stdoutText (events p)))).

(** No process of the world ends its output with an unfinished line that
    makes the close listener throw. *)
Definition closesCleanly (w : World) : Prop :=
  forall index args,
    lineThrows (JSON_parse w) (lastLine (events (spawn w index args))) = false.

(** Two results that name the same task. *)
Definition sameTask (a b : SingleResult) : Prop :=
  r_prompt a = r_prompt b /\ r_skill a = r_skill b /\ r_index a = r_index b
  /\ r_fork a = r_fork b /\ r_thinking a = r_thinking b.

(** A result after the process has closed with [code]. *)
Definition closed (r : SingleResult) (code : Z) (aborted : bool) : SingleResult :=
  setExitCode (if aborted then setStopReason r (Some "aborted") else r) code.

(** The string at [field] of an assistant message that has a usage object,
    when it is not empty. *)
Definition assistantField (field : string) (m : Value) : option string :=
  if roleIs m "assistant" && negb (usageMissing m) && truthyOpt (stringField m field)
  then stringField m field else None.

(** The first and the last such string of a list of messages. *)
Fixpoint firstField (field : string) (msgs : list Value) : option string :=
  match msgs with
  | [] => None
  | m :: rest =>
      match assistantField field m with
      | Some s => Some s
      | None => firstField field rest
      end
  end.

Fixpoint lastField (field : string) (msgs : list Value) : option string :=
  match msgs with
  | [] => None
  | m :: rest =>
      match lastField field rest with
      | Some s => Some s
      | None => assistantField field m
      end
  end.

(** The non-empty prefixes of a list, shortest first. *)
Definition prefixes {A : Type} (l : list A) : list (list A) :=
  map (fun k => firstn k l) (seq 1 (length l)).

(** The result that [runSingleTask] starts from. *)
Definition initialResult (options : RunOptions) : SingleResult :=
  {| r_prompt := prompt (o_item options);
     r_skill := skill (o_item options);
     r_index := o_index options;
     exitCode := -1;
     messages := [];
     stderr := EmptyString;
     usage := Usage.zero;
     r_model := o_modelLabel options;
     r_thinking := Some (o_thinking options);
     r_fork := Some (o_fork options);
     stopReason := None;
     errorMessage := None |}.

(** A log that does not end with a message on which [handleEventMessage]
    throws. *)
Definition endsHandled (log : list Value) : bool :=
  match List.last (map Some log) None with
  | Some m => negb (throwsOn m)
  | None => true
  end.

(** One result has been emitted for each message of the log that was
    handled without an exception. *)
Definition emittedInv (st : Runner) : Prop :=
  map messages (emitted st)
  = List.filter endsHandled (prefixes (messages (currentResult st))).

(** The output that step [i] of a chain is given for its [{previous}]
    token: nothing for the first step, and else the final output of the
    step before it. *)
Definition previousOutputAt (results : list SingleResult) (i : nat) : string :=
  match i with
  | O => EmptyString
  | S j =>
      match results !! j with
      | Some r => getFinalOutput (messages r)
      | None => EmptyString
      end
  end.

(** The text that an assistant message contributes as output: that of its
    first text part. *)
Definition assistantText (m : Value) : option string :=
  if roleIs m "assistant" then firstText (contentParts m) else None.

(** The last assistant message of a log that has a usage object. *)
Fixpoint lastWithUsage (msgs : list Value) : option Value :=
  match msgs with
  | [] => None
  | m :: rest =>
      match lastWithUsage rest with
      | Some later => Some later
      | None => if roleIs m "assistant" && negb (usageMissing m) then Some m else None
      end
  end.

(** The number of assistant messages of a log. *)
Definition assistantCount (msgs : list Value) : nat :=
  length (List.filter (fun m => roleIs m "assistant") msgs).

(** The turn counter after [n] more turns. *)
Definition turnsFrom (start : float) (n : nat) : float :=
  Nat.iter n (fun t => PrimFloat.add t 1) start.
End Spec.

(** ** Sample data for the examples *)

Module Samples.
Import Js TaskParams TaskConfig Usage Extension.

Definition resultWithContext : SingleResult :=
  {| r_prompt := "count"; r_skill := None; exitCode := 0; messages := [];
     stderr := EmptyString;
     usage := mkUsage 10 20 0 0 0 1200 1;
     r_model := None; r_thinking := None; r_fork := None;
     stopReason := None; errorMessage := None; r_index := None |}.

(** An assistant message that ends a turn with the given text. *)
Definition assistantMessage (text : string) : Value :=
  Obj [("role", Str "assistant");
       ("content", Arr [Obj [("type", Str "text"); ("text", Str text)]]);
       ("usage", Obj [("input", Num 3); ("output", Num 5)]);
       ("stopReason", Str "stop")].

Definition assistantEvent (text : string) : Value :=
  Obj [("type", Str "message_end"); ("message", assistantMessage text)].

(** An assistant message that reports an error. *)
Definition errorEvent (message : string) : Value :=
  Obj [("type", Str "message_end");
       ("message",
        Obj [("role", Str "assistant"); ("content", Arr []);
             ("usage", Obj []); ("stopReason", Str "error");
             ("errorMessage", Str message)])].

(** A stand-in for the JSON parser on the lines of the examples: a line
    [say:text] is an event that ends an assistant turn with that text, a
    line [fail:text] one that reports an error, a line [[1,2]] is an array,
    and any other line is not JSON. *)
Definition parseLine (line : string) : option Value :=
  if String.prefix "say:" line then Some (assistantEvent (sliceFrom line 4))
  else if String.prefix "fail:" line then Some (errorEvent (sliceFrom line 5))
  else if String.eqb line "[1,2]" then Some (Arr [Num 1; Num 2])
  else None.

Definition nl : string := String LF EmptyString.

(** A process that prints [text] in one line and exits with code 0. *)
Definition says (text : string) : Process :=
  mkProcess [StdoutData ("say:" ++ text ++ nl)] (Close (Some 0)).

(** A process that reports an error and exits with code 1. *)
Definition fails (message : string) : Process :=
  mkProcess [StdoutData ("fail:" ++ message ++ nl)] (Close (Some 1)).

(** A process whose output arrives in three chunks that cut its lines: a
    line, a line that is not JSON, and a last line without a line feed. *)
Definition chunked : Process :=
  mkProcess
    [StdoutData "say:he"; StderrData "warning"; StdoutData ("llo" ++ nl ++ "{corrupt" ++ nl ++ "say:");
     StdoutData "bye"]
    (Close (Some 0)).


Definition blankResult : SingleResult :=
  {| r_prompt := "go"; r_skill := None; exitCode := -1; messages := [];
     stderr := EmptyString; usage := Usage.zero;
     r_model := None; r_thinking := None; r_fork := None;
     stopReason := None; errorMessage := None; r_index := None |}.

(** A world whose processes are given by [spawn]; no skill file can be read,
    and every fork session is created. *)
Definition world (spawn : option nat -> list string -> Process) : World :=
  mkWorld parseLine (fun _ => Err "ENOENT")
    (fun _ _ => Ok (mkForkSession "/tmp/pi-task-tool-1" "/tmp/pi-task-tool-1/seed.jsonl"))
    spawn.

Definition plainItem (prompt : string) : TaskWorkItem :=
  mkItem prompt None None None false.

Definition task (prompt : string) : Value :=
  Obj [("prompt", Str prompt); ("fork", Bool false)].

Definition request (mode : string) (tasks : list Value) : Value :=
  Obj [("type", Str mode); ("tasks", Arr tasks)].

Definition env (concurrency : Z) : Env :=
  mkEnv [] "medium" ["read"] None None true true 8 concurrency 30.

(** Three steps that need no fork, and a world in which the process of the
    second step fails. *)
Definition threeSteps : NormalizedParams :=
  mkParams chain None "inherit"
    [plainItem "find the bug"; plainItem "fix it: {previous}"; plainItem "test: {previous}"].

Definition secondFails : World :=
  world (fun index _ =>
    match index with
    | Some 2%nat => fails "boom"
    | _ => says "done"
    end).

Definition runOptions (prompt : string) : RunOptions :=
  mkRunOptions (plainItem prompt) prompt None ["--mode"; "json"] None "medium" false None true.


(** A process that reports an error, then ends a turn normally and exits
    with code 0. *)
Definition recovers : Process :=
  mkProcess [StdoutData ("fail:boom" ++ nl ++ "say:done" ++ nl)] (Close (Some 0)).

(** A task that forks, with the session file of the caller. *)
Definition forkOptions (sessionFile : option string) : RunOptions :=
  mkRunOptions (mkItem "go" None None None true) "go" (Some 1%nat)
    ["--mode"; "json"; "-p"; "--no-session"; "--no-extensions"; "--thinking"; "low";
     "--no-tools"]
    None "low" true sessionFile false.

(** A skill and two file systems: one that holds its file, with front
    matter and CRLF line ends, and one in which the file is gone. *)
Definition scout : Skill :=
  mkSkill "scout" "project" "/skills/scout/SKILL.md" "/skills/scout".

Definition CRLF : string := String CR (String LF EmptyString).

Definition scoutFile : string :=
  "---" ++ CRLF ++ "name: scout" ++ CRLF ++ "---" ++ CRLF ++ "Look around." ++ CRLF.

Definition withFile (path : string) : Result string :=
  if String.eqb path "/skills/scout/SKILL.md" then Ok scoutFile else Err "ENOENT".

Definition withoutFiles (path : string) : Result string := Err "ENOENT".

(** An assistant message without a usage object, and a parser that also
    reads a line [bare:text] as the event that ends a turn with it. *)
Definition bareMessage (text : string) : Value :=
  Obj [("role", Str "assistant");
       ("content", Arr [Obj [("type", Str "text"); ("text", Str text)]]);
       ("model", Str "anthropic/claude"); ("stopReason", Str "stop")].

Definition bareEvent (text : string) : Value :=
  Obj [("type", Str "message_end"); ("message", bareMessage text)].

Definition parseLineOrBare (line : string) : option Value :=
  if String.prefix "bare:" line then Some (bareEvent (sliceFrom line 5))
  else parseLine line.

Definition bareWorld (spawn : option nat -> list string -> Process) : World :=
  mkWorld parseLineOrBare (fun _ => Err "ENOENT")
    (fun _ _ => Ok (mkForkSession "/tmp/pi-task-tool-1" "/tmp/pi-task-tool-1/seed.jsonl"))
    spawn.



(** A process that is aborted and whose output ends, without a line feed,
    with a turn without usage. *)
Definition abortedUnfinished : Process :=
  mkProcess [StdoutData ("say:partial" ++ nl); AbortFired; StdoutData "bare:cut"]
    (Close (Some 0)).

(** A process that could not be started: the runtime reports the failure
    with the code -2 when it closes the process. *)
Definition notFound : Process :=
  mkProcess [] (SpawnError (Some (-2)) false).

Definition notFoundClosedEarly : Process :=
  mkProcess [] (SpawnError (Some (-2)) true).
End Samples.

(** * Theorems *)

Import Js TaskParams TaskConfig Usage Extension.

(** ** Facts about strings *)

Lemma trimStart_allWhiteSpace (s : string) :
  Spec.allWhiteSpace s = true -> trimStart s = EmptyString.
Proof.
  induction s as [|c s IH]; simpl; [reflexivity|].
  intros H. apply andb_true_iff in H as [Hc Hs].
  rewrite Hc. auto.
Qed.

Lemma trim_allWhiteSpace (s : string) :
  Spec.allWhiteSpace s = true -> trim s = EmptyString.
Proof.
  intros H. unfold trim. rewrite trimStart_allWhiteSpace by assumption. reflexivity.
Qed.

Lemma truthy_false_iff (s : string) : truthy s = false <-> s = EmptyString.
Proof. destruct s; simpl; split; congruence. Qed.

Lemma truthy_true_iff (s : string) : truthy s = true <-> s <> EmptyString.
Proof. destruct s; simpl; split; congruence. Qed.

(** ** The parameter normalizer *)

Lemma normalizeModelInput_blank (s label : string) :
  Spec.allWhiteSpace s = true -> normalizeModelInput (Str s) label = Ok None.
Proof.
  intros H. unfold normalizeModelInput. rewrite (trim_allWhiteSpace s H). reflexivity.
Qed.

Lemma normalizeThinkingInput_blank (s label : string) :
  Spec.allWhiteSpace s = true -> normalizeThinkingInput (Str s) label = Ok None.
Proof.
  intros H. unfold normalizeThinkingInput. rewrite (trim_allWhiteSpace s H). reflexivity.
Qed.

Lemma normalizeModelInput_undefined (label : string) :
  normalizeModelInput Undefined label = Ok None.
Proof. reflexivity. Qed.

Lemma normalizeThinkingInput_undefined (label : string) :
  normalizeThinkingInput Undefined label = Ok None.
Proof. reflexivity. Qed.

Lemma parseTaskItem_ext (index : nat) (e e' : Value) :
  isRecord e = isRecord e' ->
  (forall k, In k ["prompt"; "skill"; "model"; "thinking"; "fork"] -> 
     get e k = get e' k
     \/ (k = "model" /\ forall label,
           normalizeModelInput (get e k) label = normalizeModelInput (get e' k) label)
     \/ (k = "thinking" /\ forall label,
           normalizeThinkingInput (get e k) label = normalizeThinkingInput (get e' k) label)) ->
  parseTaskItem index e = parseTaskItem index e'.
Proof.
  intros Hrec H. unfold parseTaskItem. rewrite Hrec.
  assert (Hp : get e "prompt" = get e' "prompt").
  { destruct (H "prompt") as [E|[[E _]|[E _]]]; simpl; auto; discriminate. }
  assert (Hs : get e "skill" = get e' "skill").
  { destruct (H "skill") as [E|[[E _]|[E _]]]; simpl; auto 6; discriminate. }
  assert (Hf : get e "fork" = get e' "fork").
  { destruct (H "fork") as [E|[[E _]|[E _]]]; simpl; auto 8; discriminate. }
  assert (Hm : forall label, normalizeModelInput (get e "model") label
                             = normalizeModelInput (get e' "model") label).
  { destruct (H "model") as [E|[[_ E]|[E _]]]; simpl; auto 6; try discriminate.
    intros; rewrite E; reflexivity. }
  assert (Ht : forall label, normalizeThinkingInput (get e "thinking") label
                             = normalizeThinkingInput (get e' "thinking") label).
  { destruct (H "thinking") as [E|[[E _]|[_ E]]]; simpl; auto 8; try discriminate.
    intros; rewrite E; reflexivity. }
  rewrite Hp, Hs, Hf, Hm, Ht. reflexivity.
Qed.

Lemma normalizeTaskParams_ext (p p' : Value) (options : Options) :
  isRecord p = isRecord p' ->
  get p "type" = get p' "type" ->
  get p "tasks" = get p' "tasks" ->
  (forall label, normalizeModelInput (get p "model") label
                 = normalizeModelInput (get p' "model") label) ->
  (forall label, normalizeThinkingInput (get p "thinking") label
                 = normalizeThinkingInput (get p' "thinking") label) ->
  normalizeTaskParams p options = normalizeTaskParams p' options.
Proof.
  intros Hrec Hty Hta Hm Ht. unfold normalizeTaskParams.
  rewrite Hrec, Hty, Hta, Hm, Ht. reflexivity.
Qed.

(** C10. A model or thinking field that holds only white space (or nothing)
    is normalized to an absent value, without an error: the two field
    normalizers answer [Ok None], and a task entry or a whole request with
    such a field is normalized exactly as an entry or a request that has the
    field undefined and is the same elsewhere. *)
Theorem blank_model_or_thinking_is_absent (s : string) :
  Spec.allWhiteSpace s = true ->
  (forall label, normalizeModelInput (Str s) label = Ok None)
  /\ (forall label, normalizeThinkingInput (Str s) label = Ok None)
  /\ (forall field index e e',
        field = "model" \/ field = "thinking" ->
        Spec.sameExcept field e e' ->
        get e field = Str s -> get e' field = Undefined ->
        parseTaskItem index e = parseTaskItem index e')
  /\ (forall field p p' options,
        field = "model" \/ field = "thinking" ->
        Spec.sameExcept field p p' ->
        get p field = Str s -> get p' field = Undefined ->
        normalizeTaskParams p options = normalizeTaskParams p' options).
Proof.
  intros H.
  pose proof (fun label => normalizeModelInput_blank s label H) as Hm.
  pose proof (fun label => normalizeThinkingInput_blank s label H) as Ht.
  split; [auto|]. split; [auto|]. split.
  - intros field index e e' Hfield [Hrec Hsame] He He'.
    apply parseTaskItem_ext; [assumption|].
    intros k Hk.
    destruct (string_dec k field) as [->|Hne]; [|left; auto].
    right. destruct Hfield as [->| ->]; [left|right]; split; try reflexivity;
      intros label; rewrite He, He'; rewrite ?Hm, ?Ht; reflexivity.
  - intros field p p' options Hfield [Hrec Hsame] Hp Hp'.
    destruct Hfield as [->| ->].
    + apply normalizeTaskParams_ext; try assumption;
        try (apply Hsame; discriminate).
      * intros label. rewrite Hp, Hp', Hm. reflexivity.
      * intros label. rewrite (Hsame "thinking") by discriminate. reflexivity.
    + apply normalizeTaskParams_ext; try assumption;
        try (apply Hsame; discriminate).
      * intros label. rewrite (Hsame "model") by discriminate. reflexivity.
      * intros label. rewrite Hp, Hp', Ht. reflexivity.
Qed.

Lemma blank_model_or_thinking_is_absent_witness :
  Spec.allWhiteSpace "   " = true
  /\ normalizeTaskParams
       (Obj [("type", Str "single"); ("model", Str "   ");
             ("tasks", Arr [Obj [("prompt", Str "Hello")]])]) defaultOptions
     = normalizeTaskParams
         (Obj [("type", Str "single");
               ("tasks", Arr [Obj [("prompt", Str "Hello")]])]) defaultOptions.
Proof.
  split; [reflexivity|].
  apply (proj2 (proj2 (proj2 (blank_model_or_thinking_is_absent "   " eq_refl)))
           "model"); [left; reflexivity| |reflexivity|reflexivity].
  split; [reflexivity|].
  intros k' Hk. simpl.
  destruct (String.eqb_spec k' "type") as [->|]; [reflexivity|].
  destruct (String.eqb_spec k' "model") as [->|]; [contradiction|reflexivity].
Defined.

Lemma countError_cases (mode : string) (len max : Z) :
  (mode = "single" /\ len <> 1)
  \/ ((mode = "parallel" \/ mode = "chain") /\ (len < 1 \/ max < len)) ->
  0 <= len ->
  exists e, Spec.countError mode len max = Some e.
Proof.
  intros [[-> Hlen]|[[->| ->] Hlen]] Hpos; unfold Spec.countError; simpl.
  - destruct (Z.eqb_spec len 1); [contradiction|eauto].
  - destruct (Z.eqb_spec len 0); [eauto|].
    destruct (Z.gtb_spec len max); [eauto|lia].
  - destruct (Z.eqb_spec len 0); [eauto|].
    destruct (Z.gtb_spec len max); [eauto|lia].
Qed.

Lemma tasksLength_nonneg (params : Value) : 0 <= Spec.tasksLength params.
Proof. unfold Spec.tasksLength. destruct (get params "tasks"); lia. Qed.

Lemma tasksLength_eq (params : Value) :
  Spec.tasksLength params
  = Z.of_nat (length (match get params "tasks" with Arr l => l | _ => [] end)).
Proof. unfold Spec.tasksLength. destruct (get params "tasks"); reflexivity. Qed.

Lemma get_type_isRecord (params : Value) (mode : string) :
  get params "type" = Str mode -> isRecord params = true.
Proof. destruct params; simpl; intros H; try discriminate; reflexivity. Qed.

(** A request whose number of tasks is out of bounds is rejected, whatever
    else it holds. *)
Lemma count_violation_rejected (params : Value) (options : Options) (mode e : string) :
  get params "type" = Str mode ->
  Spec.countError mode (Spec.tasksLength params) (maxParallelTasks options) = Some e ->
  isOk (normalizeTaskParams params options) = false.
Proof.
  intros Hty He. unfold normalizeTaskParams.
  rewrite (get_type_isRecord _ _ Hty), Hty. cbn [negb].
  destruct (normalizeModelInput _ _); [|reflexivity].
  destruct (normalizeThinkingInput _ _); [|reflexivity].
  rewrite <- tasksLength_eq. cbv zeta.
  unfold Spec.countError in He.
  destruct (String.eqb mode "single").
  { destruct (Spec.tasksLength params =? 1); [discriminate|reflexivity]. }
  destruct (String.eqb mode "parallel").
  { simpl in He. destruct (Spec.tasksLength params =? 0); [reflexivity|].
    destruct (Spec.tasksLength params >? maxParallelTasks options); [reflexivity|discriminate]. }
  destruct (String.eqb mode "chain"); [|discriminate].
  simpl in He. destruct (Spec.tasksLength params =? 0); [reflexivity|].
  destruct (Spec.tasksLength params >? maxParallelTasks options); [reflexivity|discriminate].
Qed.

(** With well-formed shared fields the error is the one about the count. *)
Lemma count_violation_message (params : Value) (options : Options) (mode e : string) :
  get params "type" = Str mode ->
  Spec.countError mode (Spec.tasksLength params) (maxParallelTasks options) = Some e ->
  isOk (normalizeModelInput (get params "model") (quoted "model")) = true ->
  isOk (normalizeThinkingInput (get params "thinking") (quoted "thinking")) = true ->
  normalizeTaskParams params options = Err e.
Proof.
  intros Hty He Hm Ht. unfold normalizeTaskParams.
  rewrite (get_type_isRecord _ _ Hty), Hty. cbn [negb].
  destruct (normalizeModelInput _ _); [|discriminate].
  destruct (normalizeThinkingInput _ _); [|discriminate].
  rewrite <- tasksLength_eq. cbv zeta.
  unfold Spec.countError in He.
  destruct (String.eqb_spec mode "single") as [->|].
  { destruct (Spec.tasksLength params =? 1); [discriminate|].
    injection He as <-. reflexivity. }
  destruct (String.eqb_spec mode "parallel") as [->|].
  { simpl in He. destruct (Spec.tasksLength params =? 0).
    { injection He as <-. reflexivity. }
    destruct (Spec.tasksLength params >? maxParallelTasks options); [|discriminate].
    injection He as <-. reflexivity. }
  destruct (String.eqb_spec mode "chain") as [->|]; [|discriminate].
  simpl in He. destruct (Spec.tasksLength params =? 0).
  { injection He as <-. reflexivity. }
  destruct (Spec.tasksLength params >? maxParallelTasks options); [|discriminate].
  injection He as <-. reflexivity.
Qed.

(** A request that the normalizer rejects runs nothing. *)
Lemma rejected_request_runs_nothing (w : World) (env : Env) (params : Value)
    (schedule : list nat) :
  isOk (normalizeTaskParams params (mkOptions (envMaxParallelTasks env))) = false ->
  let ex := execute w env params schedule in
  spawned ex = [] /\ ran ex = [] /\ updates ex = []
  /\ exists r, returned ex = Some r /\ d_results (details r) = [].
Proof.
  intros H. unfold execute.
  destruct (normalizeTaskParams params _); [discriminate|].
  simpl. repeat split. eexists; split; reflexivity.
Qed.

(** C9, amended. A single request whose [tasks] does not hold exactly one
    entry, and a chain or parallel request whose number of entries is
    outside 1..maxParallelTasks, is always rejected ([ok] is false) and the
    call spawns no subprocess. When the shared [model] and [thinking] fields
    of the request pass their own checks, the error is the message about the
    count, which names the limit; otherwise the error is the one of the
    shared field, which is checked first. *)
Theorem task_count_bounds_are_enforced (params : Value) (options : Options)
    (mode : string) :
  get params "type" = Str mode ->
  (mode = "single" /\ Spec.tasksLength params <> 1)
  \/ ((mode = "parallel" \/ mode = "chain")
      /\ (Spec.tasksLength params < 1
          \/ maxParallelTasks options < Spec.tasksLength params)) ->
  exists e,
    Spec.countError mode (Spec.tasksLength params) (maxParallelTasks options) = Some e
    /\ isOk (normalizeTaskParams params options) = false
    /\ (isOk (normalizeModelInput (get params "model") (quoted "model")) = true ->
        isOk (normalizeThinkingInput (get params "thinking") (quoted "thinking")) = true ->
        normalizeTaskParams params options = Err e)
    /\ (forall w env schedule,
          envMaxParallelTasks env = maxParallelTasks options ->
          spawned (execute w env params schedule) = []
          /\ ran (execute w env params schedule) = []
          /\ exists r, returned (execute w env params schedule) = Some r
                       /\ d_results (details r) = []).
Proof.
  intros Hty Hbounds.
  destruct (countError_cases mode _ (maxParallelTasks options) Hbounds
              (tasksLength_nonneg params)) as [e He].
  exists e. split; [exact He|].
  pose proof (count_violation_rejected params options mode e Hty He) as Hrej.
  split; [exact Hrej|]. split.
  - apply (count_violation_message params options mode e); assumption.
  - intros w env schedule Hmax.
    destruct options as [max]; simpl in Hmax; subst max.
    destruct (rejected_request_runs_nothing w env params schedule Hrej)
      as (Hs & Hr & _ & Hret).
    auto.
Qed.

Lemma task_count_bounds_are_enforced_witness :
  let params :=
    Obj [("type", Str "chain");
         ("tasks", Arr (repeat (Obj [("prompt", Str "go")]) 9))] in
  maxParallelTasks defaultOptions < Spec.tasksLength params
  /\ normalizeTaskParams params defaultOptions
     = Err "Too many chain tasks (9). Max is 8.".
Proof.
  cbv zeta. split; [reflexivity|].
  destruct (task_count_bounds_are_enforced
              (Obj [("type", Str "chain");
                    ("tasks", Arr (repeat (Obj [("prompt", Str "go")]) 9))])
              defaultOptions "chain" eq_refl)
    as (e & He & _ & Hmsg & _).
  - right. split; [right; reflexivity|]. right. reflexivity.
  - rewrite (Hmsg eq_refl eq_refl).
    vm_compute in He. injection He as <-. reflexivity.
Defined.

(** The claim as first stated fails where a shared field is ill-formed: the
    request below has no task at all, and the error is about its model. *)
Lemma count_error_preempted_by_model_error :
  let params := Obj [("type", Str "parallel"); ("model", Num 5); ("tasks", Arr [])] in
  Spec.countError "parallel" (Spec.tasksLength params) (maxParallelTasks defaultOptions)
  = Some (Spec.emptyCountError "parallel")
  /\ normalizeTaskParams params defaultOptions
     = Err ("Invalid parameters: " ++ quoted "model" ++ " must be a string.")
  /\ normalizeTaskParams params defaultOptions <> Err (Spec.emptyCountError "parallel").
Proof.
  cbv zeta. split; [reflexivity|]. split; [reflexivity|].
  vm_compute. discriminate.
Qed.

(** ** Model resolution *)

Lemma string_length_app (a b : string) :
  String.length (a ++ b) = (String.length a + String.length b)%nat.
Proof. induction a; simpl; congruence. Qed.

Lemma substring_prefix (p q : string) :
  String.substring 0 (String.length p) (p ++ q) = p.
Proof.
  induction p as [|c p IH]; simpl.
  - destruct q; reflexivity.
  - rewrite IH. reflexivity.
Qed.

Lemma substring_skip (p q : string) (k : nat) :
  String.substring (String.length p) k (p ++ q) = String.substring 0 k q.
Proof. induction p as [|c p IH]; simpl; auto. Qed.

Lemma substring_all (m : string) :
  String.substring 0 (String.length m) m = m.
Proof. induction m as [|c m IH]; simpl; congruence. Qed.

Lemma substring_after_slash (p m : string) :
  String.substring (String.length p + 1) (String.length m) (p ++ String "/" m) = m.
Proof.
  induction p as [|c p IH]; simpl; [apply substring_all|exact IH].
Qed.

(** The first slash of a string splits it in the text before it, which has
    no slash, and the text after it. *)
Lemma index_slash_spec (t : string) :
  match String.index 0 "/" t with
  | Some i =>
      exists p m, t = p ++ String "/" m /\ Spec.occurs "/" p = false
                  /\ String.length p = i
  | None => Spec.occurs "/" t = false
  end.
Proof.
  induction t as [|c t IH]; [reflexivity|].
  cbn [String.index String.prefix].
  destruct (Ascii.ascii_dec "/" c) as [<-|Hne].
  - assert (Hp : String.prefix "" t = true) by (destruct t; reflexivity).
    rewrite Hp. exists EmptyString, t. auto.
  - assert (E : Ascii.eqb "/" c = false) by (apply Ascii.eqb_neq; assumption).
    destruct (String.index 0 "/" t) as [i|].
    + destruct IH as (p & m & -> & Hocc & Hlen).
      exists (String c p), m.
      cbn [Spec.occurs append String.length]. rewrite E, Hocc, Hlen. auto.
    + cbn [Spec.occurs]. rewrite E, IH. reflexivity.
Qed.

Lemma occurs_app_slash (p m : string) :
  Spec.occurs "/" (p ++ String "/" m) = true.
Proof.
  induction p as [|c p IH]; [reflexivity|].
  cbn [append Spec.occurs]. rewrite IH. apply orb_true_r.
Qed.

Lemma first_slash_unique (p m p' m' : string) :
  p ++ String "/" m = p' ++ String "/" m' ->
  Spec.occurs "/" p = false -> Spec.occurs "/" p' = false ->
  p = p' /\ m = m'.
Proof.
  revert p'. induction p as [|c p IH]; intros [|c' p'] H Hp Hp';
    cbn [append Spec.occurs] in *.
  - injection H as ->. auto.
  - injection H as <- _. rewrite Ascii.eqb_refl in Hp'. discriminate.
  - injection H as -> _. rewrite Ascii.eqb_refl in Hp. discriminate.
  - injection H as -> H.
    apply orb_false_iff in Hp as [_ Hp]. apply orb_false_iff in Hp' as [_ Hp'].
    destruct (IH p' H Hp Hp') as [-> ->]. auto.
Qed.

(** [parseProviderModel] accepts exactly the strings of the shape
    provider/modelId and splits them at the first slash. *)
Lemma parseProviderModel_ok (s p m : string) :
  Spec.wellFormedModel s p m ->
  parseProviderModel s = Ok (mkProviderModel p m (p ++ "/" ++ m)).
Proof.
  intros (Ht & Hp & Hm & Hocc). unfold parseProviderModel, indexOf.
  pose proof (index_slash_spec (trim s)) as Hidx.
  destruct (String.index 0 "/" (trim s)) as [i|].
  - destruct Hidx as (p' & m' & Ht' & Hocc' & Hlen).
    rewrite Ht in Ht'. simpl in Ht'.
    destruct (first_slash_unique _ _ _ _ Ht' Hocc Hocc') as [<- <-].
    rewrite Ht. simpl (p ++ "/" ++ m). subst i.
    rewrite string_length_app. simpl String.length.
    destruct (Z.leb_spec (Z.of_nat (String.length p)) 0) as [Hle|Hgt].
    { destruct p; [contradiction|simpl in Hle; lia]. }
    destruct (Z.eqb_spec (Z.of_nat (String.length p))
                (Z.of_nat (String.length p + S (String.length m)) - 1)) as [Heq|Hneq].
    { destruct m; [contradiction|simpl in Heq; lia]. }
    cbn [orb]. unfold slice, sliceFrom.
    rewrite Nat2Z.id, Nat.sub_0_r, substring_prefix.
    replace (Z.to_nat (Z.of_nat (String.length p) + 1)) with (String.length p + 1)%nat by lia.
    rewrite string_length_app. simpl String.length.
    replace (String.length p + S (String.length m) - (String.length p + 1))%nat
      with (String.length m) by lia.
    rewrite substring_after_slash. reflexivity.
  - rewrite Ht in Hidx. simpl in Hidx. rewrite occurs_app_slash in Hidx. discriminate.
Qed.

Lemma parseProviderModel_err (s : string) :
  (forall p m, ~ Spec.wellFormedModel s p m) ->
  parseProviderModel s = Err (Spec.formatError s).
Proof.
  intros Hno. unfold parseProviderModel, indexOf.
  pose proof (index_slash_spec (trim s)) as Hidx.
  destruct (String.index 0 "/" (trim s)) as [i|]; [|reflexivity].
  destruct Hidx as (p & m & Ht & Hocc & Hlen).
  destruct (Z.leb_spec (Z.of_nat i) 0) as [Hle|Hgt]; [reflexivity|].
  destruct (Z.eqb_spec (Z.of_nat i) (Z.of_nat (String.length (trim s)) - 1))
    as [Heq|Hneq]; [reflexivity|].
  exfalso. apply (Hno p m). split; [exact Ht|].
  split; [|split; [|exact Hocc]].
  - intros ->. simpl in Hlen. lia.
  - intros ->. rewrite Ht, string_length_app in Hneq. simpl in Hneq. lia.
Qed.

Lemma resolveModel_present (s : string) (ctx : option CtxModel) :
  s <> EmptyString ->
  resolveModel (Some s) ctx
  = match parseProviderModel s with Err e => Err e | Ok m => Ok (Some m) end.
Proof. intros H. destruct s; [contradiction|reflexivity]. Qed.

(** The model strings that the normalizer hands on are never empty. *)
Lemma normalizeModelInput_nonempty (v : Value) (label : string) (m : option string) :
  normalizeModelInput v label = Ok m -> m <> Some EmptyString.
Proof.
  destruct v; simpl; intros H; try discriminate.
  - injection H as <-. discriminate.
  - injection H as <-. destruct (trim s); simpl; discriminate.
Qed.

Lemma parseTaskItem_model_nonempty (index : nat) (e : Value) (it : TaskWorkItem) :
  parseTaskItem index e = Ok it -> model it <> Some EmptyString.
Proof.
  unfold parseTaskItem. destruct (negb (isRecord e)); [discriminate|].
  destruct (_ && _); [discriminate|].
  destruct (normalizeModelInput _ _) as [m|] eqn:Hm; [|discriminate].
  destruct (normalizeThinkingInput _ _); [|discriminate].
  destruct (normalizeForkInput _ _); [|discriminate].
  intros H. injection H as <-. simpl. eapply normalizeModelInput_nonempty; eauto.
Qed.

Lemma parseTaskItemsFrom_model_nonempty (raw : list Value) :
  forall index acc parsed,
    Forall (fun it => model it <> Some EmptyString) acc ->
    parseTaskItemsFrom index raw acc = Ok parsed ->
    Forall (fun it => model it <> Some EmptyString) parsed.
Proof.
  induction raw as [|e raw IH]; intros index acc parsed Hacc H; simpl in H.
  - injection H as <-. exact Hacc.
  - destruct (parseTaskItem index e) as [it|] eqn:Hit; [|discriminate].
    refine (IH _ _ _ _ H). apply Forall_app. split; [exact Hacc|].
    constructor; [|constructor]. eapply parseTaskItem_model_nonempty; eauto.
Qed.

Lemma normalized_models_nonempty (params : Value) (options : Options)
    (n : NormalizedParams) :
  normalizeTaskParams params options = Ok n ->
  sharedModel n <> Some EmptyString
  /\ Forall (fun it => model it <> Some EmptyString) (items n).
Proof.
  unfold normalizeTaskParams. destruct (negb (isRecord params)); [discriminate|].
  destruct (get params "type"); try discriminate.
  destruct (normalizeModelInput _ _) as [m|] eqn:Hm; [|discriminate].
  destruct (normalizeThinkingInput _ _); [|discriminate].
  pose proof (normalizeModelInput_nonempty _ _ _ Hm) as Hne.
  cbv zeta.
  repeat match goal with
         | |- context [if ?b then _ else _] => destruct b; try discriminate
         end;
    (destruct (parseTaskItems _) as [parsed|] eqn:Hp; [|discriminate]);
    intros H; injection H as <-; simpl; (split; [exact Hne|]);
    pose proof (parseTaskItemsFrom_model_nonempty _ _ _ _ (List.Forall_nil _) Hp) as Hall;
    try exact Hall.
  destruct parsed; simpl; [constructor|].
  inversion Hall; subst. constructor; [assumption|constructor].
Qed.

Lemma normalized_models_nonempty_witness :
  let params :=
    Obj [("type", Str "parallel"); ("model", Str "   ");
         ("tasks", Arr [Obj [("prompt", Str "one"); ("model", Str " acme/modelZ ")];
                        Obj [("prompt", Str "two"); ("model", Str "")]])] in
  exists n,
    normalizeTaskParams params defaultOptions = Ok n
    /\ sharedModel n <> Some EmptyString
    /\ Forall (fun it => model it <> Some EmptyString) (items n)
    /\ map model (items n) = [Some "acme/modelZ"; None].
Proof.
  cbv zeta.
  set (params := Obj [("type", Str "parallel"); ("model", Str "   ");
         ("tasks", Arr [Obj [("prompt", Str "one"); ("model", Str " acme/modelZ ")];
                        Obj [("prompt", Str "two"); ("model", Str "")]])]).
  destruct (normalizeTaskParams params defaultOptions) as [n|e] eqn:Hn;
    [|vm_compute in Hn; discriminate].
  exists n. split; [reflexivity|].
  destruct (normalized_models_nonempty params defaultOptions n Hn) as [Hs Hi].
  split; [exact Hs|]. split; [exact Hi|].
  vm_compute in Hn. injection Hn as <-. reflexivity.
Defined.

Lemma resolveTaskConfig_from (o : ConfigOptions) (s : string) :
  s <> EmptyString ->
  nullish (model (item o)) (defaultModel o) = Some s ->
  Spec.configuredFrom o s.
Proof.
  intros Hs Hchosen. unfold Spec.configuredFrom, resolveTaskConfig.
  rewrite Hchosen, (resolveModel_present s _ Hs). split.
  - intros p m Hwf. rewrite (parseProviderModel_ok s p m Hwf). reflexivity.
  - intros Hno. rewrite (parseProviderModel_err s Hno). reflexivity.
Qed.

Lemma normalizeModelInput_string (s label : string) :
  normalizeModelInput (Str s) label
  = Ok (if String.eqb (trim s) EmptyString then None else Some (trim s)).
Proof.
  cbn [normalizeModelInput]. cbv zeta. destruct (trim s); reflexivity.
Qed.

(** C4, amended. The model of a task is taken from the override of the
    item, else from the shared default, else from the session of the
    caller, else there is none. A string that is empty or of white space
    only is not an override and not an error: the normalizer reads such a
    string of a request as no override at its level, so that the next level
    decides. Every other string that is provided must have the shape
    provider/modelId with both sides non-empty: it then yields that provider
    and model, and any other such string yields the format error and never
    the inherited model or none. The resolver itself reads an empty string
    as no override: it resolves to the model of the session, or to none. *)
Theorem model_precedence_and_format (o : ConfigOptions) :
  (forall s, model (item o) = Some s -> s <> EmptyString -> Spec.configuredFrom o s)
  /\ (forall s, model (item o) = None -> defaultModel o = Some s -> s <> EmptyString ->
        Spec.configuredFrom o s)
  /\ (model (item o) = Some EmptyString
      \/ (model (item o) = None
          /\ (defaultModel o = None \/ defaultModel o = Some EmptyString)) ->
      resolveTaskConfig o = Ok (Spec.configWith o (Spec.inheritedModel (ctxModel o))))
  /\ (forall s label,
        normalizeModelInput (Str s) label
        = Ok (if String.eqb (trim s) EmptyString then None else Some (trim s)))
  /\ (forall s, Spec.allWhiteSpace s = true -> trim s = EmptyString).
Proof.
  split; [|split; [|split; [|split]]].
  - intros s Hs Hne. apply resolveTaskConfig_from; [exact Hne|].
    rewrite Hs. reflexivity.
  - intros s Hnone Hs Hne. apply resolveTaskConfig_from; [exact Hne|].
    rewrite Hnone. exact Hs.
  - intros [Hempty|[Hnone [Hnone'|Hempty]]]; unfold resolveTaskConfig;
      rewrite ?Hempty, ?Hnone, ?Hnone', ?Hempty; destruct (ctxModel o); reflexivity.
  - apply normalizeModelInput_string.
  - apply trim_allWhiteSpace.
Qed.

Lemma model_precedence_and_format_witness :
  let o :=
    mkConfigOptions (mkItem "review" None (Some "acme/modelZ") None true)
      (Some "acme/modelY") "inherit" "medium" (Some (mkCtxModel "acme" "modelX")) ["read"] in
  resolveTaskConfig o
  = Ok (mkResolved "medium"
          ["--mode"; "json"; "-p"; "--no-session"; "--no-extensions";
           "--provider"; "acme"; "--model"; "modelZ"; "--thinking"; "medium";
           "--tools"; "read"]
          (Some "acme/modelZ")).
Proof.
  cbv zeta.
  refine (proj1 (proj1 (model_precedence_and_format
                          (mkConfigOptions
                             (mkItem "review" None (Some "acme/modelZ") None true)
                             (Some "acme/modelY") "inherit" "medium"
                             (Some (mkCtxModel "acme" "modelX")) ["read"]))
                   "acme/modelZ" eq_refl _)
            "acme" "modelZ" _); try discriminate.
  repeat split; discriminate.
Defined.

(** The claim as first stated fails on a string of white space: it is
    provided, it does not have the shape provider/modelId, and it yields no
    format error. As the model of an item of a request it is dropped, and
    the item silently takes the shared default; an empty string handed to
    the resolver as the model of an item silently resolves to the model of
    the session, passing over the shared default. *)
Lemma blank_model_falls_through_silently :
  let params :=
    Obj [("type", Str "single"); ("model", Str "acme/modelY");
         ("tasks", Arr [Obj [("prompt", Str "go"); ("model", Str "   ")]])] in
  let session := Some (mkCtxModel "acme" "modelX") in
  (forall p m, ~ Spec.wellFormedModel "   " p m)
  /\ (forall p m, ~ Spec.wellFormedModel "" p m)
  /\ (exists n it,
        normalizeTaskParams params defaultOptions = Ok n
        /\ items n = [it] /\ model it = None /\ sharedModel n = Some "acme/modelY"
        /\ option_map modelLabel
             (match resolveTaskConfig
                      (mkConfigOptions it (sharedModel n) "inherit" "medium" session [])
              with Ok r => Some r | Err _ => None end)
           = Some (Some "acme/modelY"))
  /\ option_map modelLabel
       (match resolveTaskConfig
                (mkConfigOptions (mkItem "go" None (Some "") None true)
                   (Some "acme/modelY") "inherit" "medium" session [])
        with Ok r => Some r | Err _ => None end)
     = Some (Some "acme/modelX").
Proof.
  cbv zeta.
  assert (Hshape : forall p m : string, EmptyString <> p ++ "/" ++ m)
    by (intros [|c p] m; discriminate).
  split; [intros p m (Ht & _); vm_compute in Ht; exact (Hshape p m Ht)|].
  split; [intros p m (Ht & _); vm_compute in Ht; exact (Hshape p m Ht)|].
  split; [|reflexivity].
  eexists. eexists. split; [vm_compute; reflexivity|].
  repeat split.
Qed.

(** The same resolution on a string without a slash, and on a sibling item
    without an override. *)
Example malformed_model_rejected :
  resolveTaskConfig
    (mkConfigOptions (mkItem "review" None (Some "acme") None true)
       (Some "acme/modelY") "inherit" "medium" (Some (mkCtxModel "acme" "modelX")) [])
  = Err (Spec.formatError "acme").
Proof. reflexivity. Qed.

Example sibling_uses_shared_default :
  option_map modelLabel
    (match resolveTaskConfig
             (mkConfigOptions (mkItem "review" None None None true)
                (Some "acme/modelY") "inherit" "medium"
                (Some (mkCtxModel "acme" "modelX")) [])
     with Ok r => Some r | Err _ => None end)
  = Some (Some "acme/modelY").
Proof. reflexivity. Qed.

(** ** Usage aggregation *)

(** The aggregate from an arbitrary running total: six fields are summed,
    the context tokens of the total are kept. *)
Lemma aggregate_from (results : list SingleResult) (total : UsageStats) :
  fold_left (fun total result => addUsage total (usage result)) results total
  = {| input := fold_left (fun acc r => PrimFloat.add acc (input (usage r))) results (input total);
       output := fold_left (fun acc r => PrimFloat.add acc (output (usage r))) results (output total);
       cacheRead := fold_left (fun acc r => PrimFloat.add acc (cacheRead (usage r))) results (cacheRead total);
       cacheWrite := fold_left (fun acc r => PrimFloat.add acc (cacheWrite (usage r))) results (cacheWrite total);
       cost := fold_left (fun acc r => PrimFloat.add acc (cost (usage r))) results (cost total);
       contextTokens := contextTokens total;
       turns := fold_left (fun acc r => PrimFloat.add acc (turns (usage r))) results (turns total) |}.
Proof.
  revert total. induction results as [|r results IH]; intros total.
  - destruct total; reflexivity.
  - cbn [fold_left]. rewrite IH. reflexivity.
Qed.

(** C3, amended. The aggregate of a list of results is the field-wise sum of
    their usage in the fields input, output, cacheRead, cacheWrite, cost and
    turns; its contextTokens is zero, whatever the tasks report. The
    aggregate of no results is zero in every field. *)
Theorem aggregateUsage_fieldwise :
  aggregateUsage [] = Usage.zero
  /\ forall results : list SingleResult,
       aggregateUsage results
       = {| input := Spec.sumOf input results;
            output := Spec.sumOf output results;
            cacheRead := Spec.sumOf cacheRead results;
            cacheWrite := Spec.sumOf cacheWrite results;
            cost := Spec.sumOf cost results;
            contextTokens := 0;
            turns := Spec.sumOf turns results |}.
Proof.
  split; [reflexivity|].
  intros results. unfold aggregateUsage. rewrite aggregate_from. reflexivity.
Qed.

(** The context tokens of the tasks are not summed: one task that reports
    1200 of them aggregates to none. *)
Lemma aggregateUsage_drops_contextTokens :
  contextTokens (aggregateUsage [Samples.resultWithContext])
  <> Spec.sumOf contextTokens [Samples.resultWithContext].
Proof.
  intros H.
  apply (f_equal (fun x => PrimFloat.eqb x 0)) in H.
  vm_compute in H. discriminate.
Qed.

(** ** The event stream *)

Lemma splitLines_nonempty (s : string) : splitLines s <> [].
Proof.
  induction s as [|c s IH]; simpl; [discriminate|].
  destruct (Ascii.eqb c LF); [discriminate|].
  destruct (splitLines s); discriminate.
Qed.

Lemma removelast_cons_nonempty {A} (x : A) (l : list A) :
  l <> [] -> removelast (x :: l) = x :: removelast l.
Proof. destruct l; [contradiction|reflexivity]. Qed.

Lemma last_cons_nonempty {A} (x d : A) (l : list A) :
  l <> [] -> List.last (x :: l) d = List.last l d.
Proof. destruct l; [contradiction|reflexivity]. Qed.

(** Splitting does not depend on where the text is cut in chunks: the lines
    of [a ++ b] are the complete lines of [a], then the lines of the
    unfinished line of [a] followed by [b]. *)
Lemma splitLines_app (a b : string) :
  splitLines (a ++ b)
  = (removelast (splitLines a)
     ++ splitLines (List.last (splitLines a) EmptyString ++ b))%list.
Proof.
  induction a as [|c a IH]; [reflexivity|].
  cbn [append splitLines].
  pose proof (splitLines_nonempty a) as Hne.
  destruct (Ascii.eqb c LF) eqn:E.
  - rewrite removelast_cons_nonempty, last_cons_nonempty by assumption.
    rewrite IH. reflexivity.
  - rewrite IH. destruct (splitLines a) as [|l ls]; [contradiction|].
    destruct ls as [|x ls].
    + cbn [removelast List.last app append splitLines]. rewrite E. reflexivity.
    + rewrite !removelast_cons_nonempty, !last_cons_nonempty by discriminate.
      reflexivity.
Qed.

Lemma last_app_nonempty {A} (l l' : list A) (d : A) :
  l' <> [] -> List.last (l ++ l') d = List.last l' d.
Proof.
  intros H. induction l as [|x l IH]; [reflexivity|].
  cbn [app]. rewrite last_cons_nonempty; [exact IH|].
  destruct l; [exact H|discriminate].
Qed.

Lemma removelast_app_nonempty {A} (l l' : list A) :
  l' <> [] -> removelast (l ++ l') = (l ++ removelast l')%list.
Proof.
  intros H. induction l as [|x l IH]; [reflexivity|].
  cbn [app]. rewrite removelast_cons_nonempty; [rewrite IH; reflexivity|].
  destruct l; [exact H|discriminate].
Qed.

Lemma removelast_last_id {A} (l : list A) (d : A) :
  l <> [] -> (removelast l ++ [List.last l d])%list = l.
Proof. intros H. symmetry. apply app_removelast_last. exact H. Qed.

Lemma string_app_assoc (a b c : string) : (a ++ b) ++ c = a ++ b ++ c.
Proof. induction a as [|x a IH]; cbn; [reflexivity|rewrite IH; reflexivity]. Qed.

Lemma string_app_nil_r (a : string) : a ++ "" = a.
Proof. induction a as [|x a IH]; cbn; [reflexivity|rewrite IH; reflexivity]. Qed.

Lemma removelast_splitLines_app (a b : string) :
  removelast (splitLines (a ++ b))
  = (removelast (splitLines a)
     ++ removelast (splitLines (List.last (splitLines a) EmptyString ++ b)))%list.
Proof.
  rewrite splitLines_app. apply removelast_app_nonempty. apply splitLines_nonempty.
Qed.

Lemma last_splitLines_app (a b : string) :
  List.last (splitLines (a ++ b)) EmptyString
  = List.last (splitLines (List.last (splitLines a) EmptyString ++ b)) EmptyString.
Proof.
  rewrite splitLines_app. apply last_app_nonempty. apply splitLines_nonempty.
Qed.

(** *** Handling one message *)

Lemma handleEventMessage_throws (r : SingleResult) (m : Value) :
  handleEventMessage r m
  = if Spec.throwsOn m then Throws (Spec.handled r m) else Returns (Spec.handled r m).
Proof.
  unfold Spec.handled, Spec.throwsOn, handleEventMessage, applyAssistantUsage. cbv zeta.
  destruct (roleIs m "assistant"); cbn [negb andb]; [|reflexivity].
  destruct (usageMissing m); reflexivity.
Qed.

Lemma messages_handled (r : SingleResult) (m : Value) :
  messages (Spec.handled r m) = (messages r ++ [m])%list.
Proof.
  unfold Spec.handled, handleEventMessage, applyAssistantUsage, recordFields. cbv zeta.
  repeat match goal with
         | |- context [if ?b then _ else _] => destruct b
         end; reflexivity.
Qed.

Lemma appendStderr_nil (r : SingleResult) : appendStderr r EmptyString = r.
Proof. destruct r. unfold appendStderr. cbn. rewrite string_app_nil_r. reflexivity. Qed.

Lemma appendStderr_app (r : SingleResult) (a b : string) :
  appendStderr (appendStderr r a) b = appendStderr r (a ++ b).
Proof. unfold appendStderr. cbn. rewrite string_app_assoc. reflexivity. Qed.

Lemma handled_appendStderr (r : SingleResult) (d : string) (m : Value) :
  Spec.handled (appendStderr r d) m = appendStderr (Spec.handled r m) d.
Proof.
  unfold Spec.handled, handleEventMessage, applyAssistantUsage, recordFields. cbv zeta.
  destruct (roleIs m "assistant"); cbn [negb]; [|reflexivity].
  destruct (usageMissing m); [reflexivity|].
  cbn [Spec.stateOf r_model countTurn setUsage pushMessage appendStderr].
  destruct (negb (truthyOpt (r_model r)) && truthyOpt (stringField m "model"));
    destruct (truthyOpt (stringField m "stopReason"));
    destruct (truthyOpt (stringField m "errorMessage")); reflexivity.
Qed.

Lemma replay_appendStderr (msgs : list Value) :
  forall r d, Spec.replay (appendStderr r d) msgs = appendStderr (Spec.replay r msgs) d.
Proof.
  unfold Spec.replay. induction msgs as [|m msgs IH]; intros r d; cbn [fold_left].
  - reflexivity.
  - rewrite handled_appendStderr. apply IH.
Qed.

Lemma replay_app (r : SingleResult) (a b : list Value) :
  Spec.replay r (a ++ b) = Spec.replay (Spec.replay r a) b.
Proof. unfold Spec.replay. apply fold_left_app. Qed.

Lemma noneThrows_app (a b : list Value) :
  Spec.noneThrows (a ++ b) = Spec.noneThrows a && Spec.noneThrows b.
Proof. unfold Spec.noneThrows. apply forallb_app. Qed.

Section Stream.

Variable parse : string -> option Value.

Lemma acceptedMessages_app (l1 l2 : list string) :
  Spec.acceptedMessages parse (l1 ++ l2)
  = (Spec.acceptedMessages parse l1 ++ Spec.acceptedMessages parse l2)%list.
Proof. unfold Spec.acceptedMessages. apply omap_app. Qed.

Lemma acceptedMessages_one (line : string) :
  Spec.acceptedMessages parse [line]
  = match acceptedMessage parse line with Some m => [m] | None => [] end.
Proof. reflexivity. Qed.

Lemma noneThrows_line (line : string) :
  Spec.noneThrows (Spec.acceptedMessages parse [line]) = negb (Spec.lineThrows parse line).
Proof.
  rewrite acceptedMessages_one. unfold Spec.lineThrows, Spec.noneThrows.
  destruct (acceptedMessage parse line) as [m|]; cbn [forallb]; [|reflexivity].
  apply andb_true_r.
Qed.

(** [processLine], by whether the message of the line makes it throw. *)
Lemma processLine_cases (st : Runner) (line : string) :
  processLine parse st line
  = match acceptedMessage parse line with
    | None => Returns st
    | Some m =>
        let result := Spec.handled (currentResult st) m in
        if Spec.throwsOn m then Throws (withResult st result)
        else Returns (mkRunner result (buffer st) (aborted st) (emitted st ++ [result])%list
                        (resolved st) (uncaught st))
    end.
Proof.
  unfold processLine. destruct (acceptedMessage parse line) as [m|]; [|reflexivity].
  rewrite handleEventMessage_throws. destruct (Spec.throwsOn m); reflexivity.
Qed.

Lemma processLine_state (st : Runner) (line : string) :
  let st' := Spec.stateOf (processLine parse st line) in
  currentResult st'
  = Spec.replay (currentResult st) (Spec.acceptedMessages parse [line])
  /\ buffer st' = buffer st /\ aborted st' = aborted st
  /\ resolved st' = resolved st /\ uncaught st' = uncaught st
  /\ processLine parse st line
     = if Spec.lineThrows parse line then Throws st' else Returns st'.
Proof.
  cbv zeta. rewrite processLine_cases, acceptedMessages_one. unfold Spec.lineThrows.
  destruct (acceptedMessage parse line) as [m|]; cbv zeta.
  - destruct (Spec.throwsOn m); cbn; repeat split; reflexivity.
  - cbn. repeat split; reflexivity.
Qed.

(** The loop over the lines of a chunk handles the lines up to the first
    one that throws, and all of them when none throws. *)
Lemma processLines_state (lines : list string) :
  forall st,
    let st' := listenerEnds (processLines parse st lines) in
    buffer st' = buffer st /\ aborted st' = aborted st /\ resolved st' = resolved st
    /\ exists msgs,
         currentResult st' = Spec.replay (currentResult st) msgs
         /\ (Spec.noneThrows (Spec.acceptedMessages parse lines) = true ->
             msgs = Spec.acceptedMessages parse lines /\ uncaught st' = uncaught st).
Proof.
  induction lines as [|line lines IH]; intros st; cbv zeta; cbn [processLines].
  - cbn [listenerEnds]. repeat (split; [reflexivity|]). exists []. auto.
  - destruct (processLine_state st line) as (Hr & Hb & Ha & Hv & Hu & Hcase).
    rewrite Hcase. destruct (Spec.lineThrows parse line) eqn:Hthrows.
    + cbn [listenerEnds buffer aborted resolved currentResult uncaught].
      repeat (split; [assumption|]).
      exists (Spec.acceptedMessages parse [line]). split; [exact Hr|].
      change (line :: lines) with ([line] ++ lines)%list.
      rewrite acceptedMessages_app, noneThrows_app, noneThrows_line, Hthrows.
      discriminate.
    + destruct (IH (Spec.stateOf (processLine parse st line)))
        as (Hb' & Ha' & Hv' & msgs & Hr' & Hclean).
      rewrite Hb', Ha', Hv', Hb, Ha, Hv. repeat (split; [reflexivity|]).
      exists (Spec.acceptedMessages parse [line] ++ msgs)%list.
      split; [rewrite Hr', Hr, replay_app; reflexivity|].
      change (line :: lines) with ([line] ++ lines)%list.
      rewrite acceptedMessages_app, noneThrows_app, noneThrows_line, Hthrows.
      cbn [negb andb]. intros Hnone. destruct (Hclean Hnone) as [-> ->].
      split; [reflexivity|exact Hu].
Qed.

(** What the listeners have done after any events: the buffer is the
    unfinished line of the text received, the result is the initial one
    with some messages handled and the text of stderr appended, and the
    messages handled are the accepted messages of the complete lines when
    none of these makes the handler throw. *)
Lemma events_state (hasSignal : bool) (initial : SingleResult) (evs : list ProcEvent) :
  forall (st : Runner) (received err : string) (msgs : list Value),
    buffer st = List.last (splitLines received) EmptyString ->
    currentResult st = appendStderr (Spec.replay initial msgs) err ->
    let st' := fold_left (onEvent parse hasSignal) evs st in
    let text := received ++ Spec.stdoutText evs in
    buffer st' = List.last (splitLines text) EmptyString
    /\ aborted st' = aborted st || Spec.abortFired hasSignal evs
    /\ resolved st' = resolved st
    /\ exists msgs',
         currentResult st'
         = appendStderr (Spec.replay initial msgs') (err ++ Spec.stderrText evs)
         /\ (msgs = Spec.acceptedMessages parse (removelast (splitLines received)) ->
             Spec.noneThrows
               (Spec.acceptedMessages parse (removelast (splitLines text))) = true ->
             msgs' = Spec.acceptedMessages parse (removelast (splitLines text))
             /\ uncaught st' = uncaught st).
Proof.
  induction evs as [|e evs IH]; intros st received err msgs Hbuf Hres; cbv zeta.
  - cbn [fold_left Spec.stdoutText Spec.stderrText].
    rewrite !string_app_nil_r. unfold Spec.abortFired. cbn [existsb].
    rewrite andb_false_r, orb_false_r.
    repeat (split; [auto|]). exists msgs. auto.
  - cbn [fold_left]. destruct e as [data|data|].
    + cbn [onEvent Spec.stdoutText Spec.stderrText].
      set (lines := splitLines (buffer st ++ data)).
      set (st0 := mkRunner (currentResult st) (List.last lines EmptyString)
                    (aborted st) (emitted st) (resolved st) (uncaught st)).
      destruct (processLines_state (removelast lines) st0)
        as (Hb & Ha & Hv & done & Hr & Hclean).
      set (st1 := listenerEnds (processLines parse st0 (removelast lines))) in *.
      assert (Hlast : List.last (splitLines (received ++ data)) EmptyString
                      = List.last lines EmptyString).
      { unfold lines. rewrite Hbuf. apply last_splitLines_app. }
      assert (Hinit : removelast (splitLines (received ++ data))
                      = (removelast (splitLines received) ++ removelast lines)%list).
      { unfold lines. rewrite Hbuf. apply removelast_splitLines_app. }
      rewrite <- string_app_assoc.
      destruct (IH st1 (received ++ data) err (msgs ++ done)%list)
        as (H1 & H2 & H3 & msgs' & H4 & H5).
      * rewrite Hb, Hlast. reflexivity.
      * rewrite Hr. cbn [st0 currentResult].
        rewrite Hres, replay_appendStderr, replay_app. reflexivity.
      * split; [exact H1|].
        split; [rewrite H2, Ha; unfold Spec.abortFired;
                cbn [existsb Spec.isAbortFired orb st0 aborted]; reflexivity|].
        split; [rewrite H3, Hv; reflexivity|].
        exists msgs'. split; [exact H4|].
        intros Hmsgs Hnone.
        assert (Hpart : Spec.noneThrows
                          (Spec.acceptedMessages parse (removelast lines)) = true).
        { rewrite removelast_splitLines_app, Hinit in Hnone.
          rewrite !acceptedMessages_app, !noneThrows_app in Hnone.
          apply andb_true_iff in Hnone as [Hnone _].
          apply andb_true_iff in Hnone as [_ Hnone]. exact Hnone. }
        destruct (Hclean Hpart) as [Hdone Hu].
        destruct H5 as [H5 H6].
        { rewrite Hinit, acceptedMessages_app, Hmsgs, Hdone. reflexivity. }
        { exact Hnone. }
        split; [exact H5|]. rewrite H6, Hu. reflexivity.
    + cbn [onEvent Spec.stdoutText Spec.stderrText].
      destruct (IH (withResult st (appendStderr (currentResult st) data)) received
                  (err ++ data) msgs) as (H1 & H2 & H3 & msgs' & H4 & H5).
      * exact Hbuf.
      * cbn [withResult currentResult]. rewrite Hres. apply appendStderr_app.
      * split; [exact H1|].
        split; [rewrite H2; unfold Spec.abortFired;
                cbn [existsb Spec.isAbortFired orb withResult aborted]; reflexivity|].
        split; [exact H3|].
        exists msgs'. split; [rewrite H4, string_app_assoc; reflexivity|exact H5].
    + cbn [onEvent Spec.stdoutText Spec.stderrText].
      unfold Spec.abortFired. cbn [existsb Spec.isAbortFired orb].
      destruct hasSignal.
      * destruct (IH (mkRunner (currentResult st) (buffer st) true (emitted st)
                        (resolved st) (uncaught st)) received err msgs Hbuf Hres)
          as (H1 & H2 & H3 & H4).
        split; [exact H1|].
        split; [rewrite H2; cbn [aborted andb orb]; rewrite orb_true_r; reflexivity|].
        split; [exact H3|exact H4].
      * destruct (IH st received err msgs Hbuf Hres) as (H1 & H2 & H3 & H4).
        split; [exact H1|].
        split; [rewrite H2; unfold Spec.abortFired; reflexivity|].
        split; [exact H3|exact H4].
Qed.

(** The listeners after all events of a process. *)
Lemma listen_state (hasSignal : bool) (initial : SingleResult) (p : Process) :
  let st := listen parse hasSignal initial p in
  buffer st = Spec.lastLine (events p)
  /\ aborted st = Spec.abortFired hasSignal (events p)
  /\ resolved st = None
  /\ exists msgs,
       currentResult st
       = appendStderr (Spec.replay initial msgs) (Spec.stderrText (events p))
       /\ (Spec.noneThrows
             (Spec.acceptedMessages parse
                (removelast (splitLines (Spec.stdoutText (events p))))) = true ->
           msgs = Spec.acceptedMessages parse
                    (removelast (splitLines (Spec.stdoutText (events p))))
           /\ uncaught st = 0%nat).
Proof.
  cbv zeta. unfold listen, Spec.lastLine.
  destruct (events_state hasSignal initial (events p)
              (mkRunner initial EmptyString false [] None 0) EmptyString EmptyString [])
    as (Hb & Ha & Hv & msgs & Hr & Hclean).
  { reflexivity. }
  { cbn. symmetry. apply appendStderr_nil. }
  cbn [append aborted orb resolved uncaught] in Hb, Ha, Hv, Hr, Hclean.
  split; [exact Hb|]. split; [exact Ha|]. split; [exact Hv|].
  exists msgs. split; [exact Hr|]. intros Hnone. apply Hclean; [reflexivity|exact Hnone].
Qed.

Lemma acceptedMessage_blank (line : string) :
  truthy (trim line) = false -> acceptedMessage parse line = None.
Proof. intros H. unfold acceptedMessage, parseJsonLine. rewrite H. reflexivity. Qed.

(** The close listener: the line left in the buffer is handled, and unless
    that throws the exit code is recorded, the abort marked and the promise
    resolved. *)
Lemma onClose_state (st : Runner) (code : option Z) :
  let st' := onClose parse st code in
  let flushed :=
    Spec.replay (currentResult st) (Spec.acceptedMessages parse [buffer st]) in
  if Spec.lineThrows parse (buffer st)
  then currentResult st' = flushed /\ resolved st' = resolved st
       /\ uncaught st' = S (uncaught st)
  else currentResult st' = Spec.closed flushed (default 0 code) (aborted st)
       /\ resolved st' = Some (default (default 0 code) (resolved st))
       /\ uncaught st' = uncaught st.
Proof.
  cbv zeta. unfold onClose.
  assert (Hdone : forall st0 : Runner,
            let result :=
              if aborted st0
              then setStopReason (setExitCode (currentResult st0) (default 0 code))
                     (Some "aborted")
              else setExitCode (currentResult st0) (default 0 code) in
            currentResult (resolve (withResult st0 result) (default 0 code))
            = Spec.closed (currentResult st0) (default 0 code) (aborted st0)
            /\ resolved (resolve (withResult st0 result) (default 0 code))
               = Some (default (default 0 code) (resolved st0))
            /\ uncaught (resolve (withResult st0 result) (default 0 code)) = uncaught st0).
  { intros [cur buf ab em [v|] un]; destruct ab; cbn; repeat split; reflexivity. }
  destruct (truthy (trim (buffer st))) eqn:Ht.
  - destruct (processLine_state st (buffer st)) as (Hr & Hb & Ha & Hv & Hu & Hcase).
    rewrite Hcase. destruct (Spec.lineThrows parse (buffer st)).
    + cbn [listenerEnds currentResult resolved uncaught]. rewrite Hr, Hv, Hu. auto.
    + cbv zeta. destruct (Hdone (Spec.stateOf (processLine parse st (buffer st))))
        as (H1 & H2 & H3).
      rewrite H1, H2, H3, Hr, Ha, Hv, Hu. auto.
  - unfold Spec.lineThrows. rewrite acceptedMessages_one.
    rewrite (acceptedMessage_blank _ Ht). cbv zeta. apply Hdone.
Qed.

End Stream.






Lemma replay_messages (msgs : list Value) :
  forall r, messages (Spec.replay r msgs) = (messages r ++ msgs)%list.
Proof.
  unfold Spec.replay. induction msgs as [|m msgs IH]; intros r; cbn [fold_left].
  - rewrite app_nil_r. reflexivity.
  - rewrite IH, messages_handled, <- app_assoc. reflexivity.
Qed.

Lemma handled_setExitCode (r : SingleResult) (code : Z) (m : Value) :
  Spec.handled (setExitCode r code) m = setExitCode (Spec.handled r m) code.
Proof.
  unfold Spec.handled, handleEventMessage, applyAssistantUsage, recordFields. cbv zeta.
  destruct (roleIs m "assistant"); cbn [negb]; [|reflexivity].
  destruct (usageMissing m); [reflexivity|].
  cbn [Spec.stateOf r_model countTurn setUsage pushMessage setExitCode].
  destruct (negb (truthyOpt (r_model r)) && truthyOpt (stringField m "model"));
    destruct (truthyOpt (stringField m "stopReason"));
    destruct (truthyOpt (stringField m "errorMessage")); reflexivity.
Qed.

Lemma replay_setExitCode (msgs : list Value) :
  forall r code, Spec.replay (setExitCode r code) msgs = setExitCode (Spec.replay r msgs) code.
Proof.
  unfold Spec.replay. induction msgs as [|m msgs IH]; intros r code; cbn [fold_left].
  - reflexivity.
  - rewrite handled_setExitCode. apply IH.
Qed.

Lemma closed_again (r : SingleResult) (code : Z) (fired : bool) :
  setExitCode (Spec.closed r code fired) code = Spec.closed r code fired.
Proof. unfold Spec.closed. destruct fired; reflexivity. Qed.

(** A process that has closed. The messages handled are those that the
    listeners got to; unless the line left in the buffer makes the close
    listener throw, the result is closed with the code of the process and
    the promise is resolved with it. *)
Lemma runProcess_close (parse : string -> option Value) (hasSignal waits : bool)
    (initial : SingleResult) (p : Process) (code : option Z) :
  ending p = Close code ->
  let st := runProcess parse hasSignal waits initial p in
  exists msgs,
    (let base := appendStderr (Spec.replay initial msgs) (Spec.stderrText (events p)) in
     if Spec.lineThrows parse (Spec.lastLine (events p))
     then currentResult st = base /\ resolved st = None
     else currentResult st
          = Spec.closed base (default 0 code) (Spec.abortFired hasSignal (events p))
          /\ resolved st = Some (default 0 code))
    /\ (Spec.reportsUsage parse p = true ->
        msgs = Spec.acceptedMessages parse (splitLines (Spec.stdoutText (events p)))
        /\ Spec.lineThrows parse (Spec.lastLine (events p)) = false
        /\ uncaught st = 0%nat).
Proof.
  intros Hend. cbv zeta. unfold runProcess. rewrite Hend.
  destruct (listen_state parse hasSignal initial p) as (Hb & Ha & Hv & msgs & Hr & Hclean).
  set (st := listen parse hasSignal initial p) in *.
  pose proof (onClose_state parse st code) as Hclose. cbv zeta in Hclose.
  rewrite Hb, Ha, Hv, Hr in Hclose.
  rewrite replay_appendStderr, <- replay_app in Hclose.
  exists (msgs ++ Spec.acceptedMessages parse [Spec.lastLine (events p)])%list.
  assert (Hlines : splitLines (Spec.stdoutText (events p))
                   = (removelast (splitLines (Spec.stdoutText (events p)))
                      ++ [Spec.lastLine (events p)])%list).
  { symmetry. apply removelast_last_id. apply splitLines_nonempty. }
  split.
  - cbv zeta. destruct (Spec.lineThrows parse (Spec.lastLine (events p))).
    + destruct Hclose as (H1 & H2 & _). unfold resume. rewrite H2. auto.
    + destruct Hclose as (H1 & H2 & _). unfold resume. rewrite H2.
      cbn [default withResult currentResult resolved].
      rewrite H1, closed_again. auto.
  - unfold Spec.reportsUsage. rewrite Hlines, acceptedMessages_app, noneThrows_app.
    intros Hnone. apply andb_true_iff in Hnone as [Hnone Hlast].
    destruct (Hclean Hnone) as [-> Hu].
    rewrite noneThrows_line in Hlast. apply negb_true_iff in Hlast.
    split; [reflexivity|]. split; [exact Hlast|].
    rewrite Hlast in Hclose. destruct Hclose as (_ & H2 & H3).
    unfold resume. rewrite H2. cbn [withResult uncaught]. rewrite H3. exact Hu.
Qed.



(** ** Abort and failure *)

(** A task that spawned a process returns what the listeners of the process
    leave behind; it waits for the removal of a fork session exactly when
    it forks. *)
Lemma runSingleTask_run (w : World) (options : RunOptions) (args : list string) :
  spawnedArgs (runSingleTask w options) = Some args ->
  let proc := spawn w (o_index options) args in
  let st :=
    runProcess (JSON_parse w) (o_signal options) (o_fork options)
      (Spec.initialResult options) proc in
  let final :=
    afterProcess (JSON_parse w) (o_signal options) (Spec.initialResult options) proc in
  runSingleTask w options
  = mkRunOutcome (currentResult st) (emitted st) (Some args) (isResolved st)
      (currentResult final) (uncaught final).
Proof.
  unfold runSingleTask. fold (Spec.initialResult options).
  destruct (o_fork options).
  - destruct (negb (truthyOpt (o_sessionFile options))); [discriminate|].
    destruct (createForkSession w _ _); [|discriminate].
    cbn [spawnedArgs]. intros H. injection H as <-. reflexivity.
  - cbn [spawnedArgs]. intros H. injection H as <-. reflexivity.
Qed.






(** ** The fork prerequisite *)

Lemma parseTaskItem_fork (index : nat) (e : Value) (it : TaskWorkItem) :
  parseTaskItem index e = Ok it ->
  get e "fork" = Bool true \/ get e "fork" = Undefined ->
  fork it = true.
Proof.
  unfold parseTaskItem. destruct (negb (isRecord e)); [discriminate|].
  destruct (_ && _); [discriminate|].
  destruct (normalizeModelInput _ _); [|discriminate].
  destruct (normalizeThinkingInput _ _); [|discriminate].
  intros H [Hf|Hf]; rewrite Hf in H; cbn in H; injection H as <-; reflexivity.
Qed.

(** The items parsed are those pushed before, then one for each entry. *)
Lemma parseTaskItemsFrom_items (raw : list Value) :
  forall index acc parsed,
    parseTaskItemsFrom index raw acc = Ok parsed ->
    length parsed = (length acc + length raw)%nat
    /\ (forall it, In it acc -> In it parsed)
    /\ (forall e, In e raw -> exists i it, parseTaskItem i e = Ok it /\ In it parsed).
Proof.
  induction raw as [|e raw IH]; intros index acc parsed H; cbn [parseTaskItemsFrom] in H.
  - injection H as <-. cbn. split; [lia|]. split; [auto|]. intros e [].
  - destruct (parseTaskItem index e) as [it|] eqn:Hit; [|discriminate].
    destruct (IH _ _ _ H) as (Hlen & Hacc & Hraw).
    rewrite length_app in Hlen. cbn in Hlen. split; [cbn; lia|]. split.
    + intros it' Hin. apply Hacc. apply in_or_app. left. exact Hin.
    + intros e' [<-|Hin].
      * exists index, it. split; [exact Hit|].
        apply Hacc. apply in_or_app. right. left. reflexivity.
      * apply Hraw. exact Hin.
Qed.

Lemma normalized_items (params : Value) (options : Options) (n : NormalizedParams)
    (raw : list Value) (e : Value) :
  normalizeTaskParams params options = Ok n ->
  get params "tasks" = Arr raw -> In e raw ->
  exists i it, parseTaskItem i e = Ok it /\ In it (items n).
Proof.
  unfold normalizeTaskParams. destruct (negb (isRecord params)); [discriminate|].
  destruct (get params "type"); try discriminate.
  destruct (normalizeModelInput _ _); [|discriminate].
  destruct (normalizeThinkingInput _ _); [|discriminate].
  intros H Hraw Hin. rewrite Hraw in H. cbv zeta in H.
  destruct (String.eqb s "single").
  { destruct (Z.eqb_spec (Z.of_nat (length raw)) 1) as [Hone|]; [|discriminate].
    cbn [negb] in H.
    destruct (parseTaskItems raw) as [parsed|] eqn:Hp; [|discriminate].
    injection H as <-. cbn [items].
    destruct (parseTaskItemsFrom_items _ _ _ _ Hp) as (Hlen & _ & Hall).
    destruct (Hall e Hin) as (i & it & Hit & Hitin).
    exists i, it. split; [exact Hit|].
    rewrite firstn_all2; [exact Hitin|]. cbn in Hlen. lia. }
  destruct (String.eqb s "parallel").
  { destruct (_ =? 0); [discriminate|]. destruct (_ >? _); [discriminate|].
    destruct (parseTaskItems raw) as [parsed|] eqn:Hp; [|discriminate].
    injection H as <-. cbn [items].
    destruct (parseTaskItemsFrom_items _ _ _ _ Hp) as (_ & _ & Hall). auto. }
  destruct (String.eqb s "chain"); [|discriminate].
  destruct (_ =? 0); [discriminate|]. destruct (_ >? _); [discriminate|].
  destruct (parseTaskItems raw) as [parsed|] eqn:Hp; [|discriminate].
  injection H as <-. cbn [items].
  destruct (parseTaskItemsFrom_items _ _ _ _ Hp) as (_ & _ & Hall). auto.
Qed.

(** C8. When an item of a request forks ([fork] is true, or is left out and
    defaults to true) and the session has no persisted file, the call runs
    no task, spawns no subprocess and sends no update, and it returns an
    error with no results: for a request that normalizes, in single, chain
    and parallel mode alike, the message about the missing session file. *)
Theorem fork_needs_session_file (w : World) (env : Env) (params : Value)
    (schedule : list nat) (raw : list Value) (entry : Value) :
  get params "tasks" = Arr raw ->
  In entry raw ->
  get entry "fork" = Bool true \/ get entry "fork" = Undefined ->
  truthyOpt (sessionFileOfSession env) = false ->
  let E := execute w env params schedule in
  spawned E = [] /\ ran E = [] /\ updates E = []
  /\ exists r,
       returned E = Some r
       /\ d_results (details r) = []
       /\ forall n,
            normalizeTaskParams params (mkOptions (envMaxParallelTasks env)) = Ok n ->
            r = mkToolResult Spec.forkPrerequisiteMessage
                  (mkDetails (mode n) (sharedModel n) []) false.
Proof.
  intros Hraw Hin Hfork Hsession. cbn zeta. unfold execute.
  destruct (normalizeTaskParams params (mkOptions (envMaxParallelTasks env)))
    as [n|e] eqn:Hn.
  - destruct (normalized_items _ _ _ _ _ Hn Hraw Hin) as (i & it & Hit & Hitin).
    assert (Hreq : existsb fork (items n) = true).
    { apply existsb_exists. exists it. split; [exact Hitin|].
      eapply parseTaskItem_fork; eauto. }
    rewrite Hreq, Hsession. cbn.
    repeat split. eexists. split; [reflexivity|]. split; [reflexivity|].
    intros n' Hn'. injection Hn' as <-. reflexivity.
  - cbn. repeat split. eexists. split; [reflexivity|]. split; [reflexivity|].
    intros n' Hn'. discriminate.
Qed.

Lemma fork_needs_session_file_witness :
  let tasks := [Obj [("prompt", Str "one")];
                Obj [("prompt", Str "two"); ("fork", Bool false)]] in
  let run mode :=
    execute (Samples.world (fun _ _ => Samples.says "done")) (Samples.env 4)
      (Obj [("type", Str mode); ("tasks", Arr tasks)]) [] in
  truthyOpt (sessionFileOfSession (Samples.env 4)) = false
  /\ spawned (run "single") = [] /\ spawned (run "chain") = []
  /\ spawned (run "parallel") = [] /\ ran (run "parallel") = [].
Proof.
  cbv zeta. split; [reflexivity|].
  pose proof (fun mode =>
    fork_needs_session_file (Samples.world (fun _ _ => Samples.says "done"))
      (Samples.env 4)
      (Obj [("type", Str mode);
            ("tasks", Arr [Obj [("prompt", Str "one")];
                           Obj [("prompt", Str "two"); ("fork", Bool false)]])])
      [] _ (Obj [("prompt", Str "one")]) eq_refl (or_introl eq_refl)
      (or_intror eq_refl) eq_refl) as H.
  cbv zeta in H.
  destruct (H "single") as (Hs1 & _).
  destruct (H "chain") as (Hs2 & _).
  destruct (H "parallel") as (Hs3 & Hr3 & _).
  auto.
Defined.

Example fork_message_in_chain_mode :
  option_map text
    (returned
       (execute (Samples.world (fun _ _ => Samples.says "done")) (Samples.env 4)
          (Obj [("type", Str "chain"); ("tasks", Arr [Obj [("prompt", Str "one")]])]) []))
  = Some Spec.forkPrerequisiteMessage.
Proof. reflexivity. Qed.

(** ** Chain prompts *)

Lemma getSubstitution_no_dollar (matched before after template : string) :
  Spec.occurs "$" template = false ->
  getSubstitution matched before after template = template.
Proof.
  induction template as [|c rest IH]; [reflexivity|].
  cbn [Spec.occurs getSubstitution]. intros H.
  apply orb_false_iff in H as [Hc Hrest].
  rewrite Ascii.eqb_sym in Hc. rewrite Hc, (IH Hrest). reflexivity.
Qed.

Lemma replacePrevious_no_dollar (replacement s : string) :
  Spec.occurs "$" replacement = false ->
  forall before skip,
    replacePrevious before s skip replacement = Spec.replaceLiteral s skip replacement.
Proof.
  intros Hno. induction s as [|c s IH]; intros before skip; [reflexivity|].
  cbn [replacePrevious Spec.replaceLiteral]. destruct skip as [|k].
  - destruct (String.prefix previousToken (String c s)).
    + rewrite getSubstitution_no_dollar by exact Hno. rewrite IH. reflexivity.
    + rewrite IH. reflexivity.
  - apply IH.
Qed.

(** When the previous output holds no dollar sign, the prompt of a step is
    its own prompt with every token replaced by that output, literally. *)
Lemma buildChainPrompt_literal (prompt previousOutput : string) :
  Spec.occurs "$" previousOutput = false ->
  buildChainPrompt prompt previousOutput = Spec.replaceLiteral prompt 0 previousOutput.
Proof. intros H. apply replacePrevious_no_dollar. exact H. Qed.

Lemma buildChainPrompt_literal_witness :
  Spec.occurs "$" "X is here" = false
  /\ buildChainPrompt "{previous}? summarize: {previous}" "X is here"
     = "X is here? summarize: X is here".
Proof.
  split; [reflexivity|].
  exact (eq_trans
           (buildChainPrompt_literal "{previous}? summarize: {previous}" "X is here" eq_refl)
           eq_refl).
Defined.

Example chain_prompt_of_the_spec :
  buildChainPrompt "summarize: {previous}" "X is here" = "summarize: X is here".
Proof. reflexivity. Qed.

Example first_step_prompt :
  buildChainPrompt "find X in {previous}." EmptyString = "find X in .".
Proof. reflexivity. Qed.

(** C5, at the failing input. An output that holds a dollar sign is not
    inserted literally: [$$] becomes one dollar sign and [$&] becomes the
    token itself. The two-step chain below runs its second process on the
    prompt with one dollar sign, where the output of the first step has two. *)
Lemma chain_prompt_reads_dollar_patterns :
  buildChainPrompt "explain: {previous}" "$$ is the PID" = "explain: $ is the PID"
  /\ Spec.replaceLiteral "explain: {previous}" 0 "$$ is the PID" = "explain: $$ is the PID"
  /\ buildChainPrompt "explain: {previous}" "use $& here" = "explain: use {previous} here"
  /\ map (fun args => List.last args EmptyString)
       (spawned
          (execute
             (Samples.world (fun index _ =>
                match index with
                | Some 1%nat => Samples.says "$$ is the PID"
                | _ => Samples.says "done"
                end))
             (Samples.env 4)
             (Samples.request "chain"
                [Samples.task "print the PID variable"; Samples.task "explain: {previous}"])
             []))
     = ["print the PID variable"; "explain: $ is the PID"].
Proof. repeat split; vm_compute; reflexivity. Qed.

(** ** Chain mode *)



(** A process that could not be started: the error listener resolves the
    promise with 1, and a close event that follows leaves it so. *)
Lemma spawnError_state (parse : string -> option Value) (hasSignal : bool)
    (initial : SingleResult) (p : Process) (code : option Z) :
  let st := resume (onError (listen parse hasSignal initial p)) in
  let st' := onClose parse st code in
  resolved st = Some 1 /\ resolved st' = Some 1
  /\ exists msgs msgs',
       currentResult st
       = setExitCode
           (appendStderr (Spec.replay initial msgs) (Spec.stderrText (events p))) 1
       /\ currentResult st'
          = (let base :=
               appendStderr (Spec.replay initial msgs') (Spec.stderrText (events p)) in
             if Spec.lineThrows parse (Spec.lastLine (events p))
             then setExitCode base 1
             else Spec.closed base (default 0 code)
                    (Spec.abortFired hasSignal (events p))).
Proof.
  cbv zeta.
  destruct (listen_state parse hasSignal initial p) as (Hb & Ha & Hv & msgs & Hr & _).
  set (st0 := listen parse hasSignal initial p) in *.
  assert (Hst : resume (onError st0)
                = mkRunner (setExitCode (currentResult st0) 1) (buffer st0) (aborted st0)
                    (emitted st0) (Some 1) (uncaught st0)).
  { unfold onError, resolve, resume. cbn [withResult resolved]. rewrite Hv. reflexivity. }
  rewrite Hst.
  pose proof (onClose_state parse
                (mkRunner (setExitCode (currentResult st0) 1) (buffer st0) (aborted st0)
                   (emitted st0) (Some 1) (uncaught st0)) code) as Hclose.
  cbv zeta in Hclose. cbn [buffer currentResult resolved aborted uncaught] in Hclose.
  rewrite Hb, Ha, Hr in Hclose.
  assert (Hflushed :
    Spec.replay
      (setExitCode
         (appendStderr (Spec.replay initial msgs) (Spec.stderrText (events p))) 1)
      (Spec.acceptedMessages parse [Spec.lastLine (events p)])
    = setExitCode
        (appendStderr
           (Spec.replay initial
              (msgs ++ Spec.acceptedMessages parse [Spec.lastLine (events p)]))
           (Spec.stderrText (events p))) 1).
  { rewrite replay_setExitCode, replay_appendStderr, <- replay_app. reflexivity. }
  rewrite Hflushed in Hclose. rewrite Hb, Ha, Hr.
  split; [reflexivity|].
  split; [destruct (Spec.lineThrows parse (Spec.lastLine (events p)));
          destruct Hclose as (_ & -> & _); reflexivity|].
  exists msgs, (msgs ++ Spec.acceptedMessages parse [Spec.lastLine (events p)])%list.
  split; [reflexivity|].
  cbv zeta. destruct (Spec.lineThrows parse (Spec.lastLine (events p)));
    destruct Hclose as (-> & _ & _); [reflexivity|].
  unfold Spec.closed. destruct (Spec.abortFired hasSignal (events p)); reflexivity.
Qed.


Section ChainFacts.

Variable w : World.
Variable env : Env.
Variable n : NormalizedParams.
Variable sessionFile : option string.
Hypothesis everyTaskReturns : forall o, taskReturns (runSingleTask w o) = true.



End ChainFacts.



Lemma chainPlaceholders_length (n : NormalizedParams) :
  length (chainPlaceholders n) = length (items n).
Proof. unfold chainPlaceholders. apply length_imap. Qed.




(** When the close listener of a step throws, the step never returns and
    neither does the chain: the steps before it have run, no later step is
    started, and the call returns nothing. *)
Lemma chain_waits_for_step_that_never_returns :
  let w :=
    Samples.bareWorld (fun index _ =>
      match index with
      | Some 2%nat => Samples.abortedUnfinished
      | _ => Samples.says "done"
      end) in
  let E := executeChain w (Samples.env 4) Samples.threeSteps None in
  ~ Spec.closesCleanly w /\ returned E = None /\ ran E = [Some 1%nat; Some 2%nat].
Proof.
  cbv zeta. split.
  - intros Hclean. specialize (Hclean (Some 2%nat) []). vm_compute in Hclean. discriminate.
  - split; vm_compute; reflexivity.
Qed.

(** ** The scheduler *)

Section SchedulerFacts.

Context {TIn TOut : Type}.
Variable items : list TIn.
Variable concurrency : Z.
Variable fn : TIn -> nat -> TOut.

Local Abbreviation Inv := (Spec.schedInv items concurrency fn).

Lemma limit_positive : (1 <= limit items concurrency)%nat.
Proof. unfold limit. lia. Qed.

Lemma limit_le_length : items <> [] -> (limit items concurrency <= length items)%nat.
Proof.
  intros H. unfold limit. destruct items; [contradiction|]. cbn [length]. lia.
Qed.

Lemma limit_is_min :
  1 <= concurrency -> items <> [] ->
  limit items concurrency = Nat.min (Z.to_nat concurrency) (length items).
Proof.
  intros Hc H. unfold limit. destruct items; [contradiction|]. cbn [length]. lia.
Qed.

(** Replacing one worker changes the number in flight by that worker. *)
Lemma awaiting_count_insert (l : list Worker) (w : nat) (old new : Worker) :
  l !! w = Some old ->
  (length (List.filter isAwaiting (<[w := new]> l)) + (if isAwaiting old then 1 else 0))%nat
  = (length (List.filter isAwaiting l) + (if isAwaiting new then 1 else 0))%nat.
Proof.
  revert w. induction l as [|x l IH]; intros w H; [discriminate|].
  destruct w as [|w]; cbn in H.
  - injection H as ->. destruct old, new; cbn; lia.
  - specialize (IH w H).
    change (<[S w := new]> (x :: l)) with (x :: <[w := new]> l).
    cbn [List.filter].
    destruct (isAwaiting x), (isAwaiting old), (isAwaiting new); cbn [length] in *; lia.
Qed.

Lemma awaiting_count_le (l : list Worker) :
  (length (List.filter isAwaiting l) <= length l)%nat.
Proof. induction l as [|x l IH]; cbn; [lia|]. destruct (isAwaiting x); cbn; lia. Qed.

(** A worker that does not await claims the next index. *)
Lemma runWorker_inv (st : Sched) (w : nat) :
  Inv st -> workers st !! w = Some Fresh -> Inv (runWorker items w st).
Proof.
  intros [Hres Hwk Hst Haw Hdis Hsl Hcl Hun Hret Hcnt] Hw.
  assert (Hwlt : (w < length (workers st))%nat) by (eapply lookup_lt_Some; eauto).
  unfold runWorker. set (c := nextIndex st) in *.
  destruct (items !! c) as [x|] eqn:Hc.
  - assert (Hclt : (c < length items)%nat) by (eapply lookup_lt_Some; eauto).
    constructor; cbn [nextIndex results workers started settled].
    + exact Hres.
    + rewrite length_insert. exact Hwk.
    + rewrite Hst. replace (Nat.min c (length items)) with c by lia.
      replace (Nat.min (S c) (length items)) with (S c) by lia.
      rewrite seq_S. reflexivity.
    + intros w' i Hi. destruct (Nat.eq_dec w' w) as [->|Hne].
      * rewrite list_lookup_insert_eq in Hi by exact Hwlt. injection Hi as <-.
        split; [lia|]. split; [exact Hclt|]. apply Hun; [lia|exact Hclt].
      * rewrite list_lookup_insert_ne in Hi by congruence.
        destruct (Haw w' i Hi) as (H1 & H2 & H3). split; [lia|auto].
    + intros w1 w2 i H1 H2.
      destruct (Nat.eq_dec w1 w) as [->|Hne1], (Nat.eq_dec w2 w) as [->|Hne2]; auto.
      * rewrite list_lookup_insert_eq in H1 by exact Hwlt. injection H1 as <-.
        rewrite list_lookup_insert_ne in H2 by congruence.
        destruct (Haw w2 c H2) as (Hlt & _). lia.
      * rewrite list_lookup_insert_eq in H2 by exact Hwlt. injection H2 as <-.
        rewrite list_lookup_insert_ne in H1 by congruence.
        destruct (Haw w1 c H1) as (Hlt & _). lia.
      * rewrite list_lookup_insert_ne in H1, H2 by congruence. eauto.
    + exact Hsl.
    + intros i Hi Hnone. destruct (Nat.eq_dec i c) as [->|Hne].
      * exists w. apply list_lookup_insert_eq. exact Hwlt.
      * destruct (Hcl i) as [w0 Hw0]; [lia|exact Hnone|].
        exists w0. rewrite list_lookup_insert_ne; [exact Hw0|congruence].
    + intros i Hi Hlt. apply Hun; [lia|exact Hlt].
    + intros w' Hr. destruct (Nat.eq_dec w' w) as [->|Hne].
      * rewrite list_lookup_insert_eq in Hr by exact Hwlt. discriminate.
      * rewrite list_lookup_insert_ne in Hr by congruence.
        pose proof (Hret w' Hr). lia.
    + unfold inFlight in *. cbn [workers].
      pose proof (awaiting_count_insert (workers st) w Fresh (Awaiting c) Hw) as Hins.
      cbn in Hins. lia.
  - assert (Hcge : (length items <= c)%nat) by (eapply lookup_ge_None; eauto).
    constructor; cbn [nextIndex results workers started settled].
    + exact Hres.
    + rewrite length_insert. exact Hwk.
    + rewrite Hst. f_equal. lia.
    + intros w' i Hi. destruct (Nat.eq_dec w' w) as [->|Hne].
      * rewrite list_lookup_insert_eq in Hi by exact Hwlt. discriminate.
      * rewrite list_lookup_insert_ne in Hi by congruence.
        destruct (Haw w' i Hi) as (H1 & H2 & H3). split; [lia|auto].
    + intros w1 w2 i H1 H2.
      destruct (Nat.eq_dec w1 w) as [->|Hne1].
      { rewrite list_lookup_insert_eq in H1 by exact Hwlt. discriminate. }
      destruct (Nat.eq_dec w2 w) as [->|Hne2].
      { rewrite list_lookup_insert_eq in H2 by exact Hwlt. discriminate. }
      rewrite list_lookup_insert_ne in H1, H2 by congruence. eauto.
    + exact Hsl.
    + intros i Hi Hnone. destruct (Hcl i) as [w0 Hw0]; [lia|exact Hnone|].
      exists w0. rewrite list_lookup_insert_ne; [exact Hw0|congruence].
    + intros i Hi Hlt. lia.
    + intros w' Hr. lia.
    + unfold inFlight in *. cbn [workers].
      pose proof (awaiting_count_insert (workers st) w Fresh Returned Hw) as Hins.
      cbn in Hins. lia.
Qed.

(** A promise is fulfilled and its value stored. *)
Lemma fulfilled_inv (st : Sched) (w i : nat) (x : TIn) :
  Inv st -> workers st !! w = Some (Awaiting i) -> items !! i = Some x ->
  Inv (Spec.fulfilled st w i (fn x i)).
Proof.
  intros [Hres Hwk Hst Haw Hdis Hsl Hcl Hun Hret Hcnt] Hw Hx.
  assert (Hwlt : (w < length (workers st))%nat) by (eapply lookup_lt_Some; eauto).
  destruct (Haw w i Hw) as (Hinext & Hilen & Hinone).
  assert (Hires : (i < length (results st))%nat) by lia.
  unfold Spec.fulfilled.
  constructor; cbn [nextIndex results workers started settled].
  - rewrite length_insert. exact Hres.
  - rewrite length_insert. exact Hwk.
  - exact Hst.
  - intros w' i' Hi'. destruct (Nat.eq_dec w' w) as [->|Hne].
    + rewrite list_lookup_insert_eq in Hi' by exact Hwlt. discriminate.
    + rewrite list_lookup_insert_ne in Hi' by congruence.
      destruct (Haw w' i' Hi') as (H1 & H2 & H3).
      split; [exact H1|]. split; [exact H2|].
      rewrite list_lookup_insert_ne; [exact H3|].
      intros ->. apply Hne. eapply Hdis; eauto.
  - intros w1 w2 i' H1 H2.
    destruct (Nat.eq_dec w1 w) as [->|Hne1].
    { rewrite list_lookup_insert_eq in H1 by exact Hwlt. discriminate. }
    destruct (Nat.eq_dec w2 w) as [->|Hne2].
    { rewrite list_lookup_insert_eq in H2 by exact Hwlt. discriminate. }
    rewrite list_lookup_insert_ne in H1, H2 by congruence. eauto.
  - intros i' v Hv. destruct (Nat.eq_dec i' i) as [->|Hne].
    + rewrite list_lookup_insert_eq in Hv by exact Hires. injection Hv as <-. eauto.
    + rewrite list_lookup_insert_ne in Hv by congruence. eauto.
  - intros i' Hi' Hnone. destruct (Nat.eq_dec i' i) as [->|Hne].
    + rewrite list_lookup_insert_eq in Hnone by exact Hires. discriminate.
    + rewrite list_lookup_insert_ne in Hnone by congruence.
      destruct (Hcl i' Hi' Hnone) as [w0 Hw0]. exists w0.
      rewrite list_lookup_insert_ne; [exact Hw0|].
      intros <-. rewrite Hw in Hw0. injection Hw0 as ->. contradiction.
  - intros i' Hi' Hlt. rewrite list_lookup_insert_ne by lia. apply Hun; assumption.
  - intros w' Hr. destruct (Nat.eq_dec w' w) as [->|Hne].
    + rewrite list_lookup_insert_eq in Hr by exact Hwlt. discriminate.
    + rewrite list_lookup_insert_ne in Hr by congruence. eauto.
  - unfold inFlight in *. cbn [workers]. rewrite length_app. cbn [length].
    pose proof (awaiting_count_insert (workers st) w (Awaiting i) Fresh Hw) as Hins.
    cbn in Hins. lia.
Qed.

Lemma settle_as_fulfilled (st : Sched) (w i : nat) (x : TIn) :
  workers st !! w = Some (Awaiting i) -> items !! i = Some x ->
  settle items fn st w = runWorker items w (Spec.fulfilled st w i (fn x i)).
Proof.
  intros Hw Hx. unfold settle. rewrite Hw, Hx.
  unfold runWorker, Spec.fulfilled. cbn [nextIndex results workers started settled].
  destruct (items !! nextIndex st); rewrite list_insert_insert_eq; reflexivity.
Qed.

Lemma settle_inv (st : Sched) (w : nat) : Inv st -> Inv (settle items fn st w).
Proof.
  intros HI. destruct (workers st !! w) as [[|i|]|] eqn:Hw;
    try (unfold settle; rewrite Hw; exact HI).
  destruct (Spec.inv_awaiting _ _ _ _ HI w i Hw) as (_ & Hilen & _).
  destruct (lookup_lt_is_Some_2 items i Hilen) as [x Hx].
  rewrite (settle_as_fulfilled st w i x Hw Hx).
  apply runWorker_inv; [apply fulfilled_inv; assumption|].
  unfold Spec.fulfilled. cbn [workers]. apply list_lookup_insert_eq.
  eapply lookup_lt_Some; eauto.
Qed.

Lemma initial_inv :
  Inv (mkSched 0 (replicate (length items) None)
         (replicate (limit items concurrency) Fresh) [] []).
Proof.
  constructor; cbn [nextIndex results workers started settled].
  - apply length_replicate.
  - apply length_replicate.
  - reflexivity.
  - intros w i H. apply lookup_replicate in H as [H _]. discriminate.
  - intros w w' i H. apply lookup_replicate in H as [H _]. discriminate.
  - intros i v H. apply lookup_replicate in H as [H _]. discriminate.
  - intros i H. cbn in H. lia.
  - intros i _ H. apply lookup_replicate. auto.
  - intros w H. apply lookup_replicate in H as [H _]. discriminate.
  - unfold inFlight. cbn [workers length Nat.min Nat.add].
    induction (limit items concurrency) as [|k IH]; [reflexivity|exact IH].
Qed.

(** The workers are started one after the other. *)
Lemma started_workers (j : nat) :
  (j <= limit items concurrency)%nat ->
  let st := fold_left (fun st w => runWorker items w st) (seq 0 j)
              (mkSched 0 (replicate (length items) None)
                 (replicate (limit items concurrency) Fresh) [] []) in
  Inv st
  /\ (forall w, (j <= w < limit items concurrency)%nat -> workers st !! w = Some Fresh)
  /\ (forall w, (w < j)%nat -> workers st !! w <> Some Fresh).
Proof.
  induction j as [|j IH]; intros Hj; cbn zeta.
  - cbn [seq fold_left]. split; [apply initial_inv|]. split; [|intros; lia].
    intros w Hw. cbn [workers]. apply lookup_replicate. split; [reflexivity|lia].
  - rewrite seq_S, fold_left_app. cbn [fold_left Nat.add].
    destruct IH as (HI & Hfresh & Hold); [lia|].
    set (st := fold_left (fun st w => runWorker items w st) (seq 0 j) _) in *.
    assert (Hw : workers st !! j = Some Fresh) by (apply Hfresh; lia).
    assert (Hlt : (j < length (workers st))%nat) by (eapply lookup_lt_Some; eauto).
    split; [apply runWorker_inv; assumption|].
    assert (Hwk : exists x, x <> Fresh
                            /\ workers (runWorker items j st) = <[j := x]> (workers st)).
    { unfold runWorker. destruct (items !! nextIndex st); cbn [workers];
        eexists; (split; [|reflexivity]); discriminate. }
    destruct Hwk as (x & Hx & ->). split.
    + intros w Hw'. rewrite list_lookup_insert_ne by lia. apply Hfresh. lia.
    + intros w Hw'. destruct (Nat.eq_dec w j) as [->|Hne].
      * rewrite list_lookup_insert_eq by exact Hlt. congruence.
      * rewrite list_lookup_insert_ne by congruence. apply Hold. lia.
Qed.

Lemma startWorkers_inv :
  Inv (startWorkers items concurrency)
  /\ @Spec.noFresh TOut (startWorkers items concurrency).
Proof.
  destruct (started_workers (limit items concurrency) (Nat.le_refl _))
    as (HI & _ & Hold).
  split; [exact HI|]. intros w Hw.
  apply (Hold w); [|exact Hw].
  rewrite <- (Spec.inv_workers _ _ _ _ HI). eapply lookup_lt_Some. exact Hw.
Qed.

Lemma settle_noFresh (st : Sched) (w : nat) :
  Spec.noFresh st -> Spec.noFresh (settle items fn st w).
Proof.
  intros Hno. unfold settle.
  destruct (workers st !! w) as [[|i|]|] eqn:Hw; try exact Hno.
  destruct (items !! i); [|exact Hno].
  assert (Hlt : (w < length (workers st))%nat) by (eapply lookup_lt_Some; eauto).
  unfold runWorker. cbn [nextIndex results workers started settled].
  destruct (items !! nextIndex st); intros w'; cbn [workers];
    (destruct (Nat.eq_dec w' w) as [->|Hne];
     [rewrite list_lookup_insert_eq by exact Hlt; discriminate
     |rewrite list_lookup_insert_ne by congruence; apply Hno]).
Qed.

Lemma schedule_inv (schedule : list nat) :
  forall st, Inv st -> Spec.noFresh st ->
    Inv (fold_left (settle items fn) schedule st)
    /\ Spec.noFresh (fold_left (settle items fn) schedule st).
Proof.
  induction schedule as [|w rest IH]; intros st HI Hno; [auto|].
  cbn [fold_left]. apply IH; [apply settle_inv|apply settle_noFresh]; assumption.
Qed.

Lemma runSchedule_inv (schedule : list nat) :
  Inv (runSchedule items concurrency fn schedule)
  /\ Spec.noFresh (runSchedule items concurrency fn schedule).
Proof.
  destruct startWorkers_inv as [HI Hno]. apply schedule_inv; assumption.
Qed.

Lemma not_all_returned (l : list Worker) :
  forallb isReturned l = false ->
  exists w x, l !! w = Some x /\ isReturned x = false.
Proof.
  induction l as [|x l IH]; [discriminate|]. cbn [forallb].
  destruct (isReturned x) eqn:Hx.
  - intros H. destruct (IH H) as (w & y & Hw & Hy). exists (S w), y. auto.
  - intros _. exists 0%nat, x. auto.
Qed.

Lemma all_returned_lookup (l : list Worker) (w : nat) (x : Worker) :
  forallb isReturned l = true -> l !! w = Some x -> x = Returned.
Proof.
  revert w. induction l as [|y l IH]; intros w Hall Hw; [discriminate|].
  cbn [forallb] in Hall. apply andb_true_iff in Hall as [Hy Hl].
  destruct w as [|w]; cbn in Hw.
  - injection Hw as <-. destruct y; try discriminate. reflexivity.
  - eauto.
Qed.

Lemma none_in_flight (l : list Worker) :
  length (List.filter isAwaiting l) = 0%nat ->
  (forall w, l !! w <> Some Fresh) ->
  forallb isReturned l = true.
Proof.
  induction l as [|x l IH]; [reflexivity|].
  cbn [List.filter forallb]. intros Hcount Hno.
  destruct x; cbn in *.
  - exfalso. apply (Hno 0%nat). reflexivity.
  - discriminate.
  - apply IH; [exact Hcount|]. intros w. apply (Hno (S w)).
Qed.

(** When every worker has returned, the array holds every result. *)
Lemma finished_results (st : Sched) :
  Inv st -> allReturned st = true -> results st = Spec.expectedResults items fn.
Proof.
  intros HI Hall. unfold allReturned in Hall.
  pose proof limit_positive as Hpos.
  destruct (lookup_lt_is_Some_2 (workers st) 0%nat) as [x0 Hx0].
  { rewrite (Spec.inv_workers _ _ _ _ HI). lia. }
  pose proof (all_returned_lookup _ _ _ Hall Hx0) as ->.
  pose proof (Spec.inv_returned _ _ _ _ HI 0%nat Hx0) as Hnext.
  apply list_eq. intros i. unfold Spec.expectedResults. rewrite list_lookup_imap.
  destruct (items !! i) as [x|] eqn:Hx; cbn.
  - assert (Hi : (i < length items)%nat) by (eapply lookup_lt_Some; eauto).
    destruct (lookup_lt_is_Some_2 (results st) i) as [o Ho].
    { rewrite (Spec.inv_results _ _ _ _ HI). exact Hi. }
    rewrite Ho. destruct o as [v|].
    + destruct (Spec.inv_slots _ _ _ _ HI i v Ho) as (x' & Hx' & ->).
      rewrite Hx in Hx'. injection Hx' as <-. reflexivity.
    + destruct (Spec.inv_claimed _ _ _ _ HI i) as [w Hw]; [lia|exact Ho|].
      pose proof (all_returned_lookup _ _ _ Hall Hw). discriminate.
  - apply lookup_ge_None. rewrite (Spec.inv_results _ _ _ _ HI).
    eapply lookup_ge_None. exact Hx.
Qed.

(** Every enabled step stores one more result. *)
Lemma enabled_settles (schedule : list nat) :
  forall st, Inv st ->
    Spec.enabled items fn st schedule = true ->
    length (settled (fold_left (settle items fn) schedule st))
    = (length (settled st) + length schedule)%nat.
Proof.
  induction schedule as [|w rest IH]; intros st HI Hen; cbn [fold_left length].
  - lia.
  - cbn [Spec.enabled] in Hen.
    destruct (workers st !! w) as [[|i|]|] eqn:Hw; try discriminate.
    rewrite (IH _ (settle_inv st w HI) Hen).
    destruct (Spec.inv_awaiting _ _ _ _ HI w i Hw) as (_ & Hilen & _).
    destruct (lookup_lt_is_Some_2 items i Hilen) as [x Hx].
    rewrite (settle_as_fulfilled st w i x Hw Hx).
    unfold runWorker, Spec.fulfilled. cbn [nextIndex results workers started settled].
    destruct (items !! nextIndex st); cbn [settled]; rewrite length_app; cbn; lia.
Qed.

Lemma startWorkers_settled : settled (@startWorkers TIn TOut items concurrency) = [].
Proof.
  unfold startWorkers.
  assert (H : forall l (st : @Sched TOut),
            settled (fold_left (fun st w => runWorker items w st) l st) = settled st).
  { induction l as [|w l IH]; intros st; [reflexivity|].
    cbn [fold_left]. rewrite IH. unfold runWorker.
    destruct (items !! nextIndex st); reflexivity. }
  rewrite H. reflexivity.
Qed.

End SchedulerFacts.

(** C1, amended. For every list of N items, every integer bound C and
    every order in which the tasks complete, the scheduler has at most
    max(1, min(C, N)) tasks in flight at any time, which is min(C, N) when C
    is at least 1 and there is an item; it starts no item twice and only
    items of the list; a slot of the output array only ever holds the result
    of its own item; when the scheduler returns, the array holds the result
    of every item at the index of the item; until then some task is in
    flight, and once N tasks have completed it returns. *)
Theorem scheduler_guarantees {TIn TOut : Type} (items : list TIn) (concurrency : Z)
    (fn : TIn -> nat -> TOut) (schedule : list nat) :
  let st := runSchedule items concurrency fn schedule in
  Z.of_nat (inFlight st) <= Z.max 1 (Z.min concurrency (Z.of_nat (length items)))
  /\ (1 <= concurrency -> items <> [] ->
      (inFlight st <= Nat.min (Z.to_nat concurrency) (length items))%nat)
  /\ NoDup (started st)
  /\ (forall i, In i (started st) -> (i < length items)%nat)
  /\ (forall i v, results st !! i = Some (Some v) ->
        exists x, items !! i = Some x /\ v = fn x i)
  /\ (forall rs, mapWithConcurrencyLimit items concurrency fn schedule = Some rs ->
        rs = Spec.expectedResults items fn)
  /\ (allReturned st = false -> exists w i, workers st !! w = Some (Awaiting i))
  /\ (Spec.enabled items fn (startWorkers items concurrency) schedule = true ->
      length schedule = length items ->
      mapWithConcurrencyLimit items concurrency fn schedule
      = Some (Spec.expectedResults items fn)).
Proof.
  cbn zeta.
  destruct (runSchedule_inv items concurrency fn schedule) as [HI Hno].
  set (st := runSchedule items concurrency fn schedule) in *.
  assert (Hbound : (inFlight st <= limit items concurrency)%nat).
  { unfold inFlight. rewrite <- (Spec.inv_workers _ _ _ _ HI). apply awaiting_count_le. }
  split; [unfold limit in Hbound; lia|].
  split; [intros Hc Hne; rewrite <- (limit_is_min items concurrency) by assumption;
          exact Hbound|].
  split; [rewrite (Spec.inv_started _ _ _ _ HI); apply NoDup_seq|].
  split.
  { intros i Hi. rewrite (Spec.inv_started _ _ _ _ HI) in Hi.
    apply in_seq in Hi. lia. }
  split; [exact (Spec.inv_slots _ _ _ _ HI)|].
  split.
  { intros rs. unfold mapWithConcurrencyLimit. fold st.
    destruct (Nat.eqb_spec (length items) 0) as [Hz|Hnz].
    - intros H. injection H as <-. destruct items; [reflexivity|discriminate].
    - destruct (allReturned st) eqn:Hall; [|discriminate].
      intros H. injection H as <-.
      apply (finished_results items concurrency fn); assumption. }
  split.
  { intros Hall. unfold allReturned in Hall.
    destruct (not_all_returned _ Hall) as (w & x & Hw & Hx).
    destruct x as [|i|]; [|eauto|discriminate].
    exfalso. exact (Hno w Hw). }
  intros Hen Hlen. unfold mapWithConcurrencyLimit. fold st.
  destruct (Nat.eqb_spec (length items) 0) as [Hz|Hnz].
  { destruct items; [reflexivity|discriminate]. }
  destruct (startWorkers_inv items concurrency fn) as [HI0 Hno0].
  pose proof (enabled_settles items concurrency fn schedule _ HI0 Hen) as Hsettled.
  fold (runSchedule items concurrency fn schedule) in Hsettled. fold st in Hsettled.
  rewrite (startWorkers_settled items concurrency) in Hsettled. cbn in Hsettled.
  pose proof (Spec.inv_count _ _ _ _ HI) as Hcount.
  assert (Hzero : inFlight st = 0%nat) by lia.
  assert (Hall : allReturned st = true) by (apply none_in_flight; assumption).
  rewrite Hall. f_equal. apply (finished_results items concurrency fn); assumption.
Qed.

Example three_items_two_workers :
  mapWithConcurrencyLimit ["a"; "b"; "c"] 2 (fun x (i : nat) => x ++ "!")
    [1%nat; 0%nat; 1%nat]
  = Some [Some "a!"; Some "b!"; Some "c!"]
  /\ map (fun schedule =>
            inFlight (runSchedule ["a"; "b"; "c"] 2 (fun x (i : nat) => x ++ "!") schedule))
       [[]; [1%nat]; [1%nat; 0%nat]; [1%nat; 0%nat; 1%nat]]
     = [2%nat; 2%nat; 1%nat; 0%nat].
Proof. split; reflexivity. Qed.

(** The claim as first stated fails in two places. With the bound 0 the
    scheduler still runs one task at a time, which is more than min(0, 2).
    And with the bound 2 and three tasks, the first update of parallel mode
    reports three tasks as running: every placeholder has the exit code of a
    running task. *)
Lemma scheduler_bound_is_at_least_one :
  ~ (Z.of_nat (inFlight (runSchedule ["a"; "b"] 0 (fun x (i : nat) => x ++ "!") []))
     <= Z.min 0 (Z.of_nat (length ["a"; "b"])))
  /\ (let E :=
        execute (Samples.world (fun _ _ => Samples.says "done")) (Samples.env 2)
          (Samples.request "parallel"
             [Samples.task "one"; Samples.task "two"; Samples.task "three"]) [] in
      exists u,
        head (updates E) = Some u
        /\ text u = "Parallel: 0/3 done, 3 running..."
        /\ map getTaskStatus (d_results (details u)) = [Running; Running; Running]
        /\ ~ (length (List.filter (fun r => Z.eqb (exitCode r) RUNNING)
                         (d_results (details u))) <= 2)%nat).
Proof.
  split.
  - vm_compute. intros H. apply H. reflexivity.
  - cbv zeta. eexists. split; [vm_compute; reflexivity|].
    split; [vm_compute; reflexivity|]. split; [vm_compute; reflexivity|].
    vm_compute. lia.
Qed.

(** * Further properties *)

(** ** Trimming *)

Lemma trimStart_clean (s : string) : Spec.startsClean (trimStart s).
Proof.
  induction s as [|c s IH]; cbn [trimStart]; [exact I|].
  destruct (isWhiteSpace c) eqn:E; [exact IH|exact E].
Qed.

Lemma trimStart_id (s : string) : Spec.startsClean s -> trimStart s = s.
Proof. destruct s as [|c s]; cbn; [reflexivity|]. intros ->. reflexivity. Qed.

Lemma trimEnd_clean (s : string) : Spec.startsClean s -> Spec.startsClean (trimEnd s).
Proof.
  destruct s as [|c s]; cbn [trimEnd Spec.startsClean]; [auto|]. intros H.
  destruct (trimEnd s); rewrite ?H; exact H.
Qed.

Lemma trimEnd_idempotent (s : string) : trimEnd (trimEnd s) = trimEnd s.
Proof.
  induction s as [|c s IH]; [reflexivity|]. cbn [trimEnd].
  destruct (trimEnd s) as [|d r] eqn:E.
  - destruct (isWhiteSpace c) eqn:Hc; [reflexivity|]. cbn [trimEnd]. rewrite Hc. reflexivity.
  - cbn [trimEnd]. cbn [trimEnd] in IH. rewrite IH. reflexivity.
Qed.

Lemma trim_idempotent (s : string) : trim (trim s) = trim s.
Proof.
  unfold trim.
  rewrite (trimStart_id (trimEnd (trimStart s)))
    by (apply trimEnd_clean, trimStart_clean).
  apply trimEnd_idempotent.
Qed.

(** ** The normalized request *)

Lemma normalizeThinkingInput_valid (v : Value) (label : string) (t : TaskThinking) :
  normalizeThinkingInput v label = Ok (Some t) -> isTaskThinking t = true.
Proof.
  destruct v; try discriminate. unfold normalizeThinkingInput. cbv zeta.
  destruct (truthy (trim s)); cbn [negb]; [|discriminate].
  destruct (isTaskThinking (trim s)) eqn:E; cbn [negb]; [|discriminate].
  intros H. injection H as <-. exact E.
Qed.

Lemma normalizeModelInput_trimmed (v : Value) (label m : string) :
  normalizeModelInput v label = Ok (Some m) -> trim m = m.
Proof.
  destruct v; try discriminate. unfold normalizeModelInput. cbv zeta.
  destruct (truthy (trim s)); [|discriminate].
  intros H. injection H as <-. apply trim_idempotent.
Qed.

(** What a parsed item is like. *)
Lemma parseTaskItem_wellformed (index : nat) (e : Value) (it : TaskWorkItem) :
  parseTaskItem index e = Ok it ->
  (prompt it <> EmptyString \/ truthyOpt (skill it) = true)
  /\ trim (prompt it) = prompt it
  /\ (forall s, skill it = Some s -> trim s = s)
  /\ (forall m, model it = Some m -> m <> EmptyString /\ trim m = m)
  /\ (forall t, thinking it = Some t -> isTaskThinking t = true).
Proof.
  unfold parseTaskItem. destruct (negb (isRecord e)); [discriminate|].
  set (p := match get e "prompt" with Str s => trim s | _ => EmptyString end).
  set (sk := match get e "skill" with Str s => Some (trim s) | _ => None end).
  destruct (negb (truthy p) && negb (truthyOpt sk)) eqn:Hboth; [discriminate|].
  destruct (normalizeModelInput _ _) as [m|] eqn:Hm; [|discriminate].
  destruct (normalizeThinkingInput _ _) as [t|] eqn:Ht; [|discriminate].
  destruct (normalizeForkInput _ _); [|discriminate].
  intros H. injection H as <-. cbn [prompt skill model thinking].
  split.
  { apply andb_false_iff in Hboth as [H|H]; apply negb_false_iff in H.
    - left. apply truthy_true_iff. exact H.
    - right. exact H. }
  split.
  { unfold p. destruct (get e "prompt"); try reflexivity. apply trim_idempotent. }
  split.
  { intros s Hs. unfold sk in Hs. destruct (get e "skill"); try discriminate.
    injection Hs as <-. apply trim_idempotent. }
  split.
  { intros m' ->. split.
    - intros ->. exact (normalizeModelInput_nonempty _ _ _ Hm eq_refl).
    - eapply normalizeModelInput_trimmed; eauto. }
  intros t' ->. eapply normalizeThinkingInput_valid; eauto.
Qed.

Lemma parseTaskItems_all (raw : list Value) :
  forall index acc parsed,
    parseTaskItemsFrom index raw acc = Ok parsed ->
    forall it, In it parsed -> In it acc \/ exists i e, In e raw /\ parseTaskItem i e = Ok it.
Proof.
  induction raw as [|e raw IH]; intros index acc parsed H it Hin;
    cbn [parseTaskItemsFrom] in H.
  - injection H as <-. auto.
  - destruct (parseTaskItem index e) as [it0|] eqn:Hit; [|discriminate].
    destruct (IH _ _ _ H it Hin) as [Hacc|(i & e' & He' & Hp)].
    + apply in_app_or in Hacc as [Hacc|[<-|[]]]; [auto|].
      right. exists index, e. split; [left; reflexivity|exact Hit].
    + right. exists i, e'. split; [right; exact He'|exact Hp].
Qed.

(** What [normalizeTaskParams] returns, read off its branches. *)
Lemma normalizeTaskParams_ok (params : Value) (options : Options) (n : NormalizedParams) :
  normalizeTaskParams params options = Ok n ->
  exists mode model thinkingResult parsed,
    get params "type" = Str mode
    /\ normalizeModelInput (get params "model") (quoted "model") = Ok model
    /\ normalizeThinkingInput (get params "thinking") (quoted "thinking") = Ok thinkingResult
    /\ parseTaskItems (match get params "tasks" with Arr l => l | _ => [] end) = Ok parsed
    /\ sharedModel n = model
    /\ sharedThinking n = default "inherit" thinkingResult
    /\ items n = parsed
    /\ ((mode = "single" /\ TaskParams.mode n = single /\ Spec.tasksLength params = 1)
        \/ (mode = "parallel" /\ TaskParams.mode n = parallel
            /\ 1 <= Spec.tasksLength params <= maxParallelTasks options)
        \/ (mode = "chain" /\ TaskParams.mode n = chain
            /\ 1 <= Spec.tasksLength params <= maxParallelTasks options)).
Proof.
  unfold normalizeTaskParams. destruct (negb (isRecord params)); [discriminate|].
  destruct (get params "type") as [| | | |mode| |] eqn:Hty; try discriminate.
  destruct (normalizeModelInput _ _) as [model|] eqn:Hm; [|discriminate].
  destruct (normalizeThinkingInput _ _) as [thinkingResult|] eqn:Ht; [|discriminate].
  rewrite <- tasksLength_eq. cbv zeta.
  pose proof (tasksLength_nonneg params) as Hnn.
  set (raw := match get params "tasks" with Arr l => l | _ => [] end).
  assert (Hraw : Spec.tasksLength params = Z.of_nat (length raw))
    by apply tasksLength_eq.
  intros H. exists mode, model, thinkingResult.
  destruct (String.eqb_spec mode "single") as [->|Hs].
  { destruct (Z.eqb_spec (Spec.tasksLength params) 1) as [Hone|]; [|discriminate].
    cbn [negb] in H.
    destruct (parseTaskItems raw) as [parsed|] eqn:Hp; [|discriminate].
    injection H as <-. exists parsed. cbn.
    destruct (parseTaskItemsFrom_items _ _ _ _ Hp) as (Hlen & _).
    rewrite firstn_all2 by (cbn in Hlen; lia). repeat split; auto. }
  destruct (String.eqb_spec mode "parallel") as [->|Hp'].
  { destruct (Z.eqb_spec (Spec.tasksLength params) 0); [discriminate|].
    destruct (Z.gtb_spec (Spec.tasksLength params) (maxParallelTasks options));
      [discriminate|].
    destruct (parseTaskItems raw) as [parsed|] eqn:Hp; [|discriminate].
    injection H as <-. exists parsed. cbn.
    repeat split; auto. right. left. repeat split; auto; lia. }
  destruct (String.eqb_spec mode "chain") as [->|Hc]; [|discriminate].
  destruct (Z.eqb_spec (Spec.tasksLength params) 0); [discriminate|].
  destruct (Z.gtb_spec (Spec.tasksLength params) (maxParallelTasks options));
    [discriminate|].
  destruct (parseTaskItems raw) as [parsed|] eqn:Hp; [|discriminate].
  injection H as <-. exists parsed. cbn.
  repeat split; auto. right. right. repeat split; auto; lia.
Qed.

(** X3. A request that normalizes keeps its bounds: the mode is the one that
    its type names, there is one item for each entry of [tasks], a single
    request has exactly one item, and a chain or parallel request has
    between one item and the maximum. *)
Theorem normalized_counts (params : Value) (options : Options) (n : NormalizedParams) :
  normalizeTaskParams params options = Ok n ->
  Z.of_nat (length (items n)) = Spec.tasksLength params
  /\ match mode n with
     | single => get params "type" = Str "single" /\ length (items n) = 1%nat
     | parallel =>
         get params "type" = Str "parallel"
         /\ 1 <= Z.of_nat (length (items n)) <= maxParallelTasks options
     | chain =>
         get params "type" = Str "chain"
         /\ 1 <= Z.of_nat (length (items n)) <= maxParallelTasks options
     end.
Proof.
  intros H.
  destruct (normalizeTaskParams_ok _ _ _ H)
    as (mode & model & th & parsed & Hty & _ & _ & Hp & _ & _ & Hitems & Hmode).
  destruct (parseTaskItemsFrom_items _ _ _ _ Hp) as (Hlen & _).
  cbn in Hlen. rewrite <- Hitems in Hlen.
  assert (Hcount : Z.of_nat (length (items n)) = Spec.tasksLength params)
    by (rewrite tasksLength_eq, Hlen; reflexivity).
  split; [exact Hcount|].
  destruct Hmode as [(-> & -> & Hb)|[(-> & -> & Hb)|(-> & -> & Hb)]];
    (split; [exact Hty|]); lia.
Qed.

Lemma normalized_counts_witness :
  let params :=
    Obj [("type", Str "chain");
         ("tasks", Arr [Obj [("prompt", Str "find X")];
                        Obj [("prompt", Str "summarize: {previous}")]])] in
  exists n,
    normalizeTaskParams params defaultOptions = Ok n
    /\ mode n = chain /\ length (items n) = 2%nat.
Proof.
  cbv zeta.
  set (params := Obj [("type", Str "chain");
         ("tasks", Arr [Obj [("prompt", Str "find X")];
                        Obj [("prompt", Str "summarize: {previous}")]])]).
  destruct (normalizeTaskParams params defaultOptions) as [n|e] eqn:Hn;
    [|vm_compute in Hn; discriminate].
  exists n. split; [reflexivity|].
  destruct (normalized_counts params defaultOptions n Hn) as [Hcount _].
  split; [vm_compute in Hn; injection Hn as <-; reflexivity|].
  apply Nat2Z.inj. rewrite Hcount. reflexivity.
Defined.

(** X4. Every item of a normalized request has a non-empty prompt or a
    non-empty skill name; its prompt, skill name and model are trimmed, and
    its thinking value is one of the valid options, as is the shared
    thinking value of the request. *)
Theorem normalized_items_wellformed (params : Value) (options : Options)
    (n : NormalizedParams) :
  normalizeTaskParams params options = Ok n ->
  isTaskThinking (sharedThinking n) = true
  /\ (forall m, sharedModel n = Some m -> trim m = m)
  /\ Forall (fun it =>
       (prompt it <> EmptyString \/ truthyOpt (skill it) = true)
       /\ trim (prompt it) = prompt it
       /\ (forall s, skill it = Some s -> trim s = s)
       /\ (forall m, model it = Some m -> trim m = m)
       /\ (forall t, thinking it = Some t -> isTaskThinking t = true)) (items n).
Proof.
  intros H.
  destruct (normalizeTaskParams_ok _ _ _ H)
    as (mode & model & th & parsed & _ & Hm & Ht & Hp & -> & -> & -> & _).
  split.
  { destruct th as [t|]; [|reflexivity]. cbn.
    eapply normalizeThinkingInput_valid; eauto. }
  split.
  { intros m ->. eapply normalizeModelInput_trimmed; eauto. }
  apply List.Forall_forall. intros it Hin.
  destruct (parseTaskItems_all _ _ _ _ Hp it Hin) as [[]|(i & e & _ & Hit)].
  destruct (parseTaskItem_wellformed _ _ _ Hit) as (H1 & H2 & H3 & H4 & H5).
  repeat (split; [assumption|]). split; [|exact H5].
  intros m Hmod. apply (H4 m Hmod).
Qed.

Lemma normalized_items_wellformed_witness :
  let params :=
    Obj [("type", Str "single"); ("thinking", Str " high ");
         ("tasks", Arr [Obj [("prompt", Str "  hello "); ("skill", Str " scout ")]])] in
  exists n,
    normalizeTaskParams params defaultOptions = Ok n
    /\ isTaskThinking (sharedThinking n) = true
    /\ map prompt (items n) = ["hello"] /\ map skill (items n) = [Some "scout"].
Proof.
  cbv zeta.
  set (params := Obj [("type", Str "single"); ("thinking", Str " high ");
         ("tasks", Arr [Obj [("prompt", Str "  hello "); ("skill", Str " scout ")]])]).
  destruct (normalizeTaskParams params defaultOptions) as [n|e] eqn:Hn;
    [|vm_compute in Hn; discriminate].
  exists n. split; [reflexivity|].
  destruct (normalized_items_wellformed params defaultOptions n Hn) as [Hth _].
  split; [exact Hth|].
  vm_compute in Hn. injection Hn as <-. split; reflexivity.
Defined.

Lemma parseTaskItem_bad_fork (index : nat) (e : Value) :
  match get e "fork" with Undefined | Bool _ => False | _ => True end ->
  isOk (parseTaskItem index e) = false.
Proof.
  intros H. unfold parseTaskItem. destruct (negb (isRecord e)); [reflexivity|].
  destruct (_ && _); [reflexivity|].
  destruct (normalizeModelInput _ _); [|reflexivity].
  destruct (normalizeThinkingInput _ _); [|reflexivity].
  destruct (get e "fork"); cbn; try reflexivity; contradiction.
Qed.

(** X5. One entry of [tasks] that does not parse makes the whole request
    fail, wherever it stands: the normalizer returns no partial list of the
    valid items. An entry whose [fork] is neither a boolean nor undefined is
    such an entry. *)
Theorem invalid_entry_rejects_request (params : Value) (options : Options)
    (raw : list Value) (entry : Value) :
  get params "tasks" = Arr raw ->
  In entry raw ->
  (forall index, isOk (parseTaskItem index entry) = false)
  \/ match get entry "fork" with Undefined | Bool _ => False | _ => True end ->
  isOk (normalizeTaskParams params options) = false.
Proof.
  intros Hraw Hin Hbad.
  assert (Hbad' : forall index, isOk (parseTaskItem index entry) = false).
  { destruct Hbad as [Hbad|Hfork]; [exact Hbad|].
    intros index. apply parseTaskItem_bad_fork. exact Hfork. }
  destruct (normalizeTaskParams params options) as [n|e] eqn:Hn; [|reflexivity].
  destruct (normalized_items _ _ _ _ _ Hn Hraw Hin) as (i & it & Hit & _).
  specialize (Hbad' i). rewrite Hit in Hbad'. discriminate.
Qed.

Lemma invalid_entry_rejects_request_witness :
  let bad := Obj [("prompt", Str "Hi"); ("fork", Str "yes")] in
  let params :=
    Obj [("type", Str "parallel"); ("tasks", Arr [Obj [("prompt", Str "Hello")]; bad])] in
  isOk (normalizeTaskParams params defaultOptions) = false.
Proof.
  cbv zeta.
  apply (invalid_entry_rejects_request
           (Obj [("type", Str "parallel");
                 ("tasks", Arr [Obj [("prompt", Str "Hello")];
                                Obj [("prompt", Str "Hi"); ("fork", Str "yes")]])])
           defaultOptions
           [Obj [("prompt", Str "Hello")]; Obj [("prompt", Str "Hi"); ("fork", Str "yes")]]
           (Obj [("prompt", Str "Hi"); ("fork", Str "yes")]) eq_refl).
  - right. left. reflexivity.
  - right. exact I.
Defined.

(** ** Model strings *)

Lemma parseProviderModel_inv (s : string) (pm : ProviderModel) :
  parseProviderModel s = Ok pm ->
  exists p m, Spec.wellFormedModel s p m /\ pm = mkProviderModel p m (p ++ "/" ++ m).
Proof.
  intros H.
  assert (Hwf : exists p m, Spec.wellFormedModel s p m).
  { revert H. unfold parseProviderModel, indexOf.
    pose proof (index_slash_spec (trim s)) as Hidx.
    destruct (String.index 0 "/" (trim s)) as [i|]; [|discriminate].
    destruct Hidx as (p & m & Ht & Hocc & Hlen).
    destruct (Z.leb_spec (Z.of_nat i) 0) as [Hle|Hgt]; [discriminate|].
    destruct (Z.eqb_spec (Z.of_nat i) (Z.of_nat (String.length (trim s)) - 1))
      as [Heq|Hneq]; [discriminate|].
    intros _. exists p, m. split; [exact Ht|].
    split; [|split; [|exact Hocc]].
    - intros ->. simpl in Hlen. lia.
    - intros ->. rewrite Ht, string_length_app in Hneq. simpl in Hneq. lia. }
  destruct Hwf as (p & m & Hwf). exists p, m. split; [exact Hwf|].
  rewrite (parseProviderModel_ok _ _ _ Hwf) in H. congruence.
Qed.

(** X6. A model string that parses gives a provider and a model id that are
    not empty, a provider without a slash, and a label that is the trimmed
    string itself; parsing the label again gives the same record. *)
Theorem parseProviderModel_round_trip (s : string) (pm : ProviderModel) :
  parseProviderModel s = Ok pm ->
  label pm = trim s
  /\ label pm = provider pm ++ "/" ++ modelId pm
  /\ provider pm <> EmptyString /\ modelId pm <> EmptyString
  /\ Spec.occurs "/" (provider pm) = false
  /\ parseProviderModel (label pm) = Ok pm.
Proof.
  intros H. destruct (parseProviderModel_inv _ _ H) as (p & m & Hwf & ->).
  destruct Hwf as (Ht & Hp & Hm & Hocc). cbn [label provider modelId].
  repeat (split; [solve [auto]|]).
  apply parseProviderModel_ok. split; [|auto].
  rewrite <- Ht. apply trim_idempotent.
Qed.

Lemma parseProviderModel_round_trip_witness :
  exists pm,
    parseProviderModel "  openai/gpt-5/mini " = Ok pm
    /\ label pm = "openai/gpt-5/mini" /\ provider pm = "openai"
    /\ modelId pm = "gpt-5/mini"
    /\ parseProviderModel (label pm) = Ok pm.
Proof.
  destruct (parseProviderModel "  openai/gpt-5/mini ") as [pm|e] eqn:Hpm;
    [|vm_compute in Hpm; discriminate].
  exists pm. split; [reflexivity|].
  destruct (parseProviderModel_round_trip "  openai/gpt-5/mini " pm Hpm)
    as (_ & _ & _ & _ & _ & Hagain).
  vm_compute in Hpm. injection Hpm as <-.
  split; [reflexivity|]. split; [reflexivity|]. split; [reflexivity|].
  exact Hagain.
Defined.

(** ** The configuration of a task *)

Lemma isTaskThinking_cases (t : string) :
  isTaskThinking t = true -> t = "inherit" \/ Spec.isThinkingLevel t = true.
Proof.
  unfold isTaskThinking, VALID_THINKING_OPTIONS. cbn [existsb].
  intros H. apply orb_true_iff in H as [H|H].
  - left. apply String.eqb_eq. exact H.
  - right. exact H.
Qed.

Lemma thinkingLevel_not_inherit (t : string) :
  Spec.isThinkingLevel t = true -> String.eqb t "inherit" = false.
Proof.
  intros H. destruct (String.eqb_spec t "inherit") as [->|]; [|reflexivity].
  vm_compute in H. discriminate.
Qed.

Lemma resolveTaskConfig_ok (o : ConfigOptions) (c : ResolvedTaskConfig) :
  resolveTaskConfig o = Ok c ->
  exists m,
    resolveModel (nullish (model (item o)) (defaultModel o)) (ctxModel o) = Ok m
    /\ c = Spec.configWith o m.
Proof.
  unfold resolveTaskConfig.
  destruct (resolveModel _ _) as [m|]; [|discriminate].
  intros H. injection H as <-. exists m. split; reflexivity.
Qed.

Lemma buildSubprocessArgs_thinking (m : option ProviderModel) (level : string)
    (tools : list string) :
  exists pre post, buildSubprocessArgs m level tools = (pre ++ "--thinking" :: level :: post)%list.
Proof.
  unfold buildSubprocessArgs. cbv zeta.
  destruct (length tools =? 0)%nat; eexists; eexists;
    rewrite <- app_assoc; reflexivity.
Qed.

(** X7. The thinking level of a task of a normalized request is a level that
    the subprocess understands, never [inherit], when the level of the
    session is one; it is the level passed after [--thinking]. A level that
    the item names wins over the shared one; an item that says [inherit]
    gets the level of the session, not the shared one; without a value of
    its own the item gets the shared value, and the level of the session
    when that is [inherit]. *)
Theorem thinking_level_is_concrete (params : Value) (options : Options) (env : Env)
    (n : NormalizedParams) (it : TaskWorkItem) (c : ResolvedTaskConfig) :
  normalizeTaskParams params options = Ok n ->
  In it (items n) ->
  Spec.isThinkingLevel (envInheritedThinking env) = true ->
  resolveTaskConfig (configOptionsFor env n it) = Ok c ->
  Spec.isThinkingLevel (thinkingLevel c) = true
  /\ thinkingLevel c <> "inherit"
  /\ (exists pre post,
        subprocessArgs c = (pre ++ "--thinking" :: thinkingLevel c :: post)%list)
  /\ (forall t, thinking it = Some t -> t <> "inherit" -> thinkingLevel c = t)
  /\ (thinking it = Some "inherit" -> thinkingLevel c = envInheritedThinking env)
  /\ (thinking it = None ->
      thinkingLevel c
      = if String.eqb (sharedThinking n) "inherit"
        then envInheritedThinking env else sharedThinking n).
Proof.
  intros Hn Hin Hinh Hc.
  destruct (resolveTaskConfig_ok _ _ Hc) as (m & _ & ->).
  unfold Spec.configWith. cbn [thinkingLevel subprocessArgs configOptionsFor
    defaultThinking inheritedThinking item builtInTools].
  set (requested := default (sharedThinking n) (thinking it)).
  assert (Hvalid : isTaskThinking requested = true).
  { destruct (normalizeTaskParams_ok _ _ _ Hn)
      as (mode & model & th & parsed & _ & _ & Ht & Hp & _ & Hshared & Hitems & _).
    unfold requested. destruct (thinking it) as [t|] eqn:Hti; cbn [default].
    - rewrite Hitems in Hin.
      destruct (parseTaskItems_all _ _ _ _ Hp it Hin) as [[]|(i & e & _ & Hit)].
      destruct (parseTaskItem_wellformed _ _ _ Hit) as (_ & _ & _ & _ & H5).
      apply H5. exact Hti.
    - rewrite Hshared. destruct th as [t|]; [|reflexivity]. cbn [default].
      eapply normalizeThinkingInput_valid; eauto. }
  assert (Hlevel : Spec.isThinkingLevel
                     (resolveThinkingLevel requested (envInheritedThinking env)) = true).
  { unfold resolveThinkingLevel.
    destruct (isTaskThinking_cases _ Hvalid) as [->|Hl]; [exact Hinh|].
    rewrite (thinkingLevel_not_inherit _ Hl). exact Hl. }
  split; [exact Hlevel|]. split.
  { intros Heq. rewrite Heq in Hlevel. vm_compute in Hlevel. discriminate. }
  split; [apply buildSubprocessArgs_thinking|]. split.
  { intros t Ht Hne. unfold requested, resolveThinkingLevel. rewrite Ht. cbn.
    destruct (String.eqb_spec t "inherit"); [contradiction|reflexivity]. }
  split.
  { intros Ht. unfold requested. rewrite Ht. reflexivity. }
  intros Ht. unfold requested. rewrite Ht. reflexivity.
Qed.

Lemma thinking_level_is_concrete_witness :
  let params :=
    Obj [("type", Str "parallel"); ("thinking", Str "high");
         ("tasks", Arr [Obj [("prompt", Str "a"); ("thinking", Str "inherit")];
                        Obj [("prompt", Str "b")]])] in
  exists n c,
    normalizeTaskParams params defaultOptions = Ok n
    /\ resolveTaskConfig
         (configOptionsFor (Samples.env 4) n (mkItem "a" None None (Some "inherit") true))
       = Ok c
    /\ thinkingLevel c = "medium"
    /\ thinkingLevel c <> "inherit".
Proof.
  cbv zeta.
  set (params := Obj [("type", Str "parallel"); ("thinking", Str "high");
         ("tasks", Arr [Obj [("prompt", Str "a"); ("thinking", Str "inherit")];
                        Obj [("prompt", Str "b")]])]).
  set (it := mkItem "a" None None (Some "inherit") true).
  destruct (normalizeTaskParams params defaultOptions) as [n|e] eqn:Hn;
    [|vm_compute in Hn; discriminate].
  destruct (resolveTaskConfig (configOptionsFor (Samples.env 4) n it)) as [c|e] eqn:Hc;
    [|vm_compute in Hn; injection Hn as <-; vm_compute in Hc; discriminate].
  exists n, c. split; [reflexivity|]. split; [exact Hc|].
  assert (Hin : In it (items n))
    by (vm_compute in Hn; injection Hn as <-; left; reflexivity).
  destruct (thinking_level_is_concrete params defaultOptions (Samples.env 4) n it c
              Hn Hin eq_refl Hc) as (_ & Hne & _ & _ & Hinherit & _).
  split; [exact (Hinherit eq_refl)|exact Hne].
Defined.

(** X8. The tools of the subprocess are the active tools that are built in,
    in the order of the active tools: a tool that is not built in is never
    handed on. When no active tool is built in, the arguments end with
    [--no-tools]; otherwise they end with [--tools] and the names joined by
    commas. *)
Theorem subprocess_tools_are_built_in (env : Env) (n : NormalizedParams)
    (it : TaskWorkItem) (c : ResolvedTaskConfig) :
  resolveTaskConfig (configOptionsFor env n it) = Ok c ->
  let tools := getBuiltInToolsFromActiveTools (activeTools env) in
  (forall t, In t tools <-> In t (activeTools env) /\ In t BUILT_IN_TOOLS)
  /\ sublist tools (activeTools env)
  /\ (tools = [] -> exists pre, subprocessArgs c = (pre ++ ["--no-tools"])%list)
  /\ (tools <> [] ->
      exists pre, subprocessArgs c = (pre ++ ["--tools"; join "," tools])%list).
Proof.
  intros Hc. cbv zeta.
  destruct (resolveTaskConfig_ok _ _ Hc) as (m & _ & ->).
  unfold Spec.configWith. cbn [subprocessArgs configOptionsFor builtInTools].
  set (tools := getBuiltInToolsFromActiveTools (activeTools env)).
  split.
  { intros t. unfold tools, getBuiltInToolsFromActiveTools. rewrite List.filter_In.
    unfold isBuiltInToolName. rewrite existsb_exists. split.
    - intros (Ha & x & Hx & Heq). apply String.eqb_eq in Heq. subst x. auto.
    - intros (Ha & Hb). split; [exact Ha|]. exists t. split; [exact Hb|].
      apply String.eqb_refl. }
  split.
  { unfold tools, getBuiltInToolsFromActiveTools.
    induction (activeTools env) as [|a l IH]; cbn [List.filter]; [constructor|].
    destruct (isBuiltInToolName a); [apply sublist_skip|apply sublist_cons]; exact IH. }
  unfold buildSubprocessArgs. cbv zeta. split.
  - intros ->. cbn [length Nat.eqb]. eexists. reflexivity.
  - intros Hne. destruct tools as [|t ts]; [contradiction|].
    cbn [length Nat.eqb]. eexists. reflexivity.
Qed.

Lemma subprocess_tools_are_built_in_witness :
  let env := mkEnv [] "medium" ["read"; "task"; "bash"; "web_search"] None None
               true true 8 4 30 in
  let n := mkParams single None "inherit" [Samples.plainItem "go"] in
  exists c,
    resolveTaskConfig (configOptionsFor env n (Samples.plainItem "go")) = Ok c
    /\ subprocessArgs c
       = ["--mode"; "json"; "-p"; "--no-session"; "--no-extensions";
          "--thinking"; "medium"; "--tools"; "read,bash"]
    /\ ~ In "task" (getBuiltInToolsFromActiveTools (activeTools env)).
Proof.
  cbv zeta.
  set (env := mkEnv [] "medium" ["read"; "task"; "bash"; "web_search"] None None
               true true 8 4 30).
  set (n := mkParams single None "inherit" [Samples.plainItem "go"]).
  destruct (resolveTaskConfig (configOptionsFor env n (Samples.plainItem "go")))
    as [c|e] eqn:Hc; [|vm_compute in Hc; discriminate].
  exists c. split; [reflexivity|].
  destruct (subprocess_tools_are_built_in env n (Samples.plainItem "go") c Hc)
    as (Hmem & _).
  split; [vm_compute in Hc; injection Hc as <-; reflexivity|].
  intros Hin. apply Hmem in Hin as [_ Hb]. vm_compute in Hb. intuition discriminate.
Defined.
(** ** The result of a process *)

(** X9. The result of a process that closes, when every assistant message
    of its output carries a usage object, depends only on the whole text
    decoded from its stdout, the whole text decoded from its stderr, whether
    the call was aborted, and the code it closed with, not on the chunks
    that the decoded texts arrive in nor on how the two streams interleave.
    It is the initial result with the accepted messages of all lines
    handled in order, the stderr text appended, the exit code of the
    process (0 for none) and, after an abort, the stop reason [aborted]. *)
Theorem process_result_is_replayed (parse : string -> option Value)
    (hasSignal waits : bool) (initial : SingleResult) (p : Process) (code : option Z) :
  ending p = Close code ->
  Spec.reportsUsage parse p = true ->
  currentResult (runProcess parse hasSignal waits initial p)
  = Spec.closed
      (appendStderr
         (Spec.replay initial
            (Spec.acceptedMessages parse (splitLines (Spec.stdoutText (events p)))))
         (Spec.stderrText (events p)))
      (default 0 code) (Spec.abortFired hasSignal (events p))
  /\ forall (p' : Process) (waits' : bool),
       Spec.stdoutText (events p') = Spec.stdoutText (events p) ->
       Spec.stderrText (events p') = Spec.stderrText (events p) ->
       Spec.abortFired hasSignal (events p') = Spec.abortFired hasSignal (events p) ->
       ending p' = ending p ->
       currentResult (runProcess parse hasSignal waits' initial p')
       = currentResult (runProcess parse hasSignal waits initial p).
Proof.
  intros Hend Husage.
  assert (Hreplay : forall (q : Process) (b : bool),
            ending q = Close code -> Spec.reportsUsage parse q = true ->
            currentResult (runProcess parse hasSignal b initial q)
            = Spec.closed
                (appendStderr
                   (Spec.replay initial
                      (Spec.acceptedMessages parse
                         (splitLines (Spec.stdoutText (events q)))))
                   (Spec.stderrText (events q)))
                (default 0 code) (Spec.abortFired hasSignal (events q))).
  { intros q b Hq Hu.
    destruct (runProcess_close parse hasSignal b initial q code Hq)
      as (msgs & Hcases & Hclean).
    destruct (Hclean Hu) as (-> & Hline & _).
    cbv zeta in Hcases. rewrite Hline in Hcases. exact (proj1 Hcases). }
  split; [apply Hreplay; assumption|].
  intros p' waits' Hout Herr Habort Hend'.
  rewrite (Hreplay p waits Hend Husage).
  rewrite (Hreplay p' waits').
  - rewrite Hout, Herr, Habort. reflexivity.
  - rewrite Hend'. exact Hend.
  - unfold Spec.reportsUsage. rewrite Hout. exact Husage.
Qed.

Lemma process_result_is_replayed_witness :
  ending Samples.chunked = Close (Some 0)
  /\ Spec.reportsUsage Samples.parseLine Samples.chunked = true
  /\ stderr (currentResult
               (runProcess Samples.parseLine false false Samples.blankResult
                  Samples.chunked)) = "warning"
  /\ exitCode (currentResult
                 (runProcess Samples.parseLine false false Samples.blankResult
                    Samples.chunked)) = 0.
Proof.
  split; [reflexivity|]. split; [reflexivity|].
  pose proof (proj1 (process_result_is_replayed Samples.parseLine false false
                       Samples.blankResult Samples.chunked (Some 0) eq_refl eq_refl)) as H.
  split.
  - exact (eq_trans (f_equal stderr H) eq_refl).
  - exact (eq_trans (f_equal exitCode H) eq_refl).
Defined.

(** ** The fields that the messages set *)

Lemma assistantField_truthy (field : string) (m : Value) (s : string) :
  Spec.assistantField field m = Some s -> truthyOpt (Some s) = true.
Proof.
  unfold Spec.assistantField.
  destruct (roleIs m "assistant"); cbn [andb]; [|discriminate].
  destruct (usageMissing m); cbn [negb andb]; [discriminate|].
  destruct (truthyOpt (stringField m field)) eqn:E; [|discriminate].
  intros H. rewrite H in E. exact E.
Qed.

Lemma handled_fields (r : SingleResult) (m : Value) :
  let r' := Spec.handled r m in
  r_model r'
  = (if truthyOpt (r_model r) then r_model r
     else match Spec.assistantField "model" m with
          | Some s => Some s
          | None => r_model r
          end)
  /\ stopReason r'
     = match Spec.assistantField "stopReason" m with
       | Some s => Some s
       | None => stopReason r
       end
  /\ errorMessage r'
     = match Spec.assistantField "errorMessage" m with
       | Some s => Some s
       | None => errorMessage r
       end
  /\ Spec.sameTask r' r
  /\ exitCode r' = exitCode r /\ stderr r' = stderr r.
Proof.
  cbv zeta.
  unfold Spec.handled, handleEventMessage, applyAssistantUsage, recordFields,
    Spec.assistantField, Spec.sameTask. cbv zeta.
  destruct (roleIs m "assistant"); cbn [negb andb].
  - destruct (usageMissing m); cbn [negb andb].
    + destruct (truthyOpt (r_model r)); cbn; repeat split; reflexivity.
    + cbn [Spec.stateOf r_model countTurn setUsage pushMessage].
      destruct (truthyOpt (r_model r)); cbn [negb andb];
        destruct (stringField m "model") as [a|];
        destruct (stringField m "stopReason") as [b|];
        destruct (stringField m "errorMessage") as [c|];
        cbn [truthyOpt];
        repeat match goal with
               | |- context [truthy ?x] => destruct (truthy x)
               end; cbn; repeat split; reflexivity.
  - destruct (truthyOpt (r_model r)); cbn; repeat split; reflexivity.
Qed.

Lemma sameTask_trans (a b c : SingleResult) :
  Spec.sameTask a b -> Spec.sameTask b c -> Spec.sameTask a c.
Proof.
  unfold Spec.sameTask. intros (H1 & H2 & H3 & H4 & H5) (G1 & G2 & G3 & G4 & G5).
  repeat split; congruence.
Qed.

Lemma replay_fields (msgs : list Value) :
  forall r,
    let r' := Spec.replay r msgs in
    r_model r'
    = (if truthyOpt (r_model r) then r_model r
       else match Spec.firstField "model" msgs with
            | Some s => Some s
            | None => r_model r
            end)
    /\ stopReason r'
       = match Spec.lastField "stopReason" msgs with
         | Some s => Some s
         | None => stopReason r
         end
    /\ errorMessage r'
       = match Spec.lastField "errorMessage" msgs with
         | Some s => Some s
         | None => errorMessage r
         end
    /\ Spec.sameTask r' r
    /\ exitCode r' = exitCode r /\ stderr r' = stderr r.
Proof.
  induction msgs as [|m msgs IH]; intros r; cbv zeta.
  - unfold Spec.replay, Spec.sameTask. cbn [fold_left Spec.firstField Spec.lastField].
    destruct (truthyOpt (r_model r)); repeat split; reflexivity.
  - unfold Spec.replay. cbn [fold_left Spec.firstField Spec.lastField].
    fold (Spec.replay (Spec.handled r m) msgs).
    destruct (IH (Spec.handled r m)) as (H1 & H2 & H3 & H4 & H5 & H6).
    destruct (handled_fields r m) as (G1 & G2 & G3 & G4 & G5 & G6).
    rewrite H1, H2, H3, H5, H6, G1, G2, G3, G5, G6.
    split; [|split; [|split; [|split; [eapply sameTask_trans; eassumption|]]]].
    + destruct (truthyOpt (r_model r)) eqn:Hr; [rewrite Hr; reflexivity|].
      destruct (Spec.assistantField "model" m) as [s|] eqn:Hm.
      * rewrite (assistantField_truthy _ _ _ Hm). reflexivity.
      * rewrite Hr. reflexivity.
    + destruct (Spec.lastField "stopReason" msgs); reflexivity.
    + destruct (Spec.lastField "errorMessage" msgs); reflexivity.
    + split; reflexivity.
Qed.

(** The result of a task that spawned a process which closed: the initial
    result with the messages of its own log handled, then closed unless the
    close listener threw, in which case the task does not return. *)
Lemma runSingleTask_closed (w : World) (options : RunOptions) (args : list string)
    (code : option Z) :
  spawnedArgs (runSingleTask w options) = Some args ->
  ending (spawn w (o_index options) args) = Close code ->
  let o := runSingleTask w options in
  let p := spawn w (o_index options) args in
  let base :=
    appendStderr (Spec.replay (Spec.initialResult options) (messages (result o)))
      (Spec.stderrText (events p)) in
  taskReturns o = negb (Spec.lineThrows (JSON_parse w) (Spec.lastLine (events p)))
  /\ afterwards o = result o
  /\ result o
     = (if taskReturns o
        then Spec.closed base (default 0 code) (Spec.abortFired (o_signal options) (events p))
        else base).
Proof.
  intros Hspawn Hend. cbv zeta.
  rewrite (runSingleTask_run w options args Hspawn).
  cbn [result taskReturns afterwards].
  assert (Hafter : afterProcess (JSON_parse w) (o_signal options)
                     (Spec.initialResult options) (spawn w (o_index options) args)
                   = runProcess (JSON_parse w) (o_signal options) (o_fork options)
                       (Spec.initialResult options) (spawn w (o_index options) args)).
  { unfold afterProcess, runProcess. rewrite Hend. reflexivity. }
  rewrite Hafter.
  destruct (runProcess_close (JSON_parse w) (o_signal options) (o_fork options)
              (Spec.initialResult options) (spawn w (o_index options) args) code Hend)
    as (msgs & Hcases & _).
  cbv zeta in Hcases.
  assert (Hm : forall err, messages (appendStderr (Spec.replay (Spec.initialResult options)
                                                    msgs) err) = msgs).
  { intros err. cbn [messages appendStderr]. rewrite replay_messages. reflexivity. }
  destruct (Spec.lineThrows (JSON_parse w) _); destruct Hcases as [Hr Hv];
    unfold isResolved; rewrite Hv, Hr; cbn [negb].
  - rewrite Hm. auto.
  - assert (Hmc : messages
                    (Spec.closed
                       (appendStderr (Spec.replay (Spec.initialResult options) msgs)
                          (Spec.stderrText (events (spawn w (o_index options) args))))
                       (default 0 code)
                       (Spec.abortFired (o_signal options)
                          (events (spawn w (o_index options) args)))) = msgs).
    { unfold Spec.closed. destruct (Spec.abortFired _ _); cbn [messages setExitCode setStopReason];
        apply Hm. }
    rewrite Hmc. auto.
Qed.

(** X10. The result of a task that was spawned and has closed is consistent
    with its own message log. Its model is the label that the task was
    configured with when there is one, and else the model of the first
    assistant message with a usage object that names one; a later message
    never replaces it. Its stop reason is [aborted] after an abort when the
    task returns, and else the one of the last assistant message with a
    usage object that gives one; its error message is the one of the last
    such message that gives one. An assistant message without a usage
    object is logged and sets none of the three. *)
Theorem result_fields_follow_messages (w : World) (options : RunOptions)
    (args : list string) (code : option Z) :
  spawnedArgs (runSingleTask w options) = Some args ->
  ending (spawn w (o_index options) args) = Close code ->
  let o := runSingleTask w options in
  let r := result o in
  r_model r
  = (if truthyOpt (o_modelLabel options) then o_modelLabel options
     else match Spec.firstField "model" (messages r) with
          | Some s => Some s
          | None => o_modelLabel options
          end)
  /\ stopReason r
     = (if Spec.abortFired (o_signal options) (events (spawn w (o_index options) args))
           && taskReturns o
        then Some "aborted"
        else Spec.lastField "stopReason" (messages r))
  /\ errorMessage r = Spec.lastField "errorMessage" (messages r)
  /\ (forall m field, Spec.throwsOn m = true -> Spec.assistantField field m = None).
Proof.
  intros Hspawn Hend. cbv zeta.
  destruct (runSingleTask_closed w options args code Hspawn Hend) as (_ & _ & Hr).
  cbv zeta in Hr.
  set (o := runSingleTask w options) in *.
  destruct (replay_fields (messages (result o)) (Spec.initialResult options))
    as (H1 & H2 & H3 & _).
  cbn [Spec.initialResult r_model stopReason errorMessage] in H1, H2, H3.
  assert (Hid : forall x : option string,
            match x with Some s => Some s | None => None end = x)
    by (intros [s|]; reflexivity).
  rewrite Hid in H2, H3.
  split; [|split; [|split]].
  - rewrite Hr at 1. unfold Spec.closed.
    destruct (taskReturns o); [destruct (Spec.abortFired _ _)|]; exact H1.
  - rewrite Hr at 1. unfold Spec.closed.
    destruct (taskReturns o); [destruct (Spec.abortFired _ _)|].
    + reflexivity.
    + exact H2.
    + rewrite andb_false_r. exact H2.
  - rewrite Hr at 1. unfold Spec.closed.
    destruct (taskReturns o); [destruct (Spec.abortFired _ _)|]; exact H3.
  - intros m field Hthrows. unfold Spec.throwsOn in Hthrows. unfold Spec.assistantField.
    apply andb_true_iff in Hthrows as [-> ->]. reflexivity.
Qed.

Lemma result_fields_follow_messages_witness :
  let w := Samples.world (fun _ _ => Samples.recovers) in
  let r := result (runSingleTask w (Samples.runOptions "go")) in
  stopReason r = Some "stop" /\ errorMessage r = Some "boom" /\ r_model r = None
  /\ isTaskError r = false.
Proof.
  cbv zeta.
  destruct (result_fields_follow_messages
              (Samples.world (fun _ _ => Samples.recovers)) (Samples.runOptions "go")
              ["--mode"; "json"; "go"] (Some 0) eq_refl eq_refl) as (Hm & Hs & He & _).
  split; [exact (eq_trans Hs eq_refl)|].
  split; [exact (eq_trans He eq_refl)|].
  split; [exact (eq_trans Hm eq_refl)|].
  vm_compute. reflexivity.
Defined.

(** ** The partial results *)

Lemma prefixes_snoc {A : Type} (l : list A) (x : A) :
  Spec.prefixes (l ++ [x]) = (Spec.prefixes l ++ [l ++ [x]])%list.
Proof.
  unfold Spec.prefixes. rewrite length_app. cbn [length].
  rewrite Nat.add_1_r, seq_S, map_app. cbn [map plus].
  f_equal.
  - apply map_ext_in. intros k Hk. apply in_seq in Hk.
    rewrite List.firstn_app.
    replace (k - length l)%nat with 0%nat by lia.
    cbn [firstn]. apply app_nil_r.
  - f_equal. apply List.firstn_all2. rewrite length_app. cbn. lia.
Qed.

Lemma endsHandled_snoc (l : list Value) (m : Value) :
  Spec.endsHandled (l ++ [m]) = negb (Spec.throwsOn m).
Proof.
  unfold Spec.endsHandled. rewrite map_app. cbn [map].
  rewrite last_app_nonempty by discriminate. reflexivity.
Qed.

Lemma handled_prefixes (l : list Value) (m : Value) :
  List.filter Spec.endsHandled (Spec.prefixes (l ++ [m]))
  = (List.filter Spec.endsHandled (Spec.prefixes l)
     ++ (if Spec.throwsOn m then [] else [(l ++ [m])%list]))%list.
Proof.
  rewrite prefixes_snoc, List.filter_app. cbn [List.filter].
  rewrite endsHandled_snoc. destruct (Spec.throwsOn m); reflexivity.
Qed.

(** There are as many handled prefixes as messages that do not throw, and
    every prefix is handled when no message throws. *)
Lemma handled_prefixes_count (l : list Value) :
  length (List.filter Spec.endsHandled (Spec.prefixes l))
  = length (List.filter (fun m => negb (Spec.throwsOn m)) l)
  /\ (Spec.noneThrows l = true ->
      List.filter Spec.endsHandled (Spec.prefixes l) = Spec.prefixes l).
Proof.
  induction l as [|m l [IH1 IH2]] using rev_ind; [split; reflexivity|].
  rewrite handled_prefixes, List.filter_app, !length_app, IH1, noneThrows_app.
  cbn [List.filter Spec.noneThrows forallb]. split.
  - destruct (Spec.throwsOn m); reflexivity.
  - intros H. apply andb_true_iff in H as [Hl Hm]. rewrite andb_true_r in Hm.
    apply negb_true_iff in Hm. rewrite Hm, (IH2 Hl), prefixes_snoc. reflexivity.
Qed.

Section Partials.

Variable parse : string -> option Value.

Lemma processLine_emitted (st : Runner) (line : string) :
  Spec.emittedInv st -> Spec.emittedInv (Spec.stateOf (processLine parse st line)).
Proof.
  unfold Spec.emittedInv. intros H. rewrite processLine_cases.
  destruct (acceptedMessage parse line) as [m|]; [|exact H]. cbv zeta.
  destruct (Spec.throwsOn m) eqn:Hm;
    cbn [Spec.stateOf emitted currentResult withResult];
    rewrite messages_handled, handled_prefixes, Hm.
  - rewrite app_nil_r. exact H.
  - rewrite map_app, H. cbn [map]. rewrite messages_handled. reflexivity.
Qed.

Lemma listenerEnds_emitted (c : Completion Runner) :
  Spec.emittedInv (Spec.stateOf c) -> Spec.emittedInv (listenerEnds c).
Proof. destruct c; intros H; exact H. Qed.

Lemma processLines_emitted (lines : list string) :
  forall st, Spec.emittedInv st ->
             Spec.emittedInv (Spec.stateOf (processLines parse st lines)).
Proof.
  induction lines as [|line lines IH]; intros st H; cbn [processLines]; [exact H|].
  pose proof (processLine_emitted st line H) as H'.
  destruct (processLine parse st line) as [st'|st']; [apply IH|]; exact H'.
Qed.

Lemma onEvent_emitted (hasSignal : bool) (st : Runner) (e : ProcEvent) :
  Spec.emittedInv st -> Spec.emittedInv (onEvent parse hasSignal st e).
Proof.
  intros H. destruct e as [data|data|]; cbn [onEvent].
  - apply listenerEnds_emitted, processLines_emitted. exact H.
  - exact H.
  - destruct hasSignal; exact H.
Qed.

Lemma listen_emitted (hasSignal : bool) (initial : SingleResult) (p : Process) :
  messages initial = [] -> Spec.emittedInv (listen parse hasSignal initial p).
Proof.
  intros Hinit. unfold listen.
  assert (G : forall evs st, Spec.emittedInv st ->
                Spec.emittedInv (fold_left (onEvent parse hasSignal) evs st)).
  { induction evs as [|e evs IH]; intros st Hst; cbn [fold_left]; [exact Hst|].
    apply IH. apply onEvent_emitted. exact Hst. }
  apply G. unfold Spec.emittedInv. cbn. rewrite Hinit. reflexivity.
Qed.

Lemma onClose_emitted (st : Runner) (code : option Z) :
  Spec.emittedInv st -> Spec.emittedInv (onClose parse st code).
Proof.
  intros H. unfold onClose.
  assert (H' : Spec.emittedInv
                 (Spec.stateOf (if truthy (trim (buffer st))
                                then processLine parse st (buffer st) else Returns st))).
  { destruct (truthy (trim (buffer st))); [apply processLine_emitted|]; exact H. }
  destruct (if truthy (trim (buffer st)) then processLine parse st (buffer st)
            else Returns st) as [[cur buf ab em res un]|st'].
  - unfold Spec.emittedInv in *. cbn [Spec.stateOf emitted currentResult] in H'.
    unfold resolve. destruct res, ab; exact H'.
  - exact H'.
Qed.

Lemma resume_emitted (st : Runner) : Spec.emittedInv st -> Spec.emittedInv (resume st).
Proof. intros H. unfold resume. destruct (resolved st); exact H. Qed.

Lemma onError_emitted (st : Runner) : Spec.emittedInv st -> Spec.emittedInv (onError st).
Proof.
  intros H. unfold onError, resolve. cbn [withResult resolved].
  destruct (resolved st); exact H.
Qed.

Lemma runProcess_emitted (hasSignal waits : bool) (initial : SingleResult) (p : Process) :
  messages initial = [] ->
  Spec.emittedInv (runProcess parse hasSignal waits initial p).
Proof.
  intros Hinit. unfold runProcess.
  pose proof (listen_emitted hasSignal initial p Hinit) as H.
  destruct (ending p) as [code|code early].
  - apply resume_emitted, onClose_emitted, H.
  - destruct (early && waits).
    + apply onClose_emitted, resume_emitted, onError_emitted, H.
    + apply resume_emitted, onError_emitted, H.
Qed.

End Partials.

(** X11. A task passes one partial result to its caller for each message
    that it handles without an exception, right after the message is
    handled: the logs of the partial results are the prefixes of the log of
    the result that end with such a message, in order. An assistant message
    without a usage object is logged and passes no partial result. When no
    logged message is of that kind, the log of the k-th partial result holds
    the first k messages of the log of the result. A task that fails before
    it spawns a process passes none. *)
Theorem one_update_per_message (w : World) (options : RunOptions) :
  let o := runSingleTask w options in
  map messages (partials o)
  = List.filter Spec.endsHandled (Spec.prefixes (messages (result o)))
  /\ length (partials o)
     = length (List.filter (fun m => negb (Spec.throwsOn m)) (messages (result o)))
  /\ (Spec.noneThrows (messages (result o)) = true ->
      map messages (partials o) = Spec.prefixes (messages (result o))
      /\ length (partials o) = length (messages (result o)))
  /\ (spawnedArgs o = None -> partials o = []).
Proof.
  cbv zeta.
  assert (H : map messages (partials (runSingleTask w options))
              = List.filter Spec.endsHandled
                  (Spec.prefixes (messages (result (runSingleTask w options))))
              /\ (spawnedArgs (runSingleTask w options) = None ->
                  partials (runSingleTask w options) = [])).
  { destruct (spawnedArgs (runSingleTask w options)) as [args|] eqn:Hs.
    - rewrite (runSingleTask_run w options args Hs). cbn [partials result].
      split; [|discriminate].
      apply (runProcess_emitted (JSON_parse w)). reflexivity.
    - revert Hs. unfold runSingleTask.
      destruct (o_fork options); [|discriminate].
      destruct (negb (truthyOpt (o_sessionFile options))); [intros _; split; reflexivity|].
      destruct (createForkSession w _ _); [discriminate|].
      intros _. split; reflexivity. }
  destruct H as [H1 H2].
  destruct (handled_prefixes_count (messages (result (runSingleTask w options))))
    as [Hcount Hall].
  split; [exact H1|]. split; [|split; [|exact H2]].
  - rewrite <- (length_map messages), H1. exact Hcount.
  - intros Hnone. rewrite H1, (Hall Hnone). split; [reflexivity|].
    rewrite <- (length_map messages), H1, (Hall Hnone). unfold Spec.prefixes.
    rewrite length_map, length_seq. reflexivity.
Qed.

(** ** Fork sessions *)

Lemma filter_sublist {A : Type} (f : A -> bool) (l : list A) :
  sublist (List.filter f l) l.
Proof.
  induction l as [|a l IH]; cbn [List.filter]; [constructor|].
  destruct (f a); [apply sublist_skip|apply sublist_cons]; exact IH.
Qed.

(** X12. The prompt is the last argument of every process. A task that does
    not fork hands on its arguments as they are. A task that forks has a
    session file and a fork session made from it, hands on its arguments
    without [--no-session], in order, and puts the seed file and the
    directory of the fork session before the prompt. *)
Theorem spawned_arguments (w : World) (options : RunOptions) (args : list string) :
  spawnedArgs (runSingleTask w options) = Some args ->
  exists kept session,
    args = (kept ++ session ++ [o_subprocessPrompt options])%list
    /\ (o_fork options = false -> kept = o_subprocessArgs options /\ session = [])
    /\ (o_fork options = true ->
        truthyOpt (o_sessionFile options) = true
        /\ (exists s,
              createForkSession w (o_index options)
                (default EmptyString (o_sessionFile options)) = Ok s
              /\ session = ["--session"; seedPath s; "--session-dir"; dir s])
        /\ ~ In "--no-session" kept
        /\ sublist kept (o_subprocessArgs options)
        /\ (forall a, a <> "--no-session" -> In a (o_subprocessArgs options) -> In a kept)).
Proof.
  unfold runSingleTask. destruct (o_fork options).
  - destruct (truthyOpt (o_sessionFile options)) eqn:Hfile; cbn [negb]; [|discriminate].
    destruct (createForkSession w _ _) as [s|] eqn:Hs; [|discriminate].
    cbn [spawnedArgs applyForkSessionArgs]. intros H. injection H as <-.
    eexists. eexists. split; [rewrite <- app_assoc; reflexivity|].
    split; [discriminate|]. intros _.
    split; [reflexivity|]. split; [eauto|]. split.
    { intros Hin. apply List.filter_In in Hin as [_ Hne].
      rewrite String.eqb_refl in Hne. discriminate. }
    split; [apply filter_sublist|].
    intros a Hne Hin. apply List.filter_In. split; [exact Hin|].
    destruct (String.eqb_spec a "--no-session"); [contradiction|reflexivity].
  - cbn [spawnedArgs applyForkSessionArgs]. intros H. injection H as <-.
    exists (o_subprocessArgs options), []. split; [reflexivity|].
    split; [auto|discriminate].
Qed.

Lemma spawned_arguments_witness :
  let w := Samples.world (fun _ _ => Samples.says "ok") in
  spawnedArgs (runSingleTask w (Samples.forkOptions (Some "/s/session.jsonl")))
  = Some ["--mode"; "json"; "-p"; "--no-extensions"; "--thinking"; "low"; "--no-tools";
          "--session"; "/tmp/pi-task-tool-1/seed.jsonl";
          "--session-dir"; "/tmp/pi-task-tool-1"; "go"]
  /\ exists kept session,
       ~ In "--no-session" kept
       /\ (kept ++ session ++ ["go"])%list
          = ["--mode"; "json"; "-p"; "--no-extensions"; "--thinking"; "low"; "--no-tools";
             "--session"; "/tmp/pi-task-tool-1/seed.jsonl";
             "--session-dir"; "/tmp/pi-task-tool-1"; "go"].
Proof.
  cbv zeta. split; [reflexivity|].
  destruct (spawned_arguments (Samples.world (fun _ _ => Samples.says "ok"))
              (Samples.forkOptions (Some "/s/session.jsonl")) _ eq_refl)
    as (kept & session & Hargs & _ & Hfork).
  exists kept, session. split.
  - exact (proj1 (proj2 (proj2 (Hfork eq_refl)))).
  - symmetry. exact Hargs.
Defined.

(** X13. A forking task whose call has no session file, or whose fork
    session cannot be made, spawns no process and passes on no partial
    result; its result has exit code 1, no messages and the message of the
    failure, and it classifies as failed with that message as its error
    text when the message is not empty. *)
Theorem fork_failure_spawns_nothing (w : World) (options : RunOptions) (message : string) :
  o_fork options = true ->
  (truthyOpt (o_sessionFile options) = false
   /\ message = "Forked tasks require a persisted session file.")
  \/ (truthyOpt (o_sessionFile options) = true
      /\ createForkSession w (o_index options)
           (default EmptyString (o_sessionFile options)) = Err message) ->
  let o := runSingleTask w options in
  spawnedArgs o = None /\ partials o = []
  /\ exitCode (result o) = 1 /\ messages (result o) = []
  /\ errorMessage (result o) = Some message
  /\ isTaskError (result o) = true /\ getTaskStatus (result o) = Failed
  /\ (message <> EmptyString -> getTaskErrorText (result o) = message).
Proof.
  intros Hfork Hwhy. cbv zeta. unfold runSingleTask. rewrite Hfork.
  assert (Hshape : forall initial,
            let o := failedBeforeSpawn initial message in
            spawnedArgs o = None /\ partials o = []
            /\ exitCode (result o) = 1 /\ messages (result o) = messages initial
            /\ errorMessage (result o) = Some message
            /\ isTaskError (result o) = true /\ getTaskStatus (result o) = Failed
            /\ (message <> EmptyString -> getTaskErrorText (result o) = message)).
  { intros initial. cbv zeta. unfold failedBeforeSpawn. cbn [spawnedArgs partials result].
    repeat (split; [reflexivity|]).
    intros Hne. unfold getTaskErrorText. cbn [errorMessage setErrorMessage].
    change (default EmptyString (Some message)) with message.
    unfold orElse at 1. apply truthy_true_iff in Hne. rewrite Hne. reflexivity. }
  destruct Hwhy as [[Hfile ->]|[Hfile Herr]]; rewrite Hfile; cbn [negb].
  - apply Hshape.
  - rewrite Herr. apply Hshape.
Qed.

Lemma fork_failure_spawns_nothing_witness :
  let w := Samples.world (fun _ _ => Samples.says "ok") in
  let o := runSingleTask w (Samples.forkOptions None) in
  spawnedArgs o = None /\ exitCode (result o) = 1
  /\ getTaskErrorText (result o) = "Forked tasks require a persisted session file.".
Proof.
  cbv zeta.
  destruct (fork_failure_spawns_nothing (Samples.world (fun _ _ => Samples.says "ok"))
              (Samples.forkOptions None)
              "Forked tasks require a persisted session file." eq_refl
              (or_introl (conj eq_refl eq_refl)))
    as (Hs & _ & Hcode & _ & _ & _ & _ & Htext).
  split; [exact Hs|]. split; [exact Hcode|].
  apply Htext. discriminate.
Defined.

Lemma sameTask_closed (r r0 : SingleResult) (code : Z) (fired : bool) :
  Spec.sameTask r r0 -> Spec.sameTask (Spec.closed r code fired) r0.
Proof. unfold Spec.closed. destruct fired; intros H; exact H. Qed.

Lemma sameTask_base (initial : SingleResult) (msgs : list Value) (err : string) :
  Spec.sameTask (appendStderr (Spec.replay initial msgs) err) initial.
Proof.
  destruct (replay_fields msgs initial) as (_ & _ & _ & H & _). exact H.
Qed.

Lemma exitCode_base (initial : SingleResult) (msgs : list Value) (err : string) :
  exitCode (appendStderr (Spec.replay initial msgs) err) = exitCode initial.
Proof.
  destruct (replay_fields msgs initial) as (_ & _ & _ & _ & H & _). exact H.
Qed.

(** What a task leaves behind, by how its process ended. *)
Lemma runSingleTask_outcome (w : World) (options : RunOptions) :
  let o := runSingleTask w options in
  Spec.sameTask (result o) (Spec.initialResult options)
  /\ Spec.sameTask (afterwards o) (Spec.initialResult options)
  /\ match spawnedArgs o with
     | None => exitCode (result o) = 1 /\ taskReturns o = true /\ afterwards o = result o
     | Some args =>
         let p := spawn w (o_index options) args in
         let throws := Spec.lineThrows (JSON_parse w) (Spec.lastLine (events p)) in
         match ending p with
         | Close code =>
             exitCode (result o) = (if throws then RUNNING else default 0 code)
             /\ taskReturns o = negb throws
             /\ afterwards o = result o
         | SpawnError code closedBeforeReturn =>
             exitCode (result o)
             = (if closedBeforeReturn && o_fork options && negb throws
                then default 0 code else 1)
             /\ taskReturns o = true
             /\ exitCode (afterwards o) = (if throws then 1 else default 0 code)
         end
     end.
Proof.
  cbv zeta.
  destruct (spawnedArgs (runSingleTask w options)) as [args|] eqn:Hs.
  - destruct (ending (spawn w (o_index options) args)) as [code|code early] eqn:Hend.
    + destruct (runSingleTask_closed w options args code Hs Hend) as (Hret & Hafter & Hr).
      cbv zeta in Hr. rewrite Hafter.
      set (o := runSingleTask w options) in *.
      assert (Hsame : Spec.sameTask (result o) (Spec.initialResult options)).
      { rewrite Hr. destruct (taskReturns o);
          [apply sameTask_closed|]; apply sameTask_base. }
      split; [exact Hsame|]. split; [exact Hsame|].
      split; [|split; [exact Hret|reflexivity]].
      rewrite Hr, Hret. destruct (Spec.lineThrows _ _); cbn [negb].
      * apply exitCode_base.
      * unfold Spec.closed. reflexivity.
    + rewrite (runSingleTask_run w options args Hs).
      cbn [result taskReturns afterwards]. unfold runProcess, afterProcess. rewrite Hend.
      destruct (spawnError_state (JSON_parse w) (o_signal options)
                  (Spec.initialResult options) (spawn w (o_index options) args) code)
        as (H1 & H2 & msgs & msgs' & Hr & Hr').
      cbv zeta in Hr'.
      assert (Hsame : Spec.sameTask
                        (currentResult
                           (resume (onError (listen (JSON_parse w) (o_signal options)
                                               (Spec.initialResult options)
                                               (spawn w (o_index options) args)))))
                        (Spec.initialResult options)).
      { rewrite Hr. apply (sameTask_base (Spec.initialResult options) msgs). }
      assert (Hsame' : Spec.sameTask
                         (currentResult
                            (onClose (JSON_parse w)
                               (resume (onError (listen (JSON_parse w) (o_signal options)
                                                   (Spec.initialResult options)
                                                   (spawn w (o_index options) args))))
                               code))
                         (Spec.initialResult options)).
      { rewrite Hr'. destruct (Spec.lineThrows _ _).
        - apply (sameTask_base (Spec.initialResult options) msgs').
        - apply sameTask_closed, sameTask_base. }
      assert (Hcode' : exitCode
                         (currentResult
                            (onClose (JSON_parse w)
                               (resume (onError (listen (JSON_parse w) (o_signal options)
                                                   (Spec.initialResult options)
                                                   (spawn w (o_index options) args))))
                               code))
                       = if Spec.lineThrows (JSON_parse w)
                              (Spec.lastLine (events (spawn w (o_index options) args)))
                         then 1 else default 0 code).
      { rewrite Hr'. destruct (Spec.lineThrows _ _); reflexivity. }
      destruct (early && o_fork options) eqn:Hearly; cbn [andb].
      * split; [exact Hsame'|]. split; [exact Hsame'|].
        split; [|split; [unfold isResolved; rewrite H2; reflexivity|exact Hcode']].
        rewrite Hcode'. destruct (Spec.lineThrows _ _); reflexivity.
      * split; [exact Hsame|]. split; [exact Hsame'|].
        split; [rewrite Hr; reflexivity|].
        split; [unfold isResolved; rewrite H1; reflexivity|exact Hcode'].
  - revert Hs. unfold runSingleTask. fold (Spec.initialResult options).
    destruct (o_fork options); [|discriminate].
    destruct (negb (truthyOpt (o_sessionFile options)));
      [intros _; cbn; unfold Spec.sameTask; cbn; repeat split; reflexivity|].
    destruct (createForkSession w _ _); [discriminate|].
    intros _. cbn. unfold Spec.sameTask. cbn. repeat split; reflexivity.
Qed.

Lemma runSingleTask_identity (w : World) (options : RunOptions) :
  let r := result (runSingleTask w options) in
  r_prompt r = prompt (o_item options)
  /\ r_skill r = skill (o_item options)
  /\ r_index r = o_index options
  /\ r_fork r = Some (o_fork options)
  /\ r_thinking r = Some (o_thinking options).
Proof.
  cbv zeta. destruct (runSingleTask_outcome w options) as (H & _). exact H.
Qed.


(** A process that cannot be started: the task returns with exit code 1,
    and the close event that follows leaves the code -2 in the result
    object, which then reads as a pending task and not as a failed one. *)
Example failed_spawn_exit_code :
  let o :=
    runSingleTask (Samples.world (fun _ _ => Samples.notFound)) (Samples.runOptions "go") in
  exitCode (result o) = 1 /\ isTaskError (result o) = true
  /\ exitCode (afterwards o) = -2 /\ isTaskError (afterwards o) = false
  /\ getTaskStatus (afterwards o) = Pending.
Proof. cbv zeta. repeat split; vm_compute; reflexivity. Qed.

(** ** Single and parallel mode *)

Section PrepareFacts.

Variable w : World.
Variable env : Env.
Variable n : NormalizedParams.


Lemma unknownSkill_not_prepared (item : TaskWorkItem) (cache : BaseCache) :
  Spec.unknownSkill env item ->
  exists e,
    buildSubprocessPrompt (buildSkillMessageBase w) item (skills env) cache
      (skillListLimit env) = (Err e, cache).
Proof.
  intros [Hs Hnone]. unfold buildSubprocessPrompt. rewrite Hs, Hnone. cbn. eauto.
Qed.

(** One item that cannot be resolved fails the preparation of all. *)
Lemma prepareFrom_fails (item : TaskWorkItem) (remaining : list TaskWorkItem) :
  In item remaining ->
  (exists t, resolveTaskConfig (configOptionsFor env n item) = Err t)
  \/ Spec.unknownSkill env item ->
  forall cache acc, isOk (prepareFrom w env n remaining cache acc) = false.
Proof.
  intros Hin Hbad. induction remaining as [|x rest IH]; [destruct Hin|].
  intros cache acc. cbn [prepareFrom].
  destruct (buildSubprocessPrompt _ x _ cache _) as [[prepared|e] cache'] eqn:Hp;
    [|reflexivity].
  destruct (resolveTaskConfig (configOptionsFor env n x)) as [config|e] eqn:Hc;
    [|reflexivity].
  destruct Hin as [->|Hin]; [|apply IH; exact Hin].
  destruct Hbad as [[t Ht]|Hunknown].
  - rewrite Ht in Hc. discriminate.
  - destruct (unknownSkill_not_prepared item cache Hunknown) as [e He].
    rewrite He in Hp. discriminate.
Qed.

End PrepareFacts.

(** X15. Single and parallel mode resolve every item before they run any:
    when one item of the request, at any position, names an unknown skill or
    has a configuration in error, no task runs, no process is spawned, no
    update is sent, and the call returns a text with an empty result list. *)
Theorem unresolvable_item_runs_nothing (w : World) (env : Env) (n : NormalizedParams)
    (sessionFile : option string) (schedule : list nat) (item : TaskWorkItem) :
  In item (items n) ->
  (exists t, resolveTaskConfig (configOptionsFor env n item) = Err t)
  \/ Spec.unknownSkill env item ->
  forall E,
    E = executeSingle w env n sessionFile
    \/ E = executeParallel w env n sessionFile schedule ->
    ran E = [] /\ spawned E = [] /\ updates E = []
    /\ exists r, returned E = Some r /\ d_results (details r) = [] /\ isError r = false.
Proof.
  intros Hin Hbad E HE.
  pose proof (prepareFrom_fails w env n item (items n) Hin Hbad [] []) as Hfail.
  fold (prepareTaskExecutions w env n) in Hfail.
  destruct HE as [-> | ->]; unfold executeSingle, executeParallel;
    destruct (prepareTaskExecutions w env n) as [executions|e]; try discriminate;
    cbn; repeat split; eexists; repeat split.
Qed.

Lemma unresolvable_item_runs_nothing_witness :
  let n := mkParams parallel None "inherit"
             [Samples.plainItem "first"; mkItem "second" (Some "scout") None None false] in
  let E := executeParallel (Samples.world (fun _ _ => Samples.says "ok")) (Samples.env 4)
             n None [0%nat; 1%nat] in
  Spec.unknownSkill (Samples.env 4) (mkItem "second" (Some "scout") None None false)
  /\ ran E = [] /\ spawned E = [].
Proof.
  cbv zeta.
  assert (Hunknown : Spec.unknownSkill (Samples.env 4)
                       (mkItem "second" (Some "scout") None None false))
    by (split; reflexivity).
  split; [exact Hunknown|].
  destruct (unresolvable_item_runs_nothing
              (Samples.world (fun _ _ => Samples.says "ok")) (Samples.env 4)
              (mkParams parallel None "inherit"
                 [Samples.plainItem "first"; mkItem "second" (Some "scout") None None false])
              None [0%nat; 1%nat] (mkItem "second" (Some "scout") None None false)
              (or_intror (or_introl eq_refl)) (or_intror Hunknown) _ (or_intror eq_refl))
    as (Hran & Hspawned & _).
  split; [exact Hran|exact Hspawned].
Defined.

Section CompleteSchedule.

Context {TIn TOut : Type}.
Variable items : list TIn.
Variable concurrency : Z.
Variable fn : TIn -> nat -> TOut.


End CompleteSchedule.





(** ** Chain mode and the overall status *)

Section ChainMore.

Variable w : World.
Variable env : Env.
Variable n : NormalizedParams.
Variable sessionFile : option string.

(** A chain that returns an error holds a failed result. *)
Lemma chainFrom_error (remaining : list TaskWorkItem) :
  forall index results previousOutput cache ran0 spawned0 updates0 r,
    length results = (index + length remaining)%nat ->
    returned (chainFrom w env n sessionFile remaining index results previousOutput cache
                ran0 spawned0 updates0) = Some r ->
    isError r = true ->
    d_mode (details r) = mode n
    /\ exists i ri, d_results (details r) !! i = Some ri /\ isTaskError ri = true.
Proof.
  induction remaining as [|item rest IH];
    intros index results previousOutput cache ran0 spawned0 updates0 r Hlen H Herr;
    cbn [chainFrom] in H.
  - destruct (List.last (map Some results) None); cbn in H; [|discriminate].
    injection H as <-. discriminate.
  - destruct (resolveTaskConfig (configOptionsFor env n item)) as [config|e];
      [|cbn in H; injection H as <-; discriminate].
    destruct (buildSubprocessPrompt _ _ _ cache _) as [[prepared|e] cache'];
      [|cbn in H; injection H as <-; discriminate].
    cbv zeta in H.
    match type of H with
    | context [runSingleTask w ?o] => set (outcome := runSingleTask w o) in *
    end.
    destruct (taskReturns outcome); cbn [negb] in H; [|discriminate].
    destruct (isTaskError (result outcome)) eqn:He.
    + cbn in H. injection H as <-. cbn. split; [reflexivity|].
      exists index, (result outcome).
      split; [|exact He].
      apply list_lookup_insert_eq. rewrite length_insert. cbn [length] in Hlen. lia.
    + eapply IH; [|exact H|exact Herr].
      rewrite !length_insert. cbn [length] in Hlen. lia.
Qed.

(** Every step that ran was given the final output of the step before it. *)
Lemma chainFrom_threads (remaining : list TaskWorkItem) :
  forall index results previousOutput cache ran0 spawned0 updates0 r,
    length results = (index + length remaining)%nat ->
    length ran0 = index ->
    (forall j item, remaining !! j = Some item -> items n !! (index + j)%nat = Some item) ->
    previousOutput = Spec.previousOutputAt results index ->
    (forall i ri item, (i < index)%nat -> results !! i = Some ri ->
       items n !! i = Some item ->
       r_prompt ri = buildChainPrompt (prompt item) (Spec.previousOutputAt results i)) ->
    let E := chainFrom w env n sessionFile remaining index results previousOutput cache
               ran0 spawned0 updates0 in
    returned E = Some r ->
    forall i ri item, (i < length (ran E))%nat ->
      d_results (details r) !! i = Some ri -> items n !! i = Some item ->
      r_prompt ri
      = buildChainPrompt (prompt item) (Spec.previousOutputAt (d_results (details r)) i).
Proof.
  induction remaining as [|item rest IH];
    intros index results previousOutput cache ran0 spawned0 updates0 r
      Hlen Hran Hitems Hprev Hdone; cbv zeta; cbn [chainFrom]; intros H.
  - destruct (List.last (map Some results) None); cbn in H; [|discriminate].
    injection H as <-. cbn. rewrite Hran. exact Hdone.
  - destruct (resolveTaskConfig (configOptionsFor env n item)) as [config|e];
      [|cbn in H; injection H as <-; cbn; rewrite Hran; exact Hdone].
    destruct (buildSubprocessPrompt _ _ _ cache _) as [[prepared|e] cache'];
      [|cbn in H; injection H as <-; cbn; rewrite Hran; exact Hdone].
    cbv zeta in H |- *.
    match type of H with
    | context [runSingleTask w ?o] =>
        pose proof (runSingleTask_identity w o) as Hid;
        set (outcome := runSingleTask w o) in *
    end.
    cbv zeta in Hid. destruct Hid as (Hprompt & _). cbn [o_item withPrompt prompt] in Hprompt.
    set (results1 := <[index := createPlaceholderResult _ _ _ _ RUNNING]> results) in *.
    set (results2 := <[index := result outcome]> results1) in *.
    assert (Hindex : (index < length results)%nat) by (cbn [length] in Hlen; lia).
    assert (Hsame : forall i, i <> index -> results2 !! i = results !! i).
    { intros i Hi. unfold results2, results1.
      rewrite !list_lookup_insert_ne by auto. reflexivity. }
    assert (Hat : results2 !! index = Some (result outcome)).
    { unfold results2. apply list_lookup_insert_eq. unfold results1.
      rewrite length_insert. exact Hindex. }
    assert (Hprevsame : forall i, (i <= index)%nat ->
              Spec.previousOutputAt results2 i = Spec.previousOutputAt results i).
    { intros [|j] Hj; [reflexivity|]. cbn [Spec.previousOutputAt].
      rewrite Hsame by lia. reflexivity. }
    assert (Hdone2 : forall i ri item0, (i < S index)%nat -> results2 !! i = Some ri ->
              items n !! i = Some item0 ->
              r_prompt ri
              = buildChainPrompt (prompt item0) (Spec.previousOutputAt results2 i)).
    { intros i ri item0 Hi Hri Hitem0. rewrite Hprevsame by lia.
      destruct (Nat.eq_dec i index) as [->|Hne].
      - rewrite Hat in Hri. injection Hri as <-.
        specialize (Hitems 0%nat item eq_refl). rewrite Nat.add_0_r in Hitems.
        rewrite Hitems in Hitem0. injection Hitem0 as <-.
        rewrite Hprompt, Hprev. reflexivity.
      - rewrite Hsame in Hri by exact Hne. apply Hdone; [lia|exact Hri|exact Hitem0]. }
    destruct (taskReturns outcome); cbn [negb] in H |- *; [|discriminate].
    destruct (isTaskError (result outcome)).
    + cbn in H. injection H as <-. cbn [ran details d_results makeDetails].
      rewrite length_app, Hran. cbn [length]. rewrite Nat.add_1_r. exact Hdone2.
    + revert H. apply IH.
      * unfold results2, results1. rewrite !length_insert. cbn [length] in Hlen. lia.
      * rewrite length_app, Hran. cbn. lia.
      * intros j item0 Hj. replace (S index + j)%nat with (index + S j)%nat by lia.
        apply Hitems. exact Hj.
      * cbn [Spec.previousOutputAt]. rewrite Hat. reflexivity.
      * exact Hdone2.
Qed.

End ChainMore.

Lemma existsb_Exists {A : Type} (f : A -> bool) (l : list A) :
  existsb f l = true <-> Exists (fun x => f x = true) l.
Proof.
  rewrite existsb_exists, List.Exists_exists. reflexivity.
Qed.

Lemma existsb_false_Forall {A : Type} (f : A -> bool) (l : list A) :
  existsb f l = false <-> Forall (fun x => f x = false) l.
Proof.
  induction l as [|x l IH]; cbn [existsb].
  - split; [constructor|reflexivity].
  - rewrite orb_false_iff, IH. split.
    + intros [H1 H2]. constructor; assumption.
    + intros H. inversion H; subst. auto.
Qed.

(** X17. Only a failed chain step flags the call as an error. Whenever
    [execute] returns a value with [isError] set, the request was a chain,
    one of the results it returns classifies as failed, and the status shown
    for the chain is Failed. A request that is rejected, a single task that
    fails and parallel tasks that fail are reported in the text only. *)
Theorem only_failed_chain_is_error (w : World) (env : Env) (params : Value)
    (schedule : list nat) (r : ToolResult) :
  returned (execute w env params schedule) = Some r ->
  isError r = true ->
  exists n,
    normalizeTaskParams params (mkOptions (envMaxParallelTasks env)) = Ok n
    /\ mode n = chain /\ d_mode (details r) = chain
    /\ (exists i ri, d_results (details r) !! i = Some ri /\ isTaskError ri = true)
    /\ getChainStatus (d_results (details r)) = Failed.
Proof.
  unfold execute.
  destruct (normalizeTaskParams params (mkOptions (envMaxParallelTasks env)))
    as [n|e] eqn:Hn; [|cbn; intros H; injection H as <-; discriminate].
  destruct (existsb fork (items n) && _);
    [cbn; intros H; injection H as <-; discriminate|].
  destruct (mode n) eqn:Hmode.
  - unfold executeSingle.
    destruct (prepareTaskExecutions w env n) as [[|execution rest]|e];
      [discriminate| |cbn; intros H; injection H as <-; discriminate].
    cbv zeta. destruct (negb (taskReturns _)); [discriminate|].
    destruct (isTaskError _); cbn; intros H; injection H as <-; discriminate.
  - unfold executeParallel.
    destruct (prepareTaskExecutions w env n) as [executions|e];
      [|cbn; intros H; injection H as <-; discriminate].
    cbv zeta. destruct (mapWithConcurrencyLimit _ _ _ _) as [slots|]; [|discriminate].
    destruct (mapM _ slots); [|discriminate].
    cbn. intros H. injection H as <-. discriminate.
  - intros H Herr. exists n. split; [reflexivity|]. split; [exact Hmode|].
    destruct (chainFrom_error w env n _ (items n) 0 (chainPlaceholders n) EmptyString
                [] [] [] [] r (chainPlaceholders_length n) H Herr)
      as (Hdm & i & ri & Hri & Hfailed).
    split; [rewrite Hdm; exact Hmode|]. split; [eauto|].
    unfold getChainStatus.
    assert (Hex : existsb isTaskError (d_results (details r)) = true).
    { apply existsb_exists. exists ri. split; [|exact Hfailed].
      apply list_elem_of_In. eapply list_elem_of_lookup_2. exact Hri. }
    rewrite Hex. reflexivity.
Qed.

Lemma only_failed_chain_is_error_witness :
  let params :=
    Samples.request "chain"
      [Samples.task "find the bug"; Samples.task "fix it: {previous}";
       Samples.task "test: {previous}"] in
  exists r,
    returned (execute Samples.secondFails (Samples.env 4) params []) = Some r
    /\ isError r = true
    /\ getChainStatus (d_results (details r)) = Failed
    /\ map getTaskStatus (d_results (details r)) = [Done; Failed; Pending].
Proof.
  cbv zeta.
  set (params := Samples.request "chain"
      [Samples.task "find the bug"; Samples.task "fix it: {previous}";
       Samples.task "test: {previous}"]).
  destruct (returned (execute Samples.secondFails (Samples.env 4) params []))
    as [r|] eqn:Hr; [|vm_compute in Hr; discriminate].
  assert (Herr : isError r = true).
  { assert (H : option_map isError (Some r) = Some true)
      by (rewrite <- Hr; vm_compute; reflexivity).
    injection H as H. exact H. }
  destruct (only_failed_chain_is_error Samples.secondFails (Samples.env 4) params [] r
              Hr Herr) as (n & _ & _ & _ & _ & Hstatus).
  exists r. split; [reflexivity|]. split; [exact Herr|]. split; [exact Hstatus|].
  assert (H : option_map (fun r => map getTaskStatus (d_results (details r))) (Some r)
              = Some [Done; Failed; Pending])
    by (rewrite <- Hr; vm_compute; reflexivity).
  injection H as H. exact H.
Defined.

(** X18. Every step of a chain that ran was given the final output of the
    step before it: the prompt recorded in its result is the prompt of its
    item with the token replaced by the final output of the previous result,
    and by nothing for the first step. *)
Theorem chain_threads_previous_output (w : World) (env : Env) (n : NormalizedParams)
    (sessionFile : option string) (r : ToolResult) :
  let E := executeChain w env n sessionFile in
  returned E = Some r ->
  forall i ri item, (i < length (ran E))%nat ->
    d_results (details r) !! i = Some ri -> items n !! i = Some item ->
    r_prompt ri
    = buildChainPrompt (prompt item) (Spec.previousOutputAt (d_results (details r)) i).
Proof.
  cbv zeta. unfold executeChain.
  apply (chainFrom_threads w env n sessionFile (items n) 0 (chainPlaceholders n)
           EmptyString [] [] [] [] r).
  - apply chainPlaceholders_length.
  - reflexivity.
  - intros j item Hj. exact Hj.
  - reflexivity.
  - intros i ri item Hi. lia.
Qed.

Lemma chain_threads_previous_output_witness :
  let w := Samples.world (fun index _ =>
             match index with
             | Some 1%nat => Samples.says "line 7"
             | _ => Samples.says "patched"
             end) in
  exists r,
    returned (executeChain w (Samples.env 4) Samples.threeSteps None) = Some r
    /\ (forall r2, d_results (details r) !! 1%nat = Some r2 ->
          r_prompt r2 = "fix it: line 7")
    /\ map r_prompt (d_results (details r))
       = ["find the bug"; "fix it: line 7"; "test: patched"].
Proof.
  cbv zeta.
  set (w := Samples.world (fun index _ =>
             match index with
             | Some 1%nat => Samples.says "line 7"
             | _ => Samples.says "patched"
             end)).
  destruct (returned (executeChain w (Samples.env 4) Samples.threeSteps None))
    as [r|] eqn:Hr; [|vm_compute in Hr; discriminate].
  exists r. split; [reflexivity|].
  assert (Hall : option_map (fun r => map r_prompt (d_results (details r))) (Some r)
                 = Some ["find the bug"; "fix it: line 7"; "test: patched"])
    by (rewrite <- Hr; vm_compute; reflexivity).
  injection Hall as Hall.
  assert (Hprev : option_map (fun r => Spec.previousOutputAt (d_results (details r)) 1)
                    (Some r) = Some "line 7")
    by (rewrite <- Hr; vm_compute; reflexivity).
  injection Hprev as Hprev.
  split; [|exact Hall].
  intros r2 Hr2.
  rewrite (chain_threads_previous_output w (Samples.env 4) Samples.threeSteps None r Hr
             1%nat r2 (Samples.plainItem "fix it: {previous}")); [| |exact Hr2|reflexivity].
  - unfold Spec.previousOutputAt. rewrite Hprev. vm_compute. reflexivity.
  - assert (Hran : length (ran (executeChain w (Samples.env 4) Samples.threeSteps None))
                   = 3%nat) by (vm_compute; reflexivity).
    rewrite Hran. lia.
Defined.

Lemma getTaskStatus_Done (r : SingleResult) :
  getTaskStatus r = Done
  <-> isTaskPending r = false /\ isTaskRunning r = false /\ isTaskError r = false.
Proof.
  unfold getTaskStatus.
  destruct (isTaskPending r), (isTaskRunning r), (isTaskError r);
    split; try discriminate; try tauto; intros (H1 & H2 & H3); discriminate.
Qed.

Lemma status_counts (f g : SingleResult -> bool) (l : list SingleResult) :
  (forall r, f r = true -> g r = false) ->
  (length (List.filter (fun r => negb (f r) && negb (g r)) l)
   + length (List.filter f l) + length (List.filter g l))%nat = length l.
Proof.
  intros Hdisjoint. induction l as [|r l IH]; [reflexivity|].
  cbn [List.filter]. specialize (Hdisjoint r).
  destruct (f r), (g r); cbn [negb andb length];
    try discriminate (Hdisjoint eq_refl); lia.
Qed.

(** X19. The overall status of a list of results agrees with the status of
    its results. Neither overall status is ever Pending. A chain is Done
    exactly when every result is Done, and Failed exactly when some result
    classifies as failed, also while other results are running or pending;
    parallel tasks are Running exactly when some result is running, also
    when another one has failed, and, with no pending result, Done exactly
    when every result is Done. Every result is counted once as completed,
    running or pending, and the progress line of parallel mode counts every
    result as done or as running. *)
Theorem overall_status_agrees (results : list SingleResult) :
  getParallelStatus results <> Pending /\ getChainStatus results <> Pending
  /\ (getChainStatus results = Done
      <-> Forall (fun r => getTaskStatus r = Done) results)
  /\ (getChainStatus results = Failed
      <-> Exists (fun r => isTaskError r = true) results)
  /\ (getParallelStatus results = Running
      <-> Exists (fun r => isTaskRunning r = true) results)
  /\ (Forall (fun r => isTaskPending r = false) results ->
      (getParallelStatus results = Done
       <-> Forall (fun r => getTaskStatus r = Done) results))
  /\ (countCompletedTasks results
      + length (List.filter isTaskRunning results)
      + length (List.filter isTaskPending results))%nat = length results
  /\ (shownDone results + shownRunning results)%nat = length results.
Proof.
  unfold getParallelStatus, getChainStatus. cbv zeta.
  set (inProgress := fun result => isTaskRunning result || isTaskPending result).
  split; [destruct (existsb isTaskRunning results), (existsb isTaskError results);
          discriminate|].
  split; [destruct (existsb isTaskError results), (existsb inProgress results);
          discriminate|].
  split.
  { destruct (existsb isTaskError results) eqn:He.
    - split; [discriminate|]. intros Hall. exfalso.
      apply existsb_exists in He as (r & Hin & Hr).
      rewrite List.Forall_forall in Hall. apply Hall, getTaskStatus_Done in Hin.
      destruct Hin as (_ & _ & Hne). congruence.
    - destruct (existsb inProgress results) eqn:Hp.
      + split; [discriminate|]. intros Hall. exfalso.
        apply existsb_exists in Hp as (r & Hin & Hr).
        rewrite List.Forall_forall in Hall. apply Hall, getTaskStatus_Done in Hin.
        destruct Hin as (H1 & H2 & _). unfold inProgress in Hr.
        rewrite H1, H2 in Hr. discriminate.
      + split; [intros _|reflexivity].
        apply existsb_false_Forall in He, Hp.
        rewrite List.Forall_forall in *. intros r Hin.
        apply getTaskStatus_Done. specialize (He r Hin). specialize (Hp r Hin).
        unfold inProgress in Hp. apply orb_false_iff in Hp as [H1 H2]. auto. }
  split.
  { rewrite <- existsb_Exists. destruct (existsb isTaskError results).
    - split; reflexivity.
    - destruct (existsb inProgress results); split; discriminate. }
  split.
  { rewrite <- existsb_Exists. destruct (existsb isTaskRunning results).
    - split; reflexivity.
    - destruct (existsb isTaskError results); split; discriminate. }
  split.
  { intros Hnp. destruct (existsb isTaskRunning results) eqn:Hr.
    - split; [discriminate|]. intros Hall. exfalso.
      apply existsb_exists in Hr as (r & Hin & Hrun).
      rewrite List.Forall_forall in Hall. apply Hall, getTaskStatus_Done in Hin.
      destruct Hin as (_ & H2 & _). congruence.
    - destruct (existsb isTaskError results) eqn:He.
      + split; [discriminate|]. intros Hall. exfalso.
        apply existsb_exists in He as (r & Hin & Hfailed).
        rewrite List.Forall_forall in Hall. apply Hall, getTaskStatus_Done in Hin.
        destruct Hin as (_ & _ & H3). congruence.
      + split; [intros _|reflexivity].
        apply existsb_false_Forall in Hr, He.
        rewrite List.Forall_forall in *. intros r Hin.
        apply getTaskStatus_Done. auto. }
  split.
  { unfold countCompletedTasks. apply status_counts.
    intros r. unfold isTaskRunning, isTaskPending.
    destruct (Z.eqb_spec (exitCode r) (-1)) as [->|]; [reflexivity|discriminate]. }
  unfold shownDone, shownRunning.
  induction results as [|r l IH]; [reflexivity|].
  cbn [List.filter]. destruct (exitCode r =? -1); cbn [negb length]; lia.
Qed.

(** ** The text shown for a result *)

Lemma orElse_truthy (a b : string) : truthy b = true -> truthy (orElse a b) = true.
Proof. intros H. unfold orElse. destruct (truthy a) eqn:Ha; [exact Ha|exact H]. Qed.

(** X20. The text shown for a result is never empty. The error text is the
    error message when there is one, else the stderr text when there is
    some, else the final output, else a placeholder; the final text of a
    result is trimmed, and for a result that did not fail it is the trimmed
    final output or the placeholder. *)
Theorem shown_text_is_never_empty (r : SingleResult) :
  getTaskErrorText r <> EmptyString
  /\ formatFinalOutputText r <> EmptyString
  /\ trim (formatFinalOutputText r) = formatFinalOutputText r
  /\ (truthyOpt (errorMessage r) = true ->
      getTaskErrorText r = default EmptyString (errorMessage r))
  /\ (truthyOpt (errorMessage r) = false -> truthy (stderr r) = true ->
      getTaskErrorText r = stderr r)
  /\ (isTaskError r = false ->
      formatFinalOutputText r
      = orElse (trim (getFinalOutput (messages r))) "(no output)").
Proof.
  split.
  { apply truthy_true_iff. unfold getTaskErrorText.
    repeat apply orElse_truthy. reflexivity. }
  split.
  { apply truthy_true_iff. unfold formatFinalOutputText. cbv zeta.
    destruct (truthy (trim (getTaskOutputText r))) eqn:H; [exact H|reflexivity]. }
  split.
  { unfold formatFinalOutputText. cbv zeta.
    destruct (truthy (trim (getTaskOutputText r))); [apply trim_idempotent|reflexivity]. }
  split.
  { intros H. unfold getTaskErrorText, orElse.
    destruct (errorMessage r) as [m|]; [|discriminate]. cbn in H |- *.
    rewrite H. reflexivity. }
  split.
  { intros H Hs. unfold getTaskErrorText.
    assert (He : truthy (default EmptyString (errorMessage r)) = false)
      by (destruct (errorMessage r); [exact H|reflexivity]).
    unfold orElse at 1. rewrite He. unfold orElse at 1. rewrite Hs. reflexivity. }
  intros H. unfold formatFinalOutputText, getTaskOutputText, orElse. rewrite H. reflexivity.
Qed.

(** ** Skills *)

(** X21. The lookup of a skill by name finds a skill of the list with that
    name; it finds none exactly when the list has no skill of that name;
    and among several skills of one name it finds the last one. *)
Theorem skill_lookup_last_wins (skills : list Skill) (name : string) :
  (forall s, skillByName skills name = Some s -> In s skills /\ skillName s = name)
  /\ (skillByName skills name = None
      <-> forall s, In s skills -> skillName s <> name)
  /\ (forall before s after,
        skills = (before ++ s :: after)%list -> skillName s = name ->
        (forall s', In s' after -> skillName s' <> name) ->
        skillByName skills name = Some s).
Proof.
  assert (Hsound : forall l s, skillByName l name = Some s -> In s l /\ skillName s = name).
  { induction l as [|x l IH]; intros s H; cbn [skillByName] in H; [discriminate|].
    destruct (skillByName l name) as [later|].
    - injection H as <-. destruct (IH later eq_refl). split; [right|]; assumption.
    - destruct (String.eqb_spec (skillName x) name); [|discriminate].
      injection H as <-. split; [left; reflexivity|assumption]. }
  assert (Hnone : forall l, skillByName l name = None
                            <-> forall s, In s l -> skillName s <> name).
  { induction l as [|x l IH]; cbn [skillByName].
    - split; [intros _ s []|reflexivity].
    - destruct (skillByName l name) as [later|] eqn:Hl.
      + split; [discriminate|]. intros Hall. exfalso.
        destruct (Hsound l later Hl) as [Hin Hname].
        apply (Hall later); [right; exact Hin|exact Hname].
      + destruct (String.eqb_spec (skillName x) name) as [Heq|Hne].
        * split; [discriminate|]. intros Hall. exfalso.
          apply (Hall x); [left; reflexivity|exact Heq].
        * split; [|reflexivity]. intros _ s [<-|Hin]; [exact Hne|].
          apply (proj1 IH eq_refl). exact Hin. }
  split; [apply Hsound|]. split; [apply Hnone|].
  intros before s after -> Hname Hafter.
  induction before as [|x before IH]; cbn [app skillByName].
  - rewrite (proj2 (Hnone after) Hafter).
    destruct (String.eqb_spec (skillName s) name); [reflexivity|contradiction].
  - rewrite IH. reflexivity.
Qed.

Lemma buildSkillMessageBaseFrom_truthy (read : string -> Result string) (skill : Skill)
    (base : string) :
  buildSkillMessageBaseFrom read skill = Ok base -> truthy base = true.
Proof.
  unfold buildSkillMessageBaseFrom. destruct (read (filePath skill)); [|discriminate].
  cbv zeta. intros H. injection H as <-. reflexivity.
Qed.

(** X22. A skill file is read once in a call. When the prompt of an item
    with a skill has been built, the message base of the skill is in the
    cache and is not empty, and the prompt of every later item that names
    the same skill is built from it, whatever the file system then holds:
    the same base, followed by the prompt of that item, and the cache stays
    as it is. *)
Theorem skill_file_is_read_once (read read' : string -> Result string)
    (item item' : TaskWorkItem) (skills : list Skill) (cache cache' : BaseCache)
    (limit : nat) (p : string) :
  truthyOpt (skill item) = true ->
  skill item' = skill item ->
  buildSubprocessPrompt (buildSkillMessageBaseFrom read) item skills cache limit
  = (Ok p, cache') ->
  exists base,
    truthy base = true
    /\ p = base ++ String LF (String LF EmptyString) ++ "---"
           ++ String LF (String LF EmptyString) ++ "User: " ++ prompt item
    /\ buildSubprocessPrompt (buildSkillMessageBaseFrom read') item' skills cache' limit
       = (Ok (base ++ String LF (String LF EmptyString) ++ "---"
              ++ String LF (String LF EmptyString) ++ "User: " ++ prompt item'),
          cache').
Proof.
  intros Hs Hsame. unfold buildSubprocessPrompt. rewrite Hsame, Hs. cbn [negb].
  destruct (skillByName skills (default EmptyString (skill item))) as [s|]; [|discriminate].
  destruct (truthyOpt (cacheGet cache (skillName s))) eqn:Hhit.
  - intros H. injection H as <- <-. rewrite Hhit.
    exists (default EmptyString (cacheGet cache (skillName s))).
    split; [|split; reflexivity].
    destruct (cacheGet cache (skillName s)); [exact Hhit|discriminate].
  - destruct (buildSkillMessageBaseFrom read s) as [base|e] eqn:Hb; [|discriminate].
    intros H. injection H as <- <-.
    pose proof (buildSkillMessageBaseFrom_truthy read s base Hb) as Ht.
    exists base. split; [exact Ht|]. split; [reflexivity|].
    unfold cacheSet. cbn [cacheGet]. rewrite String.eqb_refl. cbn [truthyOpt default].
    rewrite Ht. reflexivity.
Qed.

Lemma skill_file_is_read_once_witness :
  let first := mkItem "map the repo" (Some "scout") None None false in
  let second := mkItem "list the tests" (Some "scout") None None false in
  exists p cache' base,
    buildSubprocessPrompt (buildSkillMessageBaseFrom Samples.withFile) first
      [Samples.scout] [] 30 = (Ok p, cache')
    /\ p = "Skill location: /skills/scout/SKILL.md" ++ Samples.nl
           ++ "References are relative to /skills/scout." ++ Samples.nl ++ Samples.nl
           ++ "Look around." ++ Samples.nl ++ Samples.nl ++ "---" ++ Samples.nl
           ++ Samples.nl ++ "User: map the repo"
    /\ truthy base = true
    /\ buildSubprocessPrompt (buildSkillMessageBaseFrom Samples.withoutFiles) second
         [Samples.scout] cache' 30
       = (Ok (base ++ Samples.nl ++ Samples.nl ++ "---" ++ Samples.nl ++ Samples.nl
              ++ "User: list the tests"), cache').
Proof.
  cbv zeta.
  set (first := mkItem "map the repo" (Some "scout") None None false).
  set (second := mkItem "list the tests" (Some "scout") None None false).
  destruct (buildSubprocessPrompt (buildSkillMessageBaseFrom Samples.withFile) first
              [Samples.scout] [] 30) as [[p|e] cache'] eqn:Hp;
    [|vm_compute in Hp; discriminate].
  destruct (skill_file_is_read_once Samples.withFile Samples.withoutFiles first second
              [Samples.scout] [] cache' 30 p eq_refl eq_refl Hp)
    as (base & Ht & _ & Hsecond).
  exists p, cache', base. split; [reflexivity|].
  split; [vm_compute in Hp; injection Hp as <- _; reflexivity|].
  split; [exact Ht|exact Hsecond].
Defined.

(** ** Skill files *)

Lemma occurs_trimStart (c : ascii) (s : string) :
  Spec.occurs c s = false -> Spec.occurs c (trimStart s) = false.
Proof.
  induction s as [|a s IH]; [reflexivity|]. cbn [trimStart].
  destruct (isWhiteSpace a); [|auto].
  cbn [Spec.occurs]. intros H. apply orb_false_iff in H as [_ H]. auto.
Qed.

Lemma occurs_trimEnd (c : ascii) (s : string) :
  Spec.occurs c s = false -> Spec.occurs c (trimEnd s) = false.
Proof.
  induction s as [|a s IH]; [reflexivity|]. cbn [trimEnd Spec.occurs].
  intros H. apply orb_false_iff in H as [Ha H]. specialize (IH H).
  destruct (trimEnd s) as [|b r].
  - destruct (isWhiteSpace a); [reflexivity|]. cbn [Spec.occurs]. rewrite Ha. reflexivity.
  - cbn [Spec.occurs] in IH |- *. rewrite Ha. exact IH.
Qed.

Lemma occurs_substring (c : ascii) (s : string) :
  Spec.occurs c s = false ->
  forall from len, Spec.occurs c (String.substring from len s) = false.
Proof.
  induction s as [|a s IH]; intros H from len.
  - destruct from, len; reflexivity.
  - cbn [Spec.occurs] in H. apply orb_false_iff in H as [Ha H].
    destruct from as [|from]; cbn [String.substring].
    + destruct len as [|len]; [reflexivity|]. cbn [Spec.occurs].
      rewrite Ha. apply IH. exact H.
    + apply IH. exact H.
Qed.

Lemma occurs_afterClosingFence (c : ascii) (s t : string) :
  afterClosingFence s = Some t -> Spec.occurs c s = false -> Spec.occurs c t = false.
Proof.
  induction s as [|a s IH]; [discriminate|]. cbn [afterClosingFence].
  destruct (String.prefix closingFence (String a s)).
  - intros H Hs. injection H as <-. unfold sliceFrom. apply occurs_substring. exact Hs.
  - intros H Hs. cbn [Spec.occurs] in Hs. apply orb_false_iff in Hs as [_ Hs]. auto.
Qed.

Lemma occurs_replaceCR (s : string) : Spec.occurs CR (replaceCR s) = false.
Proof.
  induction s as [|a s IH]; [reflexivity|]. cbn [replaceCR Spec.occurs].
  rewrite IH, orb_false_r.
  destruct (Ascii.eqb a CR) eqn:E; [reflexivity|].
  rewrite Ascii.eqb_sym. exact E.
Qed.

Lemma prefix_app (p q : string) : String.prefix p (p ++ q) = true.
Proof. apply String.prefix_correct. apply substring_prefix. Qed.

Lemma sliceFrom_app (p q : string) : sliceFrom (p ++ q) (String.length p) = q.
Proof.
  unfold sliceFrom. rewrite substring_skip, string_length_app.
  replace (String.length p + String.length q - String.length p)%nat
    with (String.length q) by lia.
  apply substring_all.
Qed.

(** A text that starts with a fence line starts with the line [---]. *)
Lemma fence_line_start (s t : string) :
  String.prefix openingFence (s ++ String LF t) = true ->
  exists rest, splitLines s = "---" :: rest.
Proof.
  unfold openingFence. intros H.
  destruct s as [|a s]; [discriminate|]. cbn [append String.prefix] in H.
  destruct (Ascii.ascii_dec "-" a) as [<-|]; [|discriminate].
  destruct s as [|b s]; [discriminate|]. cbn [append String.prefix] in H.
  destruct (Ascii.ascii_dec "-" b) as [<-|]; [|discriminate].
  destruct s as [|c s]; [discriminate|]. cbn [append String.prefix] in H.
  destruct (Ascii.ascii_dec "-" c) as [<-|]; [|discriminate].
  destruct s as [|d s]; [exists []; reflexivity|]. cbn [append String.prefix] in H.
  destruct (Ascii.ascii_dec LF d) as [<-|]; [|discriminate].
  exists (splitLines s). reflexivity.
Qed.

Lemma in_tl {A : Type} (x : A) (l : list A) : In x (tl l) -> In x l.
Proof. destruct l; [auto|right; assumption]. Qed.

(** The closing fence that ends the front matter is the first one when no
    line of the front matter after its first line is a fence. *)
Lemma afterClosingFence_first (meta body : string) :
  ~ In "---" (tl (splitLines meta)) ->
  afterClosingFence (meta ++ closingFence ++ body) = Some body.
Proof.
  induction meta as [|c m IH]; intros Hno.
  - cbn [append]. change (closingFence ++ body) with (String LF (openingFence ++ body)).
    cbn [afterClosingFence].
    change (String LF (openingFence ++ body)) with (closingFence ++ body).
    rewrite prefix_app, sliceFrom_app. reflexivity.
  - cbn [append afterClosingFence].
    assert (Hprefix : String.prefix closingFence (String c (m ++ closingFence ++ body))
                      = false).
    { unfold closingFence at 1. cbn [String.prefix].
      destruct (Ascii.ascii_dec LF c) as [<-|]; [|reflexivity].
      destruct (String.prefix ("---" ++ String LF EmptyString) (m ++ closingFence ++ body))
        eqn:Hp; [|reflexivity].
      exfalso. apply Hno.
      destruct (fence_line_start m (openingFence ++ body) Hp) as [rest Hrest].
      cbn [splitLines]. rewrite Ascii.eqb_refl. cbn [tl]. rewrite Hrest. left. reflexivity. }
    rewrite Hprefix. apply IH. intros Hin. apply Hno.
    cbn [splitLines]. destruct (Ascii.eqb c LF).
    + cbn [tl]. apply in_tl. exact Hin.
    + pose proof (splitLines_nonempty m) as Hne.
      destruct (splitLines m) as [|l ls]; [contradiction|]. exact Hin.
Qed.

(** X23. What [stripYamlFrontmatter] returns is trimmed and holds no
    carriage return. When the text, with its line ends normalized, opens
    with a fence line, some front matter and a closing fence line, the
    result is the trimmed text after the first closing fence, which is the
    closing fence when no line of the front matter after its first line is
    a fence line; when the text does not open with a fence line, only the
    line ends are normalized and the text is trimmed. *)
Theorem frontmatter_is_stripped (content : string) :
  trim (stripYamlFrontmatter content) = stripYamlFrontmatter content
  /\ Spec.occurs CR (stripYamlFrontmatter content) = false
  /\ (forall meta body,
        normalizeNewlines content = openingFence ++ meta ++ closingFence ++ body ->
        ~ In "---" (tl (splitLines meta)) ->
        stripYamlFrontmatter content = trim body)
  /\ (String.prefix openingFence (normalizeNewlines content) = false ->
      stripYamlFrontmatter content = trim (normalizeNewlines content)).
Proof.
  unfold stripYamlFrontmatter.
  split; [apply trim_idempotent|]. split.
  { unfold trim. apply occurs_trimEnd, occurs_trimStart.
    assert (Hn : Spec.occurs CR (normalizeNewlines content) = false)
      by apply occurs_replaceCR.
    unfold removeFrontmatter.
    destruct (String.prefix openingFence (normalizeNewlines content)); [|exact Hn].
    destruct (afterClosingFence _) as [rest|] eqn:Hrest; [|exact Hn].
    apply (occurs_afterClosingFence CR _ _ Hrest).
    unfold sliceFrom. apply occurs_substring. exact Hn. }
  split.
  - intros meta body Hshape Hno. rewrite Hshape. unfold removeFrontmatter.
    rewrite prefix_app, sliceFrom_app, (afterClosingFence_first meta body Hno).
    reflexivity.
  - intros Hnone. unfold removeFrontmatter. rewrite Hnone. reflexivity.
Qed.

Example frontmatter_of_a_skill_file :
  stripYamlFrontmatter Samples.scoutFile = "Look around."
  /\ buildSkillMessageBaseFrom Samples.withFile Samples.scout
     = Ok ("Skill location: /skills/scout/SKILL.md" ++ Samples.nl
           ++ "References are relative to /skills/scout." ++ Samples.nl ++ Samples.nl
           ++ "Look around.").
Proof. split; vm_compute; reflexivity. Qed.

(** ** Indented text *)

Lemma join_splitLines (s : string) : join (String LF EmptyString) (splitLines s) = s.
Proof.
  induction s as [|c s IH]; [reflexivity|]. cbn [splitLines].
  pose proof (splitLines_nonempty s) as Hne.
  destruct (Ascii.eqb_spec c LF) as [->|Hc].
  - destruct (splitLines s) as [|l ls]; [contradiction|].
    cbn [join append] in IH |- *. rewrite IH. reflexivity.
  - destruct (splitLines s) as [|l ls]; [contradiction|].
    destruct ls as [|l' ls]; cbn [join append] in IH |- *; rewrite IH; reflexivity.
Qed.

Lemma occurs_app (c : ascii) (a b : string) :
  Spec.occurs c (a ++ b) = Spec.occurs c a || Spec.occurs c b.
Proof.
  induction a as [|x a IH]; [reflexivity|]. cbn [append Spec.occurs].
  rewrite IH. apply orb_assoc.
Qed.

Lemma splitLines_line (l t : string) :
  Spec.occurs LF l = false -> splitLines (l ++ String LF t) = l :: splitLines t.
Proof.
  induction l as [|c l IH]; intros H; cbn [append splitLines].
  - rewrite Ascii.eqb_refl. reflexivity.
  - cbn [Spec.occurs] in H. apply orb_false_iff in H as [Hc H].
    rewrite Ascii.eqb_sym, Hc, (IH H). reflexivity.
Qed.

Lemma splitLines_one (l : string) : Spec.occurs LF l = false -> splitLines l = [l].
Proof.
  induction l as [|c l IH]; intros H; cbn [splitLines]; [reflexivity|].
  cbn [Spec.occurs] in H. apply orb_false_iff in H as [Hc H].
  rewrite Ascii.eqb_sym, Hc, (IH H). reflexivity.
Qed.

Lemma splitLines_join (lines : list string) :
  lines <> [] ->
  Forall (fun l => Spec.occurs LF l = false) lines ->
  splitLines (join (String LF EmptyString) lines) = lines.
Proof.
  induction lines as [|l ls IH]; [contradiction|]. intros _ Hall.
  inversion Hall as [|? ? Hl Hls]; subst.
  destruct ls as [|l' ls]; [apply splitLines_one; exact Hl|].
  change (join (String LF EmptyString) (l :: l' :: ls))
    with (l ++ String LF (join (String LF EmptyString) (l' :: ls))).
  rewrite (splitLines_line _ _ Hl), IH; [reflexivity|discriminate|exact Hls].
Qed.

Lemma splitLines_no_LF (s : string) :
  Forall (fun l => Spec.occurs LF l = false) (splitLines s).
Proof.
  induction s as [|c s IH]; cbn [splitLines]; [repeat constructor|].
  destruct (Ascii.eqb c LF) eqn:E; [constructor; [reflexivity|exact IH]|].
  pose proof (splitLines_nonempty s) as Hne.
  destruct (splitLines s) as [|l ls]; [contradiction|].
  inversion IH; subst. constructor; [|assumption].
  cbn [Spec.occurs]. rewrite Ascii.eqb_sym, E. assumption.
Qed.

Lemma spaces_no_LF (k : nat) : Spec.occurs LF (spaces k) = false.
Proof. induction k as [|k IH]; [reflexivity|]. cbn [spaces Spec.occurs]. exact IH. Qed.

Lemma indentText_lines (text : string) (indent : nat) :
  splitLines (indentText text indent)
  = map (fun line => spaces indent ++ line) (splitLines text).
Proof.
  unfold indentText, indentLine. apply splitLines_join.
  - pose proof (splitLines_nonempty text). destruct (splitLines text); [contradiction|discriminate].
  - apply List.Forall_map. eapply List.Forall_impl; [|apply splitLines_no_LF].
    intros l Hl. cbv beta. rewrite occurs_app, spaces_no_LF, Hl. reflexivity.
Qed.

(** X24. Indenting a text keeps its lines: the lines of the indented text
    are the lines of the text, each after that many spaces, and an indent
    of 0 gives the text back. A section is the line of its label, followed
    by a colon, and the lines of its body indented by two more. *)
Theorem indentation_keeps_lines (text : string) (indent : nat) :
  splitLines (indentText text indent)
  = map (fun line => spaces indent ++ line) (splitLines text)
  /\ indentText text 0 = text
  /\ (forall label, Spec.occurs LF label = false ->
        splitLines (formatSection label text indent)
        = (spaces indent ++ label ++ ":")
          :: map (fun line => spaces (indent + 2) ++ line) (splitLines text)).
Proof.
  split; [apply indentText_lines|]. split.
  - unfold indentText, indentLine. cbn [spaces append].
    rewrite map_id. apply join_splitLines.
  - intros label Hlabel. unfold formatSection, indentLine.
    change (String LF EmptyString ++ indentText text (indent + 2))
      with (String LF (indentText text (indent + 2))).
    rewrite splitLines_line, indentText_lines; [reflexivity|].
    rewrite !occurs_app, spaces_no_LF, Hlabel. reflexivity.
Qed.

(** ** Updates *)

Lemma emit_silent (env : Env) (update : ToolResult) :
  hasOnUpdate env = false -> emit env update = [].
Proof. intros H. unfold emit. rewrite H. reflexivity. Qed.

Lemma flat_map_silent {A B : Type} (f : A -> list B) (l : list A) :
  (forall x, f x = []) -> flat_map f l = [].
Proof.
  intros H. induction l as [|x l IH]; [reflexivity|].
  cbn [flat_map]. rewrite H, IH. reflexivity.
Qed.

Lemma chainFrom_silent (w : World) (env : Env) (n : NormalizedParams)
    (sessionFile : option string) (remaining : list TaskWorkItem) :
  hasOnUpdate env = false ->
  forall index results previousOutput cache ran0 spawned0 updates0,
    updates (chainFrom w env n sessionFile remaining index results previousOutput cache
               ran0 spawned0 updates0) = updates0.
Proof.
  intros Hsilent.
  induction remaining as [|item rest IH];
    intros index results previousOutput cache ran0 spawned0 updates0; cbn [chainFrom].
  - destruct (List.last (map Some results) None); reflexivity.
  - destruct (resolveTaskConfig (configOptionsFor env n item)) as [config|e];
      [|reflexivity].
    destruct (buildSubprocessPrompt _ _ _ cache _) as [[prepared|e] cache'];
      [|reflexivity].
    cbv zeta. rewrite Hsilent, !(emit_silent env _ Hsilent), !app_nil_r.
    destruct (negb (taskReturns _)); [reflexivity|].
    destruct (isTaskError _); [reflexivity|]. apply IH.
Qed.

Lemma settleParallel_silent (w : World) (env : Env) (n : NormalizedParams)
    (sessionFile : option string) (executions : list PreparedExecution)
    (indices : list nat) :
  hasOnUpdate env = false ->
  forall acc, snd acc = [] ->
    snd (fold_left (settleParallel w env n sessionFile executions) indices acc) = [].
Proof.
  intros Hsilent. induction indices as [|i l IH]; intros acc Hacc; cbn [fold_left].
  - exact Hacc.
  - apply IH. unfold settleParallel. destruct (executions !! i); [|exact Hacc].
    cbv zeta. cbn [snd]. rewrite Hacc. unfold emitParallelUpdate.
    rewrite (emit_silent env _ Hsilent), app_nil_r.
    apply flat_map_silent. intros partial. apply emit_silent. exact Hsilent.
Qed.

(** X25. A call without an update callback sends no update, in any mode and
    however its tasks end. *)
Theorem no_callback_no_updates (w : World) (env : Env) (params : Value)
    (schedule : list nat) :
  hasOnUpdate env = false ->
  updates (execute w env params schedule) = [].
Proof.
  intros Hsilent. unfold execute.
  destruct (normalizeTaskParams params _) as [n|e]; [|reflexivity].
  destruct (existsb fork (items n) && _); [reflexivity|].
  destruct (mode n).
  - unfold executeSingle.
    destruct (prepareTaskExecutions w env n) as [[|execution rest]|e]; try reflexivity.
    cbv zeta.
    assert (Hupdates : forall (initial : SingleResult) (partials : list SingleResult),
              (emit env (mkToolResult
                           (orElse (getFinalOutput (messages initial)) "(running...)")
                           (makeDetails n [initial]) false)
               ++ flat_map (fun result =>
                    emit env (mkToolResult
                                (orElse (getFinalOutput (messages result)) "(running...)")
                                (makeDetails n [result]) false)) partials)%list = []).
    { intros initial partials. rewrite (emit_silent env _ Hsilent). cbn [app].
      apply flat_map_silent. intros result. apply emit_silent. exact Hsilent. }
    destruct (negb (taskReturns _)); [|destruct (isTaskError _)];
      cbn [updates]; apply Hupdates.
  - unfold executeParallel.
    destruct (prepareTaskExecutions w env n) as [executions|e]; [|reflexivity].
    cbv zeta.
    assert (Hupdates :
      snd (fold_left (settleParallel w env n
                        (if existsb fork (items n) then sessionFileOfSession env else None)
                        executions)
             (settled (runSchedule executions (maxConcurrency env)
                         (parallelTask w env
                            (if existsb fork (items n) then sessionFileOfSession env
                             else None)) schedule))
             (parallelPlaceholders executions,
              emitParallelUpdate env n (parallelPlaceholders executions))) = []).
    { apply settleParallel_silent; [exact Hsilent|].
      apply emit_silent. exact Hsilent. }
    destruct (mapWithConcurrencyLimit _ _ _ _) as [slots|]; [|exact Hupdates].
    destruct (mapM _ slots); exact Hupdates.
  - unfold executeChain. apply chainFrom_silent. exact Hsilent.
Qed.

Lemma no_callback_no_updates_witness :
  let env := mkEnv [] "medium" ["read"] None None false true 8 4 30 in
  let params :=
    Samples.request "chain" [Samples.task "find the bug"; Samples.task "fix it: {previous}"] in
  updates (execute Samples.secondFails env params []) = []
  /\ ran (execute Samples.secondFails env params []) = [Some 1%nat; Some 2%nat].
Proof.
  cbv zeta. split.
  - apply (no_callback_no_updates Samples.secondFails
             (mkEnv [] "medium" ["read"] None None false true 8 4 30)). reflexivity.
  - vm_compute. reflexivity.
Defined.

(** ** The final output *)

Lemma finalOutputFrom_cons (m : Value) (earlier : list Value) :
  finalOutputFrom (m :: earlier)
  = match Spec.assistantText m with
    | Some t => t
    | None => finalOutputFrom earlier
    end.
Proof.
  cbn [finalOutputFrom]. unfold Spec.assistantText.
  destruct (roleIs m "assistant"); reflexivity.
Qed.

Lemma finalOutputFrom_skip (later earlier : list Value) (skipped : Value) :
  Spec.assistantText skipped = None ->
  finalOutputFrom (later ++ skipped :: earlier) = finalOutputFrom (later ++ earlier).
Proof.
  intros H. induction later as [|m later IH]; cbn [app].
  - rewrite finalOutputFrom_cons, H. reflexivity.
  - rewrite !finalOutputFrom_cons, IH. reflexivity.
Qed.

(** X26. The final output of a message log is the first text part of the
    last assistant message that has a text part, also when that text is
    empty, and the empty string when there is none: a message that is not
    from the assistant, or that has no text part, changes nothing wherever
    it stands in the log. *)
Theorem final_output_is_last_assistant_text (msgs : list Value) :
  getFinalOutput [] = EmptyString
  /\ (forall m,
        getFinalOutput (msgs ++ [m])
        = match Spec.assistantText m with
          | Some t => t
          | None => getFinalOutput msgs
          end)
  /\ (forall before skipped after,
        msgs = (before ++ skipped :: after)%list ->
        Spec.assistantText skipped = None ->
        getFinalOutput msgs = getFinalOutput (before ++ after))
  /\ (Forall (fun m => Spec.assistantText m = None) msgs -> getFinalOutput msgs = EmptyString).
Proof.
  unfold getFinalOutput. split; [reflexivity|]. split.
  { intros m. rewrite rev_app_distr. cbn [rev app]. apply finalOutputFrom_cons. }
  split.
  { intros before skipped after -> H.
    rewrite !rev_app_distr. cbn [rev]. rewrite <- app_assoc. cbn [app].
    apply finalOutputFrom_skip. exact H. }
  intros Hall. apply List.Forall_rev in Hall.
  induction Hall as [|m l Hm _ IH]; [reflexivity|].
  rewrite finalOutputFrom_cons, Hm. exact IH.
Qed.

(** ** A chain that succeeds *)

Lemma last_map_lookup {A : Type} (l : list A) :
  l <> [] -> List.last (map Some l) None = l !! (length l - 1)%nat.
Proof.
  induction l as [|a l IH]; [contradiction|]. intros _.
  destruct l as [|b l]; [reflexivity|].
  change (List.last (map Some (a :: b :: l)) None)
    with (List.last (map Some (b :: l)) None).
  rewrite IH by discriminate. cbn [length].
  replace (S (S (length l)) - 1)%nat with (S (length l)) by lia.
  replace (S (length l) - 1)%nat with (length l) by lia.
  reflexivity.
Qed.

Lemma chainFrom_success (w : World) (env : Env) (n : NormalizedParams)
    (sessionFile : option string) (remaining : list TaskWorkItem) :
  forall index results previousOutput cache ran0 spawned0 updates0 r,
    length results = (index + length remaining)%nat ->
    (0 < length results)%nat ->
    (forall i ri, (i < index)%nat -> results !! i = Some ri -> isTaskError ri = false) ->
    let E := chainFrom w env n sessionFile remaining index results previousOutput cache
               ran0 spawned0 updates0 in
    returned E = Some r -> isError r = false ->
    length (ran E) = (length ran0 + length remaining)%nat ->
    (forall i ri, d_results (details r) !! i = Some ri -> isTaskError ri = false)
    /\ exists last,
         d_results (details r) !! (length results - 1)%nat = Some last
         /\ text r = orElse (getFinalOutput (messages last)) "(no output)".
Proof.
  induction remaining as [|item rest IH];
    intros index results previousOutput cache ran0 spawned0 updates0 r
      Hlen Hpos Hgood; cbv zeta; cbn [chainFrom]; intros H Herr Hran.
  - assert (Hne : results <> []) by (destruct results; [cbn in Hpos; lia|discriminate]).
    rewrite (last_map_lookup results Hne) in H.
    destruct (results !! (length results - 1)%nat) as [last|] eqn:Hlast;
      cbn in H; [|discriminate].
    injection H as <-. cbn [details d_results makeDetails text]. split.
    + intros i ri Hri. apply (Hgood i ri); [|exact Hri].
      apply lookup_lt_Some in Hri. cbn [length] in Hlen. lia.
    + exists last. split; [exact Hlast|reflexivity].
  - destruct (resolveTaskConfig (configOptionsFor env n item)) as [config|e];
      [|cbn in Hran; lia].
    destruct (buildSubprocessPrompt _ _ _ cache _) as [[prepared|e] cache'];
      [|cbn in Hran; lia].
    cbv zeta in H, Hran.
    match type of H with
    | context [runSingleTask w ?o] => set (outcome := runSingleTask w o) in *
    end.
    set (results1 := <[index := createPlaceholderResult _ _ _ _ RUNNING]> results) in *.
    set (results2 := <[index := result outcome]> results1) in *.
    assert (Hindex : (index < length results)%nat) by (cbn [length] in Hlen; lia).
    assert (Hlen2 : length results2 = length results)
      by (unfold results2, results1; rewrite !length_insert; reflexivity).
    destruct (taskReturns outcome); cbn [negb] in H, Hran; [|discriminate].
    destruct (isTaskError (result outcome)) eqn:He.
    + cbn in H. injection H as <-. discriminate.
    + rewrite <- Hlen2. eapply IH; [| | |exact H|exact Herr|].
      * rewrite Hlen2. cbn [length] in Hlen. lia.
      * rewrite Hlen2. exact Hpos.
      * intros i ri Hi Hri. destruct (Nat.eq_dec i index) as [->|Hne].
        -- unfold results2 in Hri. rewrite list_lookup_insert_eq in Hri.
           ++ injection Hri as <-. exact He.
           ++ unfold results1. rewrite length_insert. exact Hindex.
        -- unfold results2, results1 in Hri.
           rewrite !list_lookup_insert_ne in Hri by auto.
           apply (Hgood i ri); [lia|exact Hri].
      * rewrite Hran, length_app. cbn [length]. lia.
Qed.

(** X27. A chain in which every step ran and that is not flagged as an
    error returns the final output of its last step, or a placeholder when
    that output is empty; none of its results classifies as failed. *)
Theorem chain_success_returns_last_output (w : World) (env : Env) (n : NormalizedParams)
    (sessionFile : option string) (r : ToolResult) :
  let E := executeChain w env n sessionFile in
  items n <> [] ->
  returned E = Some r ->
  isError r = false ->
  length (ran E) = length (items n) ->
  Forall (fun ri => isTaskError ri = false) (d_results (details r))
  /\ exists last,
       d_results (details r) !! (length (items n) - 1)%nat = Some last
       /\ text r = orElse (getFinalOutput (messages last)) "(no output)".
Proof.
  cbv zeta. intros Hne Hr Herr Hran.
  destruct (chainFrom_success w env n sessionFile (items n) 0 (chainPlaceholders n)
              EmptyString [] [] [] [] r) as (Hgood & last & Hlast & Htext).
  - apply chainPlaceholders_length.
  - rewrite chainPlaceholders_length. destruct (items n); [contradiction|cbn; lia].
  - intros i ri Hi. lia.
  - exact Hr.
  - exact Herr.
  - exact Hran.
  - split.
    + apply List.Forall_forall. intros ri Hin.
      apply list_elem_of_In, list_elem_of_lookup_1 in Hin as [i Hi]. eauto.
    + exists last. rewrite <- (chainPlaceholders_length n). auto.
Qed.

Lemma chain_success_returns_last_output_witness :
  let w := Samples.world (fun index _ =>
             match index with
             | Some 3%nat => Samples.says "all green"
             | _ => Samples.says "ok"
             end) in
  exists r,
    returned (executeChain w (Samples.env 4) Samples.threeSteps None) = Some r
    /\ text r = "all green"
    /\ Forall (fun ri => isTaskError ri = false) (d_results (details r)).
Proof.
  cbv zeta.
  set (w := Samples.world (fun index _ =>
             match index with
             | Some 3%nat => Samples.says "all green"
             | _ => Samples.says "ok"
             end)).
  destruct (returned (executeChain w (Samples.env 4) Samples.threeSteps None))
    as [r|] eqn:Hr; [|vm_compute in Hr; discriminate].
  assert (Herr : isError r = false).
  { assert (H : option_map isError (Some r) = Some false)
      by (rewrite <- Hr; vm_compute; reflexivity).
    injection H as H. exact H. }
  assert (Htext : text r = "all green").
  { assert (H : option_map text (Some r) = Some "all green")
      by (rewrite <- Hr; vm_compute; reflexivity).
    injection H as H. exact H. }
  destruct (chain_success_returns_last_output w (Samples.env 4) Samples.threeSteps None r)
    as (Hgood & _).
  - discriminate.
  - exact Hr.
  - exact Herr.
  - vm_compute. reflexivity.
  - exists r. split; [reflexivity|]. split; [exact Htext|exact Hgood].
Defined.

(** ** The usage of a result *)

Lemma handled_usage (r : SingleResult) (m : Value) :
  turns (usage (Spec.handled r m))
  = (if roleIs m "assistant" then PrimFloat.add (turns (usage r)) 1 else turns (usage r))
  /\ (if roleIs m "assistant" && negb (usageMissing m)
      then contextTokens (usage (Spec.handled r m))
           = numberOrZero (get (get m "usage") "totalTokens")
      else usage (Spec.handled r m)
           = mkUsage (input (usage r)) (output (usage r)) (cacheRead (usage r))
               (cacheWrite (usage r)) (cost (usage r)) (contextTokens (usage r))
               (turns (usage (Spec.handled r m)))).
Proof.
  unfold Spec.handled, handleEventMessage, applyAssistantUsage, recordFields. cbv zeta.
  destruct (roleIs m "assistant"); cbn [negb andb].
  - destruct (usageMissing m); cbn [negb]; [split; reflexivity|].
    cbn [Spec.stateOf r_model countTurn setUsage pushMessage].
    destruct (negb (truthyOpt (r_model r)) && truthyOpt (stringField m "model"));
      destruct (truthyOpt (stringField m "stopReason"));
      destruct (truthyOpt (stringField m "errorMessage")); split; reflexivity.
  - cbn. destruct (usage r). split; reflexivity.
Qed.

Lemma turnsFrom_succ (n : nat) (t : float) :
  Spec.turnsFrom (PrimFloat.add t 1) n = Spec.turnsFrom t (S n).
Proof.
  unfold Spec.turnsFrom. rewrite Nat.iter_succ_r. reflexivity.
Qed.

Lemma replay_usage (msgs : list Value) :
  forall r,
    turns (usage (Spec.replay r msgs))
    = Spec.turnsFrom (turns (usage r)) (Spec.assistantCount msgs)
    /\ match Spec.lastWithUsage msgs with
       | Some m =>
           contextTokens (usage (Spec.replay r msgs))
           = numberOrZero (get (get m "usage") "totalTokens")
       | None =>
           usage (Spec.replay r msgs)
           = mkUsage (input (usage r)) (output (usage r)) (cacheRead (usage r))
               (cacheWrite (usage r)) (cost (usage r)) (contextTokens (usage r))
               (Spec.turnsFrom (turns (usage r)) (Spec.assistantCount msgs))
       end.
Proof.
  induction msgs as [|m msgs IH]; intros r.
  - cbn. destruct (usage r). split; reflexivity.
  - unfold Spec.replay. cbn [fold_left Spec.lastWithUsage].
    fold (Spec.replay (Spec.handled r m) msgs).
    destruct (IH (Spec.handled r m)) as [IHt IHc].
    destruct (handled_usage r m) as [Ht Hc].
    assert (Hturns : turns (usage (Spec.replay (Spec.handled r m) msgs))
                     = Spec.turnsFrom (turns (usage r)) (Spec.assistantCount (m :: msgs))).
    { rewrite IHt, Ht. unfold Spec.assistantCount. cbn [List.filter].
      destruct (roleIs m "assistant"); [|reflexivity].
      cbn [length]. apply turnsFrom_succ. }
    split; [exact Hturns|].
    destruct (Spec.lastWithUsage msgs) as [later|]; [exact IHc|].
    destruct (roleIs m "assistant" && negb (usageMissing m)).
    + rewrite IHc. cbn [contextTokens]. exact Hc.
    + rewrite IHc, Hc. cbn [input output cacheRead cacheWrite cost contextTokens turns].
      f_equal. rewrite <- Hturns, IHt. reflexivity.
Qed.

(** X28. The context tokens of a result are those of the latest turn and
    are not summed: they are the total tokens that the usage object of the
    last assistant message of the log that has one reports, and 0 when it
    reports none. The turns count every assistant message of the log, also
    one without a usage object. Messages of other roles do not touch the
    usage, and a result without an assistant message that has a usage
    object has the usage it started with but for the turns: all zero. *)
Theorem context_tokens_are_latest (w : World) (options : RunOptions) :
  let r := result (runSingleTask w options) in
  turns (usage r) = Spec.turnsFrom 0 (Spec.assistantCount (messages r))
  /\ match Spec.lastWithUsage (messages r) with
     | Some m =>
         contextTokens (usage r) = numberOrZero (get (get m "usage") "totalTokens")
     | None =>
         usage r
         = mkUsage 0 0 0 0 0 0 (Spec.turnsFrom 0 (Spec.assistantCount (messages r)))
     end.
Proof.
  cbv zeta.
  assert (Hbase : forall msgs err,
            let r := appendStderr (Spec.replay (Spec.initialResult options) msgs) err in
            messages r = msgs /\ usage r = usage (Spec.replay (Spec.initialResult options) msgs)).
  { intros msgs err. cbv zeta. cbn [messages usage appendStderr].
    rewrite replay_messages. split; reflexivity. }
  assert (H : forall r msgs,
            messages r = msgs ->
            usage r = usage (Spec.replay (Spec.initialResult options) msgs) ->
            turns (usage r) = Spec.turnsFrom 0 (Spec.assistantCount (messages r))
            /\ match Spec.lastWithUsage (messages r) with
               | Some m =>
                   contextTokens (usage r)
                   = numberOrZero (get (get m "usage") "totalTokens")
               | None =>
                   usage r
                   = mkUsage 0 0 0 0 0 0
                       (Spec.turnsFrom 0 (Spec.assistantCount (messages r)))
               end).
  { intros r msgs Hm Hu. rewrite Hm, Hu.
    exact (replay_usage msgs (Spec.initialResult options)). }
  destruct (spawnedArgs (runSingleTask w options)) as [args|] eqn:Hs.
  - destruct (ending (spawn w (o_index options) args)) as [code|code early] eqn:Hend.
    + destruct (runSingleTask_closed w options args code Hs Hend) as (_ & _ & Hr).
      cbv zeta in Hr.
      set (o := runSingleTask w options) in *.
      destruct (Hbase (messages (result o))
                  (Spec.stderrText (events (spawn w (o_index options) args))))
        as [Hm Hu].
      apply (H (result o) (messages (result o))); [reflexivity|].
      rewrite Hr at 1. rewrite <- Hu. unfold Spec.closed.
      destruct (taskReturns o); [destruct (Spec.abortFired _ _)|]; reflexivity.
    + rewrite (runSingleTask_run w options args Hs). cbn [result].
      unfold runProcess. rewrite Hend.
      destruct (spawnError_state (JSON_parse w) (o_signal options)
                  (Spec.initialResult options) (spawn w (o_index options) args) code)
        as (_ & _ & msgs & msgs' & Hr & Hr').
      cbv zeta in Hr'.
      destruct (early && o_fork options).
      * rewrite Hr'. destruct (Hbase msgs'
                                 (Spec.stderrText (events (spawn w (o_index options) args))))
          as [Hm Hu].
        apply (H _ msgs').
        -- destruct (Spec.lineThrows _ _); [exact Hm|].
           unfold Spec.closed. destruct (Spec.abortFired _ _); exact Hm.
        -- destruct (Spec.lineThrows _ _); [exact Hu|].
           unfold Spec.closed. destruct (Spec.abortFired _ _); exact Hu.
      * rewrite Hr. destruct (Hbase msgs
                                (Spec.stderrText (events (spawn w (o_index options) args))))
          as [Hm Hu].
        apply (H _ msgs); [exact Hm|exact Hu].
  - revert Hs. unfold runSingleTask.
    destruct (o_fork options); [|discriminate].
    destruct (negb (truthyOpt (o_sessionFile options))); [intros _; split; reflexivity|].
    destruct (createForkSession w _ _); [discriminate|intros _; split; reflexivity].
Qed.
